(** * FetchFlow: the sequential fetch VM ([sequential-fetch-vm-lib.js])

    A shallow embedding of [SequentialFetchVM]: the statement segmenter, the
    declaration rewriter, the fetch interceptor, the execution driver, the
    snapshot manager and the resume engine, together with the properties the
    specification states about them.

    The embedded interpreter (QuickJS) and the statement parser (acorn) are
    external collaborators.  The driver is written over an [Engine] record
    that holds them; [MiniJS] at the end of the definitions is one concrete
    engine, covering the fragment of the script language that the scenarios
    of the specification use. *)

From Stdlib Require Import String Ascii List ZArith Lia Bool Arith.
From Stdlib Require Import Numbers.DecimalString FunctionalExtensionality.
From Stdlib Require Import Numbers.DecimalZ Numbers.DecimalPos.
Import ListNotations.
Local Open Scope list_scope.
Local Open Scope string_scope.
Set Warnings "-register-all".

(** ** Values *)

(** Interpreter values, as far as the library looks at them.  Numbers are
    restricted to integers.  [VFunction] carries the text that the function
    prints as; [VBigInt] is the value on which [JSON.stringify] throws. *)
Inductive jsval : Type :=
| VUndefined
| VNull
| VBool (b : bool)
| VNum (n : Z)
| VBigInt (n : Z)
| VStr (s : string)
| VArr (elems : list jsval)
| VObj (props : list (string * jsval))
| VFunction (src : string).

(** An induction principle that reaches the elements of arrays and the
    property values of objects. *)
Section jsval_induction.
Variable P : jsval -> Prop.
Hypothesis Hundef : P VUndefined.
Hypothesis Hnull : P VNull.
Hypothesis Hbool : forall b, P (VBool b).
Hypothesis Hnum : forall n, P (VNum n).
Hypothesis Hbig : forall n, P (VBigInt n).
Hypothesis Hstr : forall s, P (VStr s).
Hypothesis Harr : forall l, Forall P l -> P (VArr l).
Hypothesis Hobj : forall ps, Forall (fun p => P (snd p)) ps -> P (VObj ps).
Hypothesis Hfun : forall s, P (VFunction s).

Fixpoint jsval_deep_ind (v : jsval) : P v :=
  match v with
  | VUndefined => Hundef
  | VNull => Hnull
  | VBool b => Hbool b
  | VNum n => Hnum n
  | VBigInt n => Hbig n
  | VStr s => Hstr s
  | VArr l =>
      Harr l ((fix go (l : list jsval) : Forall P l :=
                 match l with
                 | [] => Forall_nil _
                 | x :: r => Forall_cons _ (jsval_deep_ind x) (go r)
                 end) l)
  | VObj ps =>
      Hobj ps ((fix go (ps : list (string * jsval))
                  : Forall (fun p => P (snd p)) ps :=
                  match ps with
                  | [] => Forall_nil _
                  | p :: r => Forall_cons _ (jsval_deep_ind (snd p)) (go r)
                  end) ps)
  | VFunction s => Hfun s
  end.
End jsval_induction.

(** ** Strings *)

Definition dquote : string := String (ascii_of_nat 34) EmptyString.
Definition newline : string := String (ascii_of_nat 10) EmptyString.
Definition backslash : ascii := ascii_of_nat 92.

Definition showZ (n : Z) : string := NilZero.string_of_int (Z.to_int n).
Definition showNat (n : nat) : string := showZ (Z.of_nat n).

(** [s.startsWith(p)] *)
Definition startsWith (p s : string) : bool := String.prefix p s.

(** [s.slice(start, stop)] for [start <= stop] *)
Definition slice (start stop : nat) (s : string) : string :=
  String.substring start (stop - start) s.

Fixpoint join (sep : string) (l : list string) : string :=
  match l with
  | [] => EmptyString
  | [x] => x
  | x :: r => x ++ sep ++ join sep r
  end.

(** [stripPrefix p s] is the rest of [s] after its prefix [p]. *)
Fixpoint stripPrefix (p s : string) : option string :=
  match p with
  | EmptyString => Some s
  | String a p' =>
      match s with
      | EmptyString => None
      | String b s' => if Ascii.eqb a b then stripPrefix p' s' else None
      end
  end.

(** [s.replace(pat, rep)] with a string pattern: the first occurrence only. *)
Fixpoint replaceFirst (pat rep s : string) : string :=
  match stripPrefix pat s with
  | Some rest => rep ++ rest
  | None =>
      match s with
      | EmptyString => EmptyString
      | String c s' => String c (replaceFirst pat rep s')
      end
  end.

(** Character classes of the regular expressions: [\w] and [\s] (ASCII). *)
Definition isWordChar (c : ascii) : bool :=
  let n := nat_of_ascii c in
  (((48 <=? n) && (n <=? 57)) || ((65 <=? n) && (n <=? 90))
   || ((97 <=? n) && (n <=? 122)) || (n =? 95))%nat.

Definition isSpace (c : ascii) : bool :=
  let n := nat_of_ascii c in
  (((9 <=? n) && (n <=? 13)) || (n =? 32))%nat.

Fixpoint countSpaces (s : string) : nat :=
  match s with
  | String c s' => if isSpace c then S (countSpaces s') else 0
  | EmptyString => 0
  end.

Fixpoint dropChars (n : nat) (s : string) : string :=
  match n, s with
  | S k, String _ s' => dropChars k s'
  | _, _ => s
  end.

(** ** [String(v)], [JSON.stringify(v)] and [vm.dump(v)] *)

(** String conversion, as a template literal [`${v}`] performs it. *)
Fixpoint ToString (v : jsval) : string :=
  match v with
  | VUndefined => "undefined"
  | VNull => "null"
  | VBool true => "true"
  | VBool false => "false"
  | VNum n => showZ n
  | VBigInt n => showZ n
  | VStr s => s
  | VArr l =>
      join "," (map (fun e => match e with
                              | VUndefined | VNull => EmptyString
                              | _ => ToString e
                              end) l)
  | VObj _ => "[object Object]"
  | VFunction src => src
  end.

(** [JSON.stringify] throws on a BigInt, wherever it sits in the value. *)
Fixpoint stringifyThrows (v : jsval) : bool :=
  match v with
  | VBigInt _ => true
  | VArr l => existsb stringifyThrows l
  | VObj ps => existsb (fun p => stringifyThrows (snd p)) ps
  | _ => false
  end.

Definition hexDigit (n : nat) : ascii :=
  ascii_of_nat (if (n <? 10)%nat then 48 + n else 87 + n).

Definition escapeChar (c : ascii) : string :=
  let n := nat_of_ascii c in
  if (n =? 34)%nat then String backslash dquote
  else if (n =? 92)%nat then "\\"
  else if (n =? 8)%nat then "\b"
  else if (n =? 9)%nat then "\t"
  else if (n =? 10)%nat then "\n"
  else if (n =? 12)%nat then "\f"
  else if (n =? 13)%nat then "\r"
  else if (n <? 32)%nat then
    "\u00" ++ String (hexDigit (n / 16)) (String (hexDigit (n mod 16)) EmptyString)
  else String c EmptyString.

Fixpoint escapeString (s : string) : string :=
  match s with
  | EmptyString => EmptyString
  | String c s' => escapeChar c ++ escapeString s'
  end.

Definition quoteString (s : string) : string :=
  dquote ++ escapeString s ++ dquote.

(** The text of [JSON.stringify(v)] when it does not throw; [None] stands
    for the result [undefined]. *)
Fixpoint jsonText (v : jsval) : option string :=
  match v with
  | VUndefined | VFunction _ | VBigInt _ => None
  | VNull => Some "null"
  | VBool true => Some "true"
  | VBool false => Some "false"
  | VNum n => Some (showZ n)
  | VStr s => Some (quoteString s)
  | VArr l =>
      Some ("[" ++ join "," (map (fun e => match jsonText e with
                                           | Some t => t
                                           | None => "null"
                                           end) l) ++ "]")
  | VObj ps =>
      Some ("{" ++ join "," (flat_map (fun p => match jsonText (snd p) with
                                                | Some t => [quoteString (fst p) ++ ":" ++ t]
                                                | None => []
                                                end) ps) ++ "}")
  end.

Inductive Stringified : Type :=
| JsonText (t : string)
| JsonUndefined
| JsonThrows.

Definition JSON_stringify (v : jsval) : Stringified :=
  if stringifyThrows v then JsonThrows
  else match jsonText v with
       | Some t => JsonText t
       | None => JsonUndefined
       end.

(** The value that [JSON.parse(JSON.stringify(v))] gives back; [None] when
    the text is [undefined]. *)
Fixpoint jsonValue (v : jsval) : option jsval :=
  match v with
  | VUndefined | VFunction _ => None
  | VArr l =>
      Some (VArr (map (fun e => match jsonValue e with
                                | Some j => j
                                | None => VNull
                                end) l))
  | VObj ps =>
      Some (VObj (flat_map (fun p => match jsonValue (snd p) with
                                     | Some j => [(fst p, j)]
                                     | None => []
                                     end) ps))
  | _ => Some v
  end.

(** The image of an array element and of a property under
    [JSON.parse(JSON.stringify(...))]: the functions mapped over the elements
    and the properties in [jsonValue]. *)
Definition jsonElem (e : jsval) : jsval :=
  match jsonValue e with
  | Some j => j
  | None => VNull
  end.

Definition jsonProp (p : string * jsval) : list (string * jsval) :=
  match jsonValue (snd p) with
  | Some j => [(fst p, j)]
  | None => []
  end.

(** [vm.dump(handle)]: primitives come out as they are; an object or array
    comes out through its JSON text, or as its string conversion when that
    text cannot be produced. *)
Definition dump (v : jsval) : jsval :=
  match v with
  | VArr _ | VObj _ =>
      if stringifyThrows v then VStr (ToString v)
      else match jsonValue v with
           | Some j => j
           | None => VUndefined
           end
  | VFunction src => VStr src
  | _ => v
  end.

(** Property read [o.k] on a host value that is an object. *)
Fixpoint lookupProp (k : string) (ps : list (string * jsval)) : option jsval :=
  match ps with
  | [] => None
  | (k', v) :: r => if String.eqb k k' then Some v else lookupProp k r
  end.

(** ** The two regular expressions of the library *)

(** [new RegExp(`\\b(const|let|var)\\s+${varName}\\s*=`, 'g')].  The name is
    an identifier: its characters stand for themselves in the pattern, except
    [$], which anchors the end of the input and so makes the pattern
    unmatchable (something always has to follow it). *)
Definition declKeyword (s : string) : option (nat * string) :=
  match stripPrefix "const" s with
  | Some r => Some (5, r)
  | None =>
      match stripPrefix "let" s with
      | Some r => Some (3, r)
      | None =>
          match stripPrefix "var" s with
          | Some r => Some (3, r)
          | None => None
          end
      end
  end.

Fixpoint hasDollar (s : string) : bool :=
  match s with
  | EmptyString => false
  | String c s' => Ascii.eqb c "$" || hasDollar s'
  end.

(** Length of the match of [(const|let|var)\s+varName\s*=] at the head of
    [s], if there is one. *)
Definition matchDeclaration (varName s : string) : option nat :=
  if hasDollar varName then None
  else
    match declKeyword s with
    | None => None
    | Some (k, r) =>
        let n1 := countSpaces r in
        if (n1 =? 0)%nat then None
        else
          match stripPrefix varName (dropChars n1 r) with
          | None => None
          | Some r2 =>
              let n2 := countSpaces r2 in
              match dropChars n2 r2 with
              | String c _ =>
                  if Ascii.eqb c "="
                  then Some (k + n1 + String.length varName + n2 + 1)
                  else None
              | EmptyString => None
              end
          end
    end.

(** [statement.replace(varRegex, `globalThis.${varName} =`)]: every match,
    left to right.  [skip] counts the characters of the current match that
    are still to be dropped; [prevWord] tells whether the character before
    the current position is a word character (for [\b]). *)
Fixpoint replaceDeclarations (varName : string) (skip : nat) (prevWord : bool)
    (s : string) : string :=
  match s with
  | EmptyString => EmptyString
  | String c rest =>
      match skip with
      | S k => replaceDeclarations varName k (isWordChar c) rest
      | O =>
          match (if prevWord then None else matchDeclaration varName s) with
          | Some len =>
              ("globalThis." ++ varName ++ " =")
                ++ replaceDeclarations varName (len - 1) (isWordChar c) rest
          | None => String c (replaceDeclarations varName 0 (isWordChar c) rest)
          end
      end
  end.

Definition rewriteDeclaration (statement varName : string) : string :=
  replaceDeclarations varName 0 false statement.

(** The loop [for (const varName of variableNames) statement = ...]. *)
Definition rewriteDeclarations (variableNames : list string) (statement : string)
  : string :=
  fold_left rewriteDeclaration variableNames statement.

(** [/fetch\([^)]+\)/g] *)
Fixpoint countNonParen (s : string) : nat :=
  match s with
  | String c s' => if Ascii.eqb c ")" then 0 else S (countNonParen s')
  | EmptyString => 0
  end.

Definition matchFetchCall (s : string) : option nat :=
  match stripPrefix "fetch(" s with
  | None => None
  | Some r =>
      let n := countNonParen r in
      if (n =? 0)%nat then None
      else
        match dropChars n r with
        | String _ _ => Some (6 + n + 1)
        | EmptyString => None
        end
  end.

(** [currentStatement.replace(/fetch\([^)]+\)/g, 'globalThis.__currentFetchData')] *)
Fixpoint replaceFetchCalls (skip : nat) (s : string) : string :=
  match s with
  | EmptyString => EmptyString
  | String c rest =>
      match skip with
      | S k => replaceFetchCalls k rest
      | O =>
          match matchFetchCall s with
          | Some len =>
              "globalThis.__currentFetchData" ++ replaceFetchCalls (len - 1) rest
          | None => String c (replaceFetchCalls 0 rest)
          end
      end
  end.

(** ** Data model of the library *)

(** [{ id, url, options, timestamp }].  The first three fields are read off
    whatever the reserved slot holds, so they are values. *)
Module FetchRequest.
Record t : Type := mk {
  id : jsval;
  url : jsval;
  options : jsval;
  timestamp : Z
}.
End FetchRequest.

(** [{ id, success, status, statusText, data?, error?, timestamp }] *)
Module FetchResponse.
Record t : Type := mk {
  id : string;
  success : bool;
  status : Z;
  statusText : string;
  data : jsval;
  error : option string;
  timestamp : Z
}.
End FetchResponse.

(** The snapshot: [{ id, code, variables, timestamp, currentStatementIndex,
    statements }]. *)
Module VMState.
Record t : Type := mk {
  id : string;
  code : string;
  variables : list (string * jsval);
  timestamp : Z;
  currentStatementIndex : nat;
  statements : list string
}.
End VMState.

(** [{ type: 'completed', result } | { type: 'paused', state, fetchRequest }] *)
Inductive ExecutionResult : Type :=
| Completed (result : jsval)
| Paused (state : VMState.t) (fetchRequest : FetchRequest.t).

(** What a rejected promise carries. *)
Inductive HostError : Type :=
| ScriptError (errorMsg : jsval)      (* new Error(JSON.stringify(errorMsg, null, 2)) *)
| FetchDetailsError                   (* new Error('Failed to get fetch details') *)
| InjectError (error : jsval)         (* new Error(`Failed to inject response: ${error}`) *)
| HostTypeError (what : string).      (* a TypeError of the host language *)

Inductive Outcome : Type :=
| Returned (r : ExecutionResult)
| Thrown (e : HostError).

(** A value is JSON-serializable when [JSON.stringify] turns it into a
    text: it neither throws nor answers [undefined]. *)
Definition jsonSerializable (v : jsval) : Prop :=
  exists t, JSON_stringify v = JsonText t.

(** ** The collaborators *)

(** [{ value } | { error }] of [vm.evalCode]. *)
Inductive EvalResult : Type :=
| EvalValue (value : jsval)
| EvalError (error : jsval).

(** Host state that a host function called by the interpreter can touch:
    [this.fetchCounter], and the number of readings of [Date.now()] taken so
    far. *)
Record HostState : Type := mkHost {
  fetchCounter : nat;
  clockReads : nat
}.

Definition HostFunction (C : Type) : Type :=
  list jsval -> C -> HostState -> EvalResult * C * HostState.

(** What the library reads of a node of [acorn.parse(...).body]. *)
Inductive Declarator : Type :=
| DeclIdentifier (name : string)      (* declarator.id.type === 'Identifier' *)
| DeclPattern.

Inductive NodeType : Type :=
| VariableDeclaration (declarations : list Declarator)
| OtherNode.

Record Node : Type := mkNode {
  node_start : nat;
  node_end : nat;
  node_type : NodeType
}.

(** The interpreter and the parser.  [evalCode] receives the host function
    installed as the global [fetch]; [acornParse] is [None] when
    [acorn.parse] throws; [callDepth] bounds how deep the interpreter lets a
    host function evaluate code again.  An engine is a function of the code,
    the context and the host state: what a script can read beside them (the
    interpreter's own [Math.random] or [Date]) is not modelled, and the
    statements about repeated runs are made on the concrete engine below,
    for scripts that read nothing of the kind. *)
Record Engine : Type := mkEngine {
  Context : Type;
  newContext : Context;
  evalCode : HostFunction Context -> string -> Context -> HostState
             -> EvalResult * Context * HostState;
  acornParse : string -> option (list Node);
  callDepth : nat
}.

(** ** The library *)

Definition pauseMarker : string := "__FETCH_PAUSE__".

(** [typeof value === 'string' && value.startsWith('__FETCH_PAUSE__')] *)
Definition isPauseMarker (v : jsval) : option string :=
  match v with
  | VStr s => if startsWith pauseMarker s then Some s else None
  | _ => None
  end.

(** [foundPauseMarker.replace('__FETCH_PAUSE__', '')] *)
Definition fetchIdOf (marker : string) : string :=
  replaceFirst pauseMarker EmptyString marker.

Definition requestIdOf (time : Z) (counter : nat) : string :=
  "fetch_" ++ showZ time ++ "_" ++ showNat counter.

(** The text of [storeCode], with the layout of the template literal. *)
Definition storeCode (requestId urlStr optsText : string) : string :=
  newline ++ "        globalThis.__fetchPause = {"
  ++ newline ++ "          id: " ++ dquote ++ requestId ++ dquote ++ ","
  ++ newline ++ "          url: " ++ dquote ++ urlStr ++ dquote ++ ","
  ++ newline ++ "          options: " ++ optsText
  ++ newline ++ "        };"
  ++ newline ++ "      ".

(** [`${JSON.stringify(v)}`] when [JSON.stringify] returns. *)
Definition stringifiedText (r : Stringified) : option string :=
  match r with
  | JsonText t => Some t
  | JsonUndefined => Some "undefined"
  | JsonThrows => None
  end.

Definition typeError (message : string) : jsval :=
  VObj [("name", VStr "TypeError"); ("message", VStr message)].

(** The program that [getCurrentState] hands to the interpreter, with the
    layout of the template literal. *)
Definition captureCode : string :=
  newline ++ "      (() => {"
  ++ newline ++ "        const globals = {};"
  ++ newline ++ "        for (const key of Object.getOwnPropertyNames(globalThis)) {"
  ++ newline ++ "          if (!key.startsWith('_') &&"
  ++ newline ++ "              !['fetch', 'console', 'Object', 'Array', 'Function', 'String', 'Number',"
  ++ newline ++ "                'Boolean', 'Symbol', 'Math', 'Date', 'JSON', 'Promise', 'globalThis',"
  ++ newline ++ "                'undefined', 'NaN', 'Infinity'].includes(key)) {"
  ++ newline ++ "            try {"
  ++ newline ++ "              const val = globalThis[key];"
  ++ newline ++ "              JSON.stringify(val); // Test if serializable"
  ++ newline ++ "              globals[key] = val;"
  ++ newline ++ "            } catch (e) {"
  ++ newline ++ "              // Skip non-serializable"
  ++ newline ++ "            }"
  ++ newline ++ "          }"
  ++ newline ++ "        }"
  ++ newline ++ "        return globals;"
  ++ newline ++ "      })()"
  ++ newline ++ "    ".

(** The denylist of the capture program. *)
Definition intrinsicNames : list string :=
  ["fetch"; "console"; "Object"; "Array"; "Function"; "String"; "Number";
   "Boolean"; "Symbol"; "Math"; "Date"; "JSON"; "Promise"; "globalThis";
   "undefined"; "NaN"; "Infinity"].

Definition includes (l : list string) (k : string) : bool :=
  existsb (String.eqb k) l.

(** The test that the loop of the capture program applies to a global
    when [JSON.stringify] is the intrinsic: the two conditions of the [if],
    and [JSON.stringify(val)] not throwing. *)
Definition capturable (p : string * jsval) : bool :=
  negb (startsWith "_" (fst p))
  && negb (includes intrinsicNames (fst p))
  && negb (stringifyThrows (snd p)).

(** The object [globals] that the capture program builds out of the own
    properties [props] of the global object, when the intrinsics that it
    calls are in place. *)
Definition collectGlobals (props : list (string * jsval)) : list (string * jsval) :=
  filter capturable props.

(** [this.vm.dump(handle)] as the variable mapping of a snapshot: the
    properties of the dumped value.  What the capture program returns is an
    object; a dumped value that is no object is read as an empty mapping. *)
Definition dumpProps (value : jsval) : list (string * jsval) :=
  match dump value with
  | VObj ps => ps
  | _ => []
  end.

(** The same for the object with the properties [props]. *)
Definition dumpObject (props : list (string * jsval)) : list (string * jsval) :=
  dumpProps (VObj props).

(** Read of one of the properties [id], [url], [options] off a dumped value:
    [None] is the TypeError of reading a property of [undefined] or [null]. *)
Definition getProp (k : string) (v : jsval) : option jsval :=
  match v with
  | VUndefined | VNull => None
  | VObj ps => Some (match lookupProp k ps with
                     | Some x => x
                     | None => VUndefined
                     end)
  | _ => Some VUndefined
  end.

(** The object [SequentialFetchVM].  [host] holds [fetchCounter] together
    with the count of clock readings. *)
Record SequentialFetchVM (E : Engine) : Type := mkVM {
  vm : Context E;
  host : HostState;
  allCode : string;
  statements : list string;
  currentStatementIndex : nat
}.
Arguments mkVM {E}.
Arguments vm {E}.
Arguments host {E}.
Arguments allCode {E}.
Arguments statements {E}.
Arguments currentStatementIndex {E}.

Section Library.
Variable E : Engine.
(** [now k] is what the [k]-th call of [Date.now()] returns. *)
Variable now : nat -> Z.

Local Abbreviation VM := (SequentialFetchVM E).

Definition withContext (m : VM) (c : Context E) (h : HostState) : VM :=
  mkVM c h (allCode m) (statements m) (currentStatementIndex m).

Definition tick (h : HostState) : HostState :=
  mkHost (fetchCounter h) (S (clockReads h)).

(** [initialize]: a new context with [console] and [fetch] installed. *)
Definition initialize (reads : nat) : VM :=
  mkVM (newContext E) (mkHost 0 reads) EmptyString [] 0.

(** *** [setupFetch]: the fetch interceptor *)
Fixpoint fetchFunc (depth : nat) : HostFunction (Context E) :=
  fun args c h =>
    match args with
    | [] => (EvalError (typeError "dump of undefined"), c, h)
    | url :: rest =>
        let urlStr := dump url in
        let optsObj := match rest with
                       | options :: _ => dump options
                       | [] => VObj []
                       end in
        let requestId := requestIdOf (now (clockReads h)) (S (fetchCounter h)) in
        let h1 := mkHost (S (fetchCounter h)) (S (clockReads h)) in
        match stringifiedText (JSON_stringify optsObj) with
        | None => (EvalError (typeError "cannot serialize"), c, h1)
        | Some optsText =>
            let code := storeCode requestId (ToString urlStr) optsText in
            let '(c2, h2) :=
              match depth with
              | O => (c, h1)
              | S d => let '(_, c', h') := evalCode E (fetchFunc d) code c h1 in
                       (c', h')
              end in
            (EvalValue (VStr (pauseMarker ++ requestId)), c2, h2)
        end
    end.

(** [this.vm.evalCode(code)] *)
Definition vmEval (code : string) (m : VM) : EvalResult * VM :=
  let '(r, c, h) := evalCode E (fetchFunc (callDepth E)) code (vm m) (host m) in
  (r, withContext m c h).

(** *** [extractVariableNames] *)
Definition declaredNames (n : Node) : list string :=
  match node_type n with
  | VariableDeclaration ds =>
      flat_map (fun d => match d with
                         | DeclIdentifier name => [name]
                         | DeclPattern => []
                         end) ds
  | OtherNode => []
  end.

Definition extractVariableNames (statement : string) : list string :=
  match acornParse E statement with
  | Some body => flat_map declaredNames body
  | None => []
  end.

(** *** [parseCodeIntoStatements] *)
Definition parseCodeIntoStatements (code : string) : list string :=
  match acornParse E code with
  | Some body => map (fun n => slice (node_start n) (node_end n) code) body
  | None => [code]
  end.

(** *** [getCurrentState]

    The capture program is evaluated by the interpreter; when the
    interpreter reports an error the variables stay empty. *)
Definition getCurrentState (m : VM) : VMState.t * VM :=
  let '(globalsResult, m1) := vmEval captureCode m in
  let variables := match globalsResult with
                   | EvalValue value => dumpProps value
                   | EvalError _ => []
                   end in
  let h := host m1 in
  (VMState.mk ("state_" ++ showZ (now (clockReads h)))
              (allCode m1)
              variables
              (now (S (clockReads h)))
              (currentStatementIndex m1)
              (statements m1),
   withContext m1 (vm m1) (tick (tick h))).

(** *** [restoreState] *)
Definition restoreCode (variablesText : string) : string :=
  "Object.assign(globalThis, " ++ variablesText ++ ")".

Definition restoreState (state : VMState.t) (m : VM) : option HostError * VM :=
  let m1 := mkVM (vm m) (host m) (VMState.code state)
                 (VMState.statements state)
                 (VMState.currentStatementIndex state) in
  match VMState.variables state with
  | [] => (None, m1)
  | _ :: _ =>
      match stringifiedText (JSON_stringify (VObj (VMState.variables state))) with
      | None => (Some (HostTypeError "JSON.stringify"), m1)
      | Some text => (None, snd (vmEval (restoreCode text) m1))
      end
  end.

(** *** [executeNextStatement] *)

(** The variables of the statement are looked up one after the other until
    one holds a marker. *)
Fixpoint checkVariables (variableNames : list string) (m : VM)
  : option string * VM :=
  match variableNames with
  | [] => (None, m)
  | varName :: rest =>
      match vmEval varName m with
      | (EvalValue v, m1) =>
          match isPauseMarker (dump v) with
          | Some marker => (Some marker, m1)
          | None => checkVariables rest m1
          end
      | (EvalError _, m1) => checkVariables rest m1
      end
  end.

(** [foundPauseMarker]: from the value of the statement, or else from the
    variables that the evaluated text declares. *)
Definition findPauseMarker (value : jsval) (statement : string) (m : VM)
  : option string * VM :=
  match isPauseMarker value with
  | Some marker => (Some marker, m)
  | None => checkVariables (extractVariableNames statement) m
  end.

(** The branch [if (foundPauseMarker)]. *)
Definition pauseExecution (m : VM) : Outcome * VM :=
  match vmEval "globalThis.__fetchPause" m with
  | (EvalError _, m1) => (Thrown FetchDetailsError, m1)
  | (EvalValue v, m1) =>
      let fetchDetails := dump v in
      match getProp "id" fetchDetails, getProp "url" fetchDetails,
            getProp "options" fetchDetails with
      | Some i, Some u, Some o =>
          let fetchRequest :=
            FetchRequest.mk i u o (now (clockReads (host m1))) in
          let '(state, m2) :=
            getCurrentState (withContext m1 (vm m1) (tick (host m1))) in
          (Returned (Paused state fetchRequest), m2)
      | _, _, _ => (Thrown (HostTypeError "fetchDetails"), m1)
      end
  end.

Definition advance (m : VM) : VM :=
  mkVM (vm m) (host m) (allCode m) (statements m) (S (currentStatementIndex m)).

(** The text that [executeNextStatement] evaluates for a statement. *)
Definition transformStatement (statement : string) : string :=
  rewriteDeclarations (extractVariableNames statement) statement.

(** [fuel] bounds the number of statements run; [executeNextStatement]
    below gives it the number of statements. *)
Fixpoint runStatements (fuel : nat) (m : VM) : Outcome * VM :=
  match nth_error (statements m) (currentStatementIndex m) with
  | None => (Returned (Completed VUndefined), m)
  | Some original =>
      let statement := transformStatement original in
      match vmEval statement m with
      | (EvalError e, m1) => (Thrown (ScriptError (dump e)), m1)
      | (EvalValue v, m1) =>
          let value := dump v in
          match findPauseMarker value statement m1 with
          | (Some _, m2) => pauseExecution m2
          | (None, m2) =>
              let m3 := advance m2 in
              if (length (statements m3) <=? currentStatementIndex m3)%nat
              then (Returned (Completed value), m3)
              else match fuel with
                   | O => (Returned (Completed value), m3)
                   | S fuel' => runStatements fuel' m3
                   end
          end
      end
  end.

Definition executeNextStatement (m : VM) : Outcome * VM :=
  runStatements (length (statements m)) m.

(** *** [execute] *)
Definition execute (code : string) (m : VM) : Outcome * VM :=
  executeNextStatement
    (mkVM (vm m) (host m) (allCode m ++ newline ++ code)
          (parseCodeIntoStatements code) 0).

(** *** [resume] *)
Definition injectCode (dataText : string) : string :=
  newline ++ "      globalThis.__currentFetchData = " ++ dataText ++ ";"
  ++ newline ++ "    ".

Definition clearCode : string :=
  "delete globalThis.__currentFetchData; delete globalThis.__fetchPause;".

(** The text that [resume] evaluates for the paused statement. *)
Definition transformForResume (currentStatement : string) : string :=
  rewriteDeclarations (extractVariableNames currentStatement)
                      (replaceFetchCalls 0 currentStatement).

(** The first part of [resume]: restore, inject, replay the statement
    under the cursor, advance, clear the reserved slots. *)
Definition replayStatement (state : VMState.t) (fetchResponse : FetchResponse.t)
    (m : VM) : (HostError + jsval) * VM :=
  match restoreState state m with
  | (Some e, m0) => (inl e, m0)
  | (None, m0) =>
      match stringifiedText (JSON_stringify (FetchResponse.data fetchResponse)) with
      | None => (inl (HostTypeError "JSON.stringify"), m0)
      | Some dataText =>
          match vmEval (injectCode dataText) m0 with
          | (EvalError e, m1) => (inl (InjectError (dump e)), m1)
          | (EvalValue _, m1) =>
              match nth_error (statements m1) (currentStatementIndex m1) with
              | None => (inl (HostTypeError "currentStatement"), m1)
              | Some currentStatement =>
                  match vmEval (transformForResume currentStatement) m1 with
                  | (EvalError e, m2) => (inl (ScriptError (dump e)), m2)
                  | (EvalValue v, m2) =>
                      (inr (dump v), snd (vmEval clearCode (advance m2)))
                  end
              end
          end
      end
  end.

Definition resume (state : VMState.t) (fetchResponse : FetchResponse.t) (m : VM)
  : Outcome * VM :=
  match replayStatement state fetchResponse m with
  | (inl e, m1) => (Thrown e, m1)
  | (inr value, m4) =>
      if (currentStatementIndex m4 <? length (statements m4))%nat
      then executeNextStatement m4
      else (Returned (Completed value), m4)
  end.

(** *** The convenience functions: a new interpreter for each call *)
Definition executeCode (code : string) (reads : nat) : Outcome * nat :=
  let '(r, m) := execute code (initialize reads) in
  (r, clockReads (host m)).

Definition resumeExecution (state : VMState.t) (fetchResponse : FetchResponse.t)
    (reads : nat) : Outcome * nat :=
  let '(r, m) := resume state fetchResponse (initialize reads) in
  (r, clockReads (host m)).
End Library.

(** ** A concrete engine for a fragment of the script language

    [MiniJS] stands for QuickJS and acorn on the programs that consist of
    expression statements and [var]/[let]/[const] declarations, each ended by
    a semicolon or by the end of the text, over integer, BigInt, string,
    array and object literals, global variables, property reads, calls of the
    host functions, assignment to globals, [delete globalThis.x],
    [Object.assign(globalThis, o)], [JSON.stringify(v)], [+] and the comma
    operator.  A text outside the fragment is reported as a syntax error;
    the one exception is the capture program of [getCurrentState], which
    the engine runs through its translation [evalCapture].  The state of a
    context is the property list of its global object; a top-level
    declaration binds a global property. *)
Module MiniJS.

Inductive token : Type :=
| TIdent (s : string)
| TNum (n : Z)
| TBig (n : Z)
| TStr (s : string)
| TPunct (c : ascii).

(** A token with the offsets where it starts and ends. *)
Definition ptoken : Type := (token * nat * nat)%type.

Definition isDigit (c : ascii) : bool :=
  let n := nat_of_ascii c in ((48 <=? n) && (n <=? 57))%nat.

Definition isIdentStart (c : ascii) : bool :=
  (isWordChar c && negb (isDigit c)) || Ascii.eqb c "$".

Definition isIdentPart (c : ascii) : bool :=
  isWordChar c || Ascii.eqb c "$".

Definition isPunct (c : ascii) : bool :=
  existsb (Ascii.eqb c)
    ["("; ")"; "{"; "}"; "["; "]"; ","; ";"; ":"; "."; "="; "+"]%char.

Definition digitValue (c : ascii) : Z := Z.of_nat (nat_of_ascii c - 48).

Definition snoc (s : string) (c : ascii) : string := s ++ String c EmptyString.

Inductive lexState : Type :=
| LxIdle
| LxWord (start : nat) (acc : string)
| LxDigits (start : nat) (acc : Z)
| LxString (quote : ascii) (start : nat) (acc : string)
| LxEscape (quote : ascii) (start : nat) (acc : string).

(** The character that an escape sequence denotes in a string literal; the
    sequences with [u], [x] and digits are outside the fragment. *)
Definition unescape (c : ascii) : option ascii :=
  let n := nat_of_ascii c in
  if Ascii.eqb c "n" then Some (ascii_of_nat 10)
  else if Ascii.eqb c "t" then Some (ascii_of_nat 9)
  else if Ascii.eqb c "r" then Some (ascii_of_nat 13)
  else if Ascii.eqb c "b" then Some (ascii_of_nat 8)
  else if Ascii.eqb c "f" then Some (ascii_of_nat 12)
  else if Ascii.eqb c "v" then Some (ascii_of_nat 11)
  else if Ascii.eqb c "u" || Ascii.eqb c "x" || isDigit c then None
  else if (n =? 10)%nat || (n =? 13)%nat then None
  else Some c.

(** What a character does between two tokens. *)
Definition startToken (c : ascii) (pos : nat) : option (list ptoken * lexState) :=
  if isSpace c then Some ([], LxIdle)
  else if Ascii.eqb c (ascii_of_nat 34) || Ascii.eqb c "'"
  then Some ([], LxString c pos EmptyString)
  else if isIdentStart c then Some ([], LxWord pos (String c EmptyString))
  else if isDigit c then Some ([], LxDigits pos (digitValue c))
  else if isPunct c then Some ([(TPunct c, pos, S pos)], LxIdle)
  else None.

(** One character: the tokens that it completes and the next state. *)
Definition lexStep (st : lexState) (pos : nat) (c : ascii)
  : option (list ptoken * lexState) :=
  match st with
  | LxIdle => startToken c pos
  | LxWord start acc =>
      if isIdentPart c then Some ([], LxWord start (snoc acc c))
      else match startToken c pos with
           | Some (ts, st') => Some ((TIdent acc, start, pos) :: ts, st')
           | None => None
           end
  | LxDigits start acc =>
      if isDigit c then Some ([], LxDigits start (acc * 10 + digitValue c)%Z)
      else if Ascii.eqb c "n" then Some ([(TBig acc, start, S pos)], LxIdle)
      else match startToken c pos with
           | Some (ts, st') => Some ((TNum acc, start, pos) :: ts, st')
           | None => None
           end
  | LxString quote start acc =>
      if Ascii.eqb c quote then Some ([(TStr acc, start, S pos)], LxIdle)
      else if Ascii.eqb c backslash then Some ([], LxEscape quote start acc)
      else if (nat_of_ascii c =? 10)%nat || (nat_of_ascii c =? 13)%nat then None
      else Some ([], LxString quote start (snoc acc c))
  | LxEscape quote start acc =>
      match unescape c with
      | Some c' => Some ([], LxString quote start (snoc acc c'))
      | None => None
      end
  end.

(** The end of the text. *)
Definition lexEnd (st : lexState) (pos : nat) : option (list ptoken) :=
  match st with
  | LxIdle => Some []
  | LxWord start acc => Some [(TIdent acc, start, pos)]
  | LxDigits start acc => Some [(TNum acc, start, pos)]
  | LxString _ _ _ | LxEscape _ _ _ => None
  end.

Fixpoint lex (st : lexState) (pos : nat) (s : string) : option (list ptoken) :=
  match s with
  | EmptyString => lexEnd st pos
  | String c rest =>
      match lexStep st pos c with
      | Some (ts, st') =>
          match lex st' (S pos) rest with
          | Some r => Some (ts ++ r)%list
          | None => None
          end
      | None => None
      end
  end.

(** The lexer on the first part of a text: the tokens completed in it, and
    the state and offset at its end. *)
Fixpoint lexRun (st : lexState) (pos : nat) (s : string)
  : option (list ptoken * lexState * nat) :=
  match s with
  | EmptyString => Some ([], st, pos)
  | String c rest =>
      match lexStep st pos c with
      | Some (ts, st') =>
          match lexRun st' (S pos) rest with
          | Some (r, st'', pos') => Some ((ts ++ r)%list, st'', pos')
          | None => None
          end
      | None => None
      end
  end.

Definition tokenize (s : string) : option (list ptoken) := lex LxIdle 0 s.

(** *** Syntax *)

Inductive expr : Type :=
| ELit (v : jsval)
| EIdent (name : string)
| EObject (props : list (string * expr))
| EArray (elems : list expr)
| EMember (object : expr) (property : string)
| ECall (callee : expr) (args : list expr)
| EAssign (target : expr) (value : expr)
| ESeq (first second : expr)
| EDelete (argument : expr)
| EAdd (left right : expr).

Inductive stmt : Type :=
| SExpr (e : expr)
| SVar (declarations : list (string * option expr))
| SEmpty.

Definition reserved : list string :=
  ["var"; "let"; "const"; "delete"; "true"; "false"; "null"; "function";
   "return"; "if"; "else"; "for"; "while"; "do"; "new"; "typeof"; "void";
   "in"; "of"; "this"; "try"; "catch"; "throw"; "await"; "async"; "class"].

Definition isP (c : ascii) (ts : list ptoken) : option (list ptoken) :=
  match ts with
  | (TPunct c', _, _) :: r => if Ascii.eqb c c' then Some r else None
  | _ => None
  end.

Definition isKeyword (k : string) (ts : list ptoken) : option (list ptoken) :=
  match ts with
  | (TIdent s, _, _) :: r => if String.eqb k s then Some r else None
  | _ => None
  end.

Notation "' p <- e ;; k" :=
  (match e with Some p => k | None => None end)
    (at level 60, p pattern, e at next level, right associativity).

Definition assignable (e : expr) : bool :=
  match e with
  | EIdent _ | EMember _ _ => true
  | _ => false
  end.

(** Recursive descent; [fuel] bounds the depth of the calls. *)
Fixpoint parseExpr (fuel : nat) (ts : list ptoken) {struct fuel}
  : option (expr * list ptoken) :=
  match fuel with
  | O => None
  | S f =>
      '(a, r) <- parseAssign f ts ;;
      match isP "," r with
      | Some r' => '(b, r2) <- parseExpr f r' ;; Some (ESeq a b, r2)
      | None => Some (a, r)
      end
  end
with parseAssign (fuel : nat) (ts : list ptoken) {struct fuel}
  : option (expr * list ptoken) :=
  match fuel with
  | O => None
  | S f =>
      '(a, r) <- parseAdd f ts ;;
      match isP "=" r with
      | Some r' =>
          if assignable a
          then '(b, r2) <- parseAssign f r' ;; Some (EAssign a b, r2)
          else None
      | None => Some (a, r)
      end
  end
with parseAdd (fuel : nat) (ts : list ptoken) {struct fuel}
  : option (expr * list ptoken) :=
  match fuel with
  | O => None
  | S f => '(a, r) <- parseUnary f ts ;; parseAddRest f a r
  end
with parseAddRest (fuel : nat) (a : expr) (ts : list ptoken) {struct fuel}
  : option (expr * list ptoken) :=
  match fuel with
  | O => None
  | S f =>
      match isP "+" ts with
      | Some r => '(b, r2) <- parseUnary f r ;; parseAddRest f (EAdd a b) r2
      | None => Some (a, ts)
      end
  end
with parseUnary (fuel : nat) (ts : list ptoken) {struct fuel}
  : option (expr * list ptoken) :=
  match fuel with
  | O => None
  | S f =>
      match isKeyword "delete" ts with
      | Some r => '(e, r2) <- parseUnary f r ;; Some (EDelete e, r2)
      | None => '(p, r) <- parsePrimary f ts ;; parsePostfix f p r
      end
  end
with parsePostfix (fuel : nat) (e : expr) (ts : list ptoken) {struct fuel}
  : option (expr * list ptoken) :=
  match fuel with
  | O => None
  | S f =>
      match ts with
      | (TPunct c, _, _) :: r =>
          if Ascii.eqb c "." then
            match r with
            | (TIdent name, _, _) :: r2 => parsePostfix f (EMember e name) r2
            | _ => None
            end
          else if Ascii.eqb c "(" then
            '(args, r2) <- parseList f ")" r ;; parsePostfix f (ECall e args) r2
          else Some (e, ts)
      | _ => Some (e, ts)
      end
  end
with parseList (fuel : nat) (close : ascii) (ts : list ptoken) {struct fuel}
  : option (list expr * list ptoken) :=
  match fuel with
  | O => None
  | S f =>
      match isP close ts with
      | Some r => Some ([], r)
      | None =>
          '(a, r) <- parseAssign f ts ;;
          match isP "," r with
          | Some r' => '(l, r2) <- parseList f close r' ;; Some (a :: l, r2)
          | None => '(r') <- isP close r ;; Some ([a], r')
          end
      end
  end
with parseProps (fuel : nat) (ts : list ptoken) {struct fuel}
  : option (list (string * expr) * list ptoken) :=
  match fuel with
  | O => None
  | S f =>
      match isP "}" ts with
      | Some r => Some ([], r)
      | None =>
          '(key, r0) <- match ts with
                        | (TIdent k, _, _) :: r => Some (k, r)
                        | (TStr k, _, _) :: r => Some (k, r)
                        | (TNum n, _, _) :: r => Some (showZ n, r)
                        | _ => None
                        end ;;
          '(r1) <- isP ":" r0 ;;
          '(a, r) <- parseAssign f r1 ;;
          match isP "," r with
          | Some r' => '(l, r2) <- parseProps f r' ;; Some ((key, a) :: l, r2)
          | None => '(r') <- isP "}" r ;; Some ([(key, a)], r')
          end
      end
  end
with parsePrimary (fuel : nat) (ts : list ptoken) {struct fuel}
  : option (expr * list ptoken) :=
  match fuel with
  | O => None
  | S f =>
      match ts with
      | (TNum n, _, _) :: r => Some (ELit (VNum n), r)
      | (TBig n, _, _) :: r => Some (ELit (VBigInt n), r)
      | (TStr s, _, _) :: r => Some (ELit (VStr s), r)
      | (TIdent s, _, _) :: r =>
          if String.eqb s "true" then Some (ELit (VBool true), r)
          else if String.eqb s "false" then Some (ELit (VBool false), r)
          else if String.eqb s "null" then Some (ELit VNull, r)
          else if includes reserved s then None
          else Some (EIdent s, r)
      | (TPunct c, _, _) :: r =>
          if Ascii.eqb c "(" then
            '(e, r2) <- parseExpr f r ;; '(r3) <- isP ")" r2 ;; Some (e, r3)
          else if Ascii.eqb c "{" then
            '(ps, r2) <- parseProps f r ;; Some (EObject ps, r2)
          else if Ascii.eqb c "[" then
            '(es, r2) <- parseList f "]" r ;; Some (EArray es, r2)
          else None
      | [] => None
      end
  end.

Fixpoint parseDeclarators (fuel : nat) (ts : list ptoken) {struct fuel}
  : option (list (string * option expr) * list ptoken) :=
  match fuel with
  | O => None
  | S f =>
      match ts with
      | (TIdent name, _, _) :: r =>
          if includes reserved name then None
          else
            '(init, r1) <- match isP "=" r with
                           | Some r' => '(e, r2) <- parseAssign f r' ;; Some (Some e, r2)
                           | None => Some (None, r)
                           end ;;
            match isP "," r1 with
            | Some r' => '(l, r2) <- parseDeclarators f r' ;; Some ((name, init) :: l, r2)
            | None => Some ([(name, init)], r1)
            end
      | _ => None
      end
  end.

Definition isDeclarationKeyword (s : string) : bool :=
  String.eqb s "var" || String.eqb s "let" || String.eqb s "const".

(** One statement without its terminator.  An expression statement does
    not start with a brace. *)
Definition parseStatement (fuel : nat) (ts : list ptoken)
  : option (stmt * list ptoken) :=
  match ts with
  | (TIdent s, _, _) :: r =>
      if isDeclarationKeyword s
      then '(ds, r2) <- parseDeclarators fuel r ;; Some (SVar ds, r2)
      else '(e, r2) <- parseExpr fuel ts ;; Some (SExpr e, r2)
  | (TPunct c, _, _) :: _ =>
      if Ascii.eqb c "{" then None
      else '(e, r2) <- parseExpr fuel ts ;; Some (SExpr e, r2)
  | _ => '(e, r2) <- parseExpr fuel ts ;; Some (SExpr e, r2)
  end.

Definition tokenEnd (t : ptoken) : nat := snd t.
Definition tokenStart (t : ptoken) : nat := snd (fst t).

(** The statements of a program with their spans.  A statement ends with
    its semicolon, or at its last token when the text ends there. *)
Fixpoint parseProgram (fuel : nat) (ts : list ptoken) {struct fuel}
  : option (list (nat * nat * stmt)) :=
  match fuel with
  | O => None
  | S f =>
      match ts with
      | [] => Some []
      | first :: _ =>
          match isP ";" ts with
          | Some r =>
              '(l) <- parseProgram f r ;;
              Some ((tokenStart first, tokenEnd first, SEmpty) :: l)
          | None =>
              '(s, r) <- parseStatement fuel ts ;;
              match r with
              | [] =>
                  Some [(tokenStart first,
                         tokenEnd (last ts first), s)]
              | semi :: r' =>
                  '(_) <- isP ";" r ;;
                  '(l) <- parseProgram f r' ;;
                  Some ((tokenStart first, tokenEnd semi, s) :: l)
              end
          end
      end
  end.

Definition parse (code : string) : option (list (nat * nat * stmt)) :=
  '(ts) <- tokenize code ;;
  parseProgram (8 * length ts + 8) ts.

(** *** Evaluation *)

Definition ctx : Type := list (string * jsval).

Fixpoint setProp (k : string) (v : jsval) (ps : list (string * jsval))
  : list (string * jsval) :=
  match ps with
  | [] => [(k, v)]
  | (k', v') :: r =>
      if String.eqb k k' then (k, v) :: r else (k', v') :: setProp k v r
  end.

Definition deleteProp (k : string) (ps : list (string * jsval))
  : list (string * jsval) :=
  filter (fun p => negb (String.eqb k (fst p))) ps.

(** [Object.assign(target, source)] on property lists. *)
Definition assignProps (target source : list (string * jsval))
  : list (string * jsval) :=
  fold_left (fun t p => setProp (fst p) (snd p) t) source target.

Definition native (name : string) : jsval :=
  VFunction ("function " ++ name ++ "() {" ++ newline ++ "    [native code]"
             ++ newline ++ "}").

Definition exception (name message : string) : jsval :=
  VObj [("name", VStr name); ("message", VStr message)].

Definition unsupported : jsval := exception "InternalError" "outside the fragment".

(** The global object of a context after [initialize]. *)
Definition fresh : ctx :=
  [("Object", native "Object"); ("Function", native "Function");
   ("Array", native "Array"); ("Number", native "Number");
   ("parseInt", native "parseInt"); ("Boolean", native "Boolean");
   ("String", native "String"); ("Symbol", native "Symbol");
   ("Math", VObj []);
   ("JSON", VObj [("parse", native "parse"); ("stringify", native "stringify")]);
   ("Reflect", VObj []); ("Date", native "Date");
   ("Promise", native "Promise"); ("undefined", VUndefined);
   ("console", VObj [("log", native "log")]); ("fetch", native "fetch")].

Inductive result (A : Type) : Type :=
| Ok (a : A)
| Err (e : jsval).
Arguments Ok {A}.
Arguments Err {A}.

Definition toResult (r : EvalResult) : result jsval :=
  match r with
  | EvalValue v => Ok v
  | EvalError e => Err e
  end.

Definition isGlobalThis (e : expr) : bool :=
  match e with
  | EIdent n => String.eqb n "globalThis"
  | _ => false
  end.

Definition isObjectAssign (e : expr) (c : ctx) : bool :=
  match e with
  | EMember (EIdent o) p =>
      String.eqb o "Object" && String.eqb p "assign"
      && match lookupProp "Object" c with
         | Some (VFunction f) =>
             match native "Object" with
             | VFunction g => String.eqb f g
             | _ => false
             end
         | _ => false
         end
  | _ => false
  end.

Definition readProperty (v : jsval) (p : string) : result jsval :=
  match v with
  | VUndefined | VNull =>
      Err (exception "TypeError" ("cannot read property '" ++ p ++ "'"))
  | VObj ps => Ok (match lookupProp p ps with
                   | Some x => x
                   | None => VUndefined
                   end)
  | VStr s => if String.eqb p "length"
              then Ok (VNum (Z.of_nat (String.length s)))
              else Ok VUndefined
  | VArr l => if String.eqb p "length"
              then Ok (VNum (Z.of_nat (List.length l)))
              else Ok VUndefined
  | VFunction _ => Err unsupported
  | _ => Ok VUndefined
  end.

Definition add (a b : jsval) : result jsval :=
  match a, b with
  | VNum x, VNum y => Ok (VNum (x + y))
  | VStr x, _ => Ok (VStr (x ++ ToString b))
  | _, VStr y => Ok (VStr (ToString a ++ y))
  | _, _ => Err unsupported
  end.

Definition sameFunction (f : jsval) (name : string) : bool :=
  match f, native name with
  | VFunction a, VFunction b => String.eqb a b
  | _, _ => false
  end.

(** [JSON.stringify(v)] as a call: a text, [undefined], or a TypeError. *)
Definition stringify (args : list jsval) : result jsval :=
  match args with
  | [] => Ok VUndefined
  | v :: _ =>
      match JSON_stringify v with
      | JsonText t => Ok (VStr t)
      | JsonUndefined => Ok VUndefined
      | JsonThrows => Err (exception "TypeError" "cannot serialize")
      end
  end.

Definition callFunction (fetch : HostFunction ctx) (f : jsval) (args : list jsval)
    (c : ctx) (h : HostState) : result jsval * ctx * HostState :=
  if sameFunction f "fetch" then
    let '(r, c', h') := fetch args c h in (toResult r, c', h')
  else if sameFunction f "log" then (Ok VUndefined, c, h)
  else if sameFunction f "stringify" then (stringify args, c, h)
  else match f with
       | VFunction _ => (Err unsupported, c, h)
       | _ => (Err (exception "TypeError" "not a function"), c, h)
       end.

Fixpoint evalExpr (fetch : HostFunction ctx) (e : expr) (c : ctx) (h : HostState)
    {struct e} : result jsval * ctx * HostState :=
  match e with
  | ELit v => (Ok v, c, h)
  | EIdent n =>
      if String.eqb n "globalThis" then (Err unsupported, c, h)
      else match lookupProp n c with
           | Some v => (Ok v, c, h)
           | None =>
               (Err (exception "ReferenceError" ("'" ++ n ++ "' is not defined")),
                c, h)
           end
  | EObject ps =>
      (fix evalProps (ps : list (string * expr)) (acc : list (string * jsval))
           (c : ctx) (h : HostState) : result jsval * ctx * HostState :=
         match ps with
         | [] => (Ok (VObj acc), c, h)
         | p :: r =>
             match evalExpr fetch (snd p) c h with
             | (Ok v, c1, h1) => evalProps r (setProp (fst p) v acc) c1 h1
             | (Err x, c1, h1) => (Err x, c1, h1)
             end
         end) ps [] c h
  | EArray es =>
      match (fix evalList (es : list expr) (c : ctx) (h : HostState)
               : result (list jsval) * ctx * HostState :=
               match es with
               | [] => (Ok [], c, h)
               | x :: r =>
                   match evalExpr fetch x c h with
                   | (Ok v, c1, h1) =>
                       match evalList r c1 h1 with
                       | (Ok vs, c2, h2) => (Ok (v :: vs), c2, h2)
                       | (Err y, c2, h2) => (Err y, c2, h2)
                       end
                   | (Err y, c1, h1) => (Err y, c1, h1)
                   end
               end) es c h with
      | (Ok vs, c1, h1) => (Ok (VArr vs), c1, h1)
      | (Err y, c1, h1) => (Err y, c1, h1)
      end
  | EMember o p =>
      if isGlobalThis o
      then (Ok (match lookupProp p c with
                | Some v => v
                | None => VUndefined
                end), c, h)
      else match evalExpr fetch o c h with
           | (Ok v, c1, h1) => (readProperty v p, c1, h1)
           | (Err y, c1, h1) => (Err y, c1, h1)
           end
  | ECall f args =>
      if isObjectAssign f c then
        match args with
        | [target; source] =>
            if isGlobalThis target then
              match evalExpr fetch source c h with
              | (Ok (VObj ps), c1, h1) =>
                  let c2 := assignProps c1 ps in (Ok (VObj c2), c2, h1)
              | (Ok _, c1, h1) => (Err unsupported, c1, h1)
              | (Err y, c1, h1) => (Err y, c1, h1)
              end
            else (Err unsupported, c, h)
        | _ => (Err unsupported, c, h)
        end
      else
        match evalExpr fetch f c h with
        | (Ok fv, c1, h1) =>
            match (fix evalList (es : list expr) (c : ctx) (h : HostState)
                     : result (list jsval) * ctx * HostState :=
                     match es with
                     | [] => (Ok [], c, h)
                     | x :: r =>
                         match evalExpr fetch x c h with
                         | (Ok v, c1, h1) =>
                             match evalList r c1 h1 with
                             | (Ok vs, c2, h2) => (Ok (v :: vs), c2, h2)
                             | (Err y, c2, h2) => (Err y, c2, h2)
                             end
                         | (Err y, c1, h1) => (Err y, c1, h1)
                         end
                     end) args c1 h1 with
            | (Ok vs, c2, h2) => callFunction fetch fv vs c2 h2
            | (Err y, c2, h2) => (Err y, c2, h2)
            end
        | (Err y, c1, h1) => (Err y, c1, h1)
        end
  | EAssign target rhs =>
      match (match target with
             | EIdent n => if String.eqb n "globalThis" then None else Some n
             | EMember o p => if isGlobalThis o then Some p else None
             | _ => None
             end) with
      | Some n =>
          match evalExpr fetch rhs c h with
          | (Ok v, c1, h1) => (Ok v, setProp n v c1, h1)
          | (Err y, c1, h1) => (Err y, c1, h1)
          end
      | None => (Err unsupported, c, h)
      end
  | ESeq a b =>
      match evalExpr fetch a c h with
      | (Ok _, c1, h1) => evalExpr fetch b c1 h1
      | (Err y, c1, h1) => (Err y, c1, h1)
      end
  | EDelete a =>
      match a with
      | EMember o p =>
          if isGlobalThis o then (Ok (VBool true), deleteProp p c, h)
          else (Err unsupported, c, h)
      | _ => (Err unsupported, c, h)
      end
  | EAdd a b =>
      match evalExpr fetch a c h with
      | (Ok x, c1, h1) =>
          match evalExpr fetch b c1 h1 with
          | (Ok y, c2, h2) => (add x y, c2, h2)
          | (Err y, c2, h2) => (Err y, c2, h2)
          end
      | (Err y, c1, h1) => (Err y, c1, h1)
      end
  end.

Fixpoint evalDeclarations (fetch : HostFunction ctx)
    (ds : list (string * option expr)) (c : ctx) (h : HostState)
  : result unit * ctx * HostState :=
  match ds with
  | [] => (Ok tt, c, h)
  | (name, Some init) :: r =>
      match evalExpr fetch init c h with
      | (Ok v, c1, h1) => evalDeclarations fetch r (setProp name v c1) h1
      | (Err y, c1, h1) => (Err y, c1, h1)
      end
  | (name, None) :: r =>
      evalDeclarations fetch r
        (match lookupProp name c with
         | Some _ => c
         | None => setProp name VUndefined c
         end) h
  end.

(** The statements in order; the value of the program is the value of its
    last expression statement. *)
Fixpoint evalProgram (fetch : HostFunction ctx) (prog : list (nat * nat * stmt))
    (completion : jsval) (c : ctx) (h : HostState)
  : EvalResult * ctx * HostState :=
  match prog with
  | [] => (EvalValue completion, c, h)
  | (_, _, SExpr e) :: r =>
      match evalExpr fetch e c h with
      | (Ok v, c1, h1) => evalProgram fetch r v c1 h1
      | (Err y, c1, h1) => (EvalError y, c1, h1)
      end
  | (_, _, SVar ds) :: r =>
      match evalDeclarations fetch ds c h with
      | (Ok _, c1, h1) => evalProgram fetch r completion c1 h1
      | (Err y, c1, h1) => (EvalError y, c1, h1)
      end
  | (_, _, SEmpty) :: r => evalProgram fetch r completion c h
  end.

(** *** The capture program

    The program of [getCurrentState] is an arrow function with a loop, a
    [try] and calls of intrinsics: it lies outside the grammar above.  The
    engine recognises its text and runs the translation below, step by step
    as the program is written. *)

(** The global [Object] is the intrinsic. *)
Definition objectIntact (c : ctx) : bool :=
  match lookupProp "Object" c with
  | Some f => sameFunction f "Object"
  | None => false
  end.

(** [Object.getOwnPropertyNames(globalThis)]: the names of the global
    object when [Object] is the intrinsic; otherwise the error that the
    call raises.  An object of the script with a function of that name in
    the place of [Object] is outside the fragment. *)
Definition ownPropertyNames (c : ctx) : result (list string) :=
  if objectIntact c then Ok (map fst c)
  else match lookupProp "Object" c with
       | None => Err (exception "ReferenceError" "'Object' is not defined")
       | Some VUndefined | Some VNull =>
           Err (exception "TypeError" "cannot read property 'getOwnPropertyNames'")
       | Some (VObj ps) =>
           match lookupProp "getOwnPropertyNames" ps with
           | Some (VFunction _) => Err unsupported
           | _ => Err (exception "TypeError" "not a function")
           end
       | Some _ => Err (exception "TypeError" "not a function")
       end.

(** The call [JSON.stringify(val)] inside the [try], with whatever the
    global [JSON] holds at that moment. *)
Definition stringifyCall (fetch : HostFunction ctx) (val : jsval) (c : ctx)
    (h : HostState) : result jsval * ctx * HostState :=
  evalExpr fetch (ECall (EMember (EIdent "JSON") "stringify") [ELit val]) c h.

(** The loop [for (const key of ...)]: a key that passes the two tests of
    the [if] is read, and stored into [globals] unless the call in the
    [try] raises an error, which the [catch] swallows. *)
Fixpoint captureLoop (fetch : HostFunction ctx) (keys : list string)
    (globals : list (string * jsval)) (c : ctx) (h : HostState)
  : list (string * jsval) * ctx * HostState :=
  match keys with
  | [] => (globals, c, h)
  | key :: rest =>
      if negb (startsWith "_" key) && negb (includes intrinsicNames key)
      then
        let val := match lookupProp key c with
                   | Some v => v
                   | None => VUndefined
                   end in
        match stringifyCall fetch val c h with
        | (Ok _, c1, h1) => captureLoop fetch rest (setProp key val globals) c1 h1
        | (Err _, c1, h1) => captureLoop fetch rest globals c1 h1
        end
      else captureLoop fetch rest globals c h
  end.

(** The global [JSON] is an object whose [stringify] is the intrinsic. *)
Definition stringifyIntact (c : ctx) : bool :=
  match lookupProp "JSON" c with
  | Some (VObj ps) =>
      match lookupProp "stringify" ps with
      | Some f => sameFunction f "stringify"
      | None => false
      end
  | _ => false
  end.

(** The global [JSON] is an object whose [stringify] is a function: the
    call [JSON.stringify(val)] has something to call. *)
Definition stringifyCallable (c : ctx) : bool :=
  match lookupProp "JSON" c with
  | Some (VObj ps) =>
      match lookupProp "stringify" ps with
      | Some (VFunction _) => true
      | _ => false
      end
  | _ => false
  end.

Definition evalCapture (fetch : HostFunction ctx) (c : ctx) (h : HostState)
  : EvalResult * ctx * HostState :=
  match ownPropertyNames c with
  | Err e => (EvalError e, c, h)
  | Ok keys =>
      let '(globals, c1, h1) := captureLoop fetch keys [] c h in
      (EvalValue (VObj globals), c1, h1)
  end.

Definition evalCode (fetch : HostFunction ctx) (code : string) (c : ctx)
    (h : HostState) : EvalResult * ctx * HostState :=
  if String.eqb code captureCode then evalCapture fetch c h
  else
    match parse code with
    | Some prog => evalProgram fetch prog VUndefined c h
    | None => (EvalError (exception "SyntaxError" "unexpected token"), c, h)
    end.

Definition toNode (s : nat * nat * stmt) : Node :=
  match s with
  | (start, stop, SVar ds) =>
      mkNode start stop (VariableDeclaration (map (fun d => DeclIdentifier (fst d)) ds))
  | (start, stop, _) => mkNode start stop OtherNode
  end.

Definition acornParse (code : string) : option (list Node) :=
  match parse code with
  | Some prog => Some (map toNode prog)
  | None => None
  end.

Definition engine : Engine :=
  mkEngine ctx fresh evalCode acornParse 8.

End MiniJS.

(** ** Texts with holes

    The library builds the code that it evaluates out of fixed text and of
    strings that it does not know in advance (a request id carries a clock
    reading).  A text is given here as a list of segments, the holes being
    the unknown strings; when a hole sits inside a double-quoted literal and
    is plain (no control character, double quote or backslash), the lexer
    takes it over as it is, whatever it holds. *)

Definition plainChar (c : ascii) : bool :=
  let n := nat_of_ascii c in
  ((32 <=? n) && negb (n =? 34) && negb (n =? 92))%nat.

Fixpoint plain (s : string) : bool :=
  match s with
  | EmptyString => true
  | String c s' => plainChar c && plain s'
  end.

Inductive segment : Type :=
| Lit (s : string)
| Hole (s : string).

Fixpoint flatten (l : list segment) : string :=
  match l with
  | [] => EmptyString
  | Lit s :: r => s ++ flatten r
  | Hole s :: r => s ++ flatten r
  end.

Fixpoint holesPlain (l : list segment) : Prop :=
  match l with
  | [] => True
  | Lit _ :: r => holesPlain r
  | Hole s :: r => plain s = true /\ holesPlain r
  end.

(** The lexer on a text with holes: a hole is accepted only inside a
    double-quoted literal and is appended to it unread. *)
Fixpoint lexSegments (st : MiniJS.lexState) (pos : nat) (l : list segment)
  : option (list MiniJS.ptoken) :=
  match l with
  | [] => MiniJS.lexEnd st pos
  | Lit s :: r =>
      match MiniJS.lexRun st pos s with
      | Some (ts, st', pos') =>
          match lexSegments st' pos' r with
          | Some ts' => Some (ts ++ ts')%list
          | None => None
          end
      | None => None
      end
  | Hole s :: r =>
      match st with
      | MiniJS.LxString q start acc =>
          if Ascii.eqb q (ascii_of_nat 34)
          then lexSegments (MiniJS.LxString q start (acc ++ s))
                           (pos + String.length s) r
          else None
      | _ => None
      end
  end.

(** The descriptor that the store code of the interceptor writes. *)
Definition slotOf (rid url : string) : jsval :=
  VObj [("id", VStr rid); ("url", VStr url); ("options", VObj [])].

(** [storeCode rid url "{}"] as a text with holes. *)
Definition storeSegments (rid url : string) : list segment :=
  [Lit (newline ++ "        globalThis.__fetchPause = {"
        ++ newline ++ "          id: " ++ dquote);
   Hole rid;
   Lit (dquote ++ "," ++ newline ++ "          url: " ++ dquote);
   Hole url;
   Lit (dquote ++ "," ++ newline ++ "          options: " ++ "{}"
        ++ newline ++ "        };" ++ newline ++ "      ")].

(** A machine of the concrete engine. *)
Definition miniVM (c : MiniJS.ctx) (h : HostState) (a : string) (s : list string)
    (i : nat) : SequentialFetchVM MiniJS.engine :=
  @mkVM MiniJS.engine c h a s i.

(** ** Runs *)

Section Runs.
Variable E : Engine.
Variable now : nat -> Z.

Local Abbreviation VM := (SequentialFetchVM E).

(** [stepsOver m m'] : the driver, started in [m], evaluates the statements
    from the cursor of [m] up to the cursor of [m'] one after the other,
    none of them fails and none of them shows a pause marker. *)
Inductive stepsOver : VM -> VM -> Prop :=
| stepsOver_refl : forall m, stepsOver m m
| stepsOver_step : forall m original v m1 m2 m',
    nth_error (statements m) (currentStatementIndex m) = Some original ->
    vmEval E now (transformStatement E original) m = (EvalValue v, m1) ->
    findPauseMarker E now (dump v) (transformStatement E original) m1 = (None, m2) ->
    stepsOver (advance E m2) m' ->
    stepsOver m m'.

(** [pausesAt m original marker m2] : in [m] the statement [original] is
    under the cursor, its evaluation succeeds and the pause detection finds
    [marker], leaving the machine in [m2]. *)
Definition pausesAt (m : VM) (original marker : string) (m2 : VM) : Prop :=
  nth_error (statements m) (currentStatementIndex m) = Some original /\
  exists v m1,
    vmEval E now (transformStatement E original) m = (EvalValue v, m1) /\
    findPauseMarker E now (dump v) (transformStatement E original) m1
    = (Some marker, m2).

(** [failsAt m e m1] : in [m] the interpreter reports the error [e] for the
    statement under the cursor. *)
Definition failsAt (m : VM) (e : jsval) (m1 : VM) : Prop :=
  exists original,
    nth_error (statements m) (currentStatementIndex m) = Some original /\
    vmEval E now (transformStatement E original) m = (EvalError e, m1).

(** [sameScript m m'] : [m'] has the text, the statements and the cursor
    of [m]. *)
Definition sameScript (m m' : VM) : Prop :=
  allCode m' = allCode m /\ statements m' = statements m /\
  currentStatementIndex m' = currentStatementIndex m.

(** The machine that [execute] hands to [executeNextStatement]. *)
Definition submitted (code : string) (m : VM) : VM :=
  mkVM (vm m) (host m) (allCode m ++ newline ++ code)
       (parseCodeIntoStatements E code) 0.

(** The two calls of the interface. *)
Inductive Call : Type :=
| CallExecute (code : string)
| CallResume (state : VMState.t) (fetchResponse : FetchResponse.t).

Definition perform (call : Call) (m : VM) : Outcome * VM :=
  match call with
  | CallExecute code => execute E now code m
  | CallResume state fetchResponse => resume E now state fetchResponse m
  end.

(** The machine in which the driver loop of a call starts: the submitted
    script for [execute], the machine after the replay for [resume]. *)
Definition driverStart (call : Call) (m start : VM) : Prop :=
  match call with
  | CallExecute code => start = submitted code m
  | CallResume state fetchResponse =>
      exists value, replayStatement E now state fetchResponse m = (inr value, start)
  end.

(** [reportsError call m e m'] : during [call] the interpreter reports the
    script error [e], either for a statement that the driver runs or for
    the statement that [resume] replays. *)
Inductive reportsError : Call -> VM -> jsval -> VM -> Prop :=
| error_in_execute : forall code m m0 e m1,
    stepsOver (submitted code m) m0 ->
    failsAt m0 e m1 ->
    reportsError (CallExecute code) m e m1
| error_in_replay : forall state fetchResponse m m0 dataText ignored m1
                           currentStatement e m2,
    restoreState E now state m = (None, m0) ->
    stringifiedText (JSON_stringify (FetchResponse.data fetchResponse))
    = Some dataText ->
    vmEval E now (injectCode dataText) m0 = (EvalValue ignored, m1) ->
    nth_error (statements m1) (currentStatementIndex m1) = Some currentStatement ->
    vmEval E now (transformForResume E currentStatement) m1 = (EvalError e, m2) ->
    reportsError (CallResume state fetchResponse) m e m2
| error_after_replay : forall state fetchResponse m value m4 m0 e m1,
    replayStatement E now state fetchResponse m = (inr value, m4) ->
    stepsOver m4 m0 ->
    failsAt m0 e m1 ->
    reportsError (CallResume state fetchResponse) m e m1.

(** A session with new interpreters: [executeCode], then one
    [resumeExecution] for each response as long as the run is paused.  The
    result is the list of the URLs of the fetch requests. *)
Fixpoint requestUrlsFrom (responses : list FetchResponse.t) (o : Outcome)
    (reads : nat) : list jsval :=
  match o with
  | Returned (Paused state fetchRequest) =>
      FetchRequest.url fetchRequest ::
      match responses with
      | [] => []
      | r :: rest =>
          let '(o', reads') := resumeExecution E now state r reads in
          requestUrlsFrom rest o' reads'
      end
  | _ => []
  end.

Definition requestUrls (source : string) (responses : list FetchResponse.t)
  : list jsval :=
  let '(o, reads) := executeCode E now source 0 in
  requestUrlsFrom responses o reads.
End Runs.
Arguments sameScript {E} m m'.

(** ** The scenarios of the specification, on the concrete engine *)
Module Scenarios.

(** A host clock: the readings of [Date.now()] in milliseconds. *)
Definition clock (k : nat) : Z := 1700000000000 + Z.of_nat k.

(** A second host clock, for a run at another time. *)
Definition laterClock (k : nat) : Z := 1800000000000 + Z.of_nat k.

Definition quoted (s : string) : string := dquote ++ s ++ dquote.

(** [x = 1; y = fetch("https://x/1"); y;] *)
Definition sourceA : string :=
  "x = 1; y = fetch(" ++ quoted "https://x/1" ++ "); y;".

(** A response [{ success: true, data, ... }]. *)
Definition okResponse (id statusText : string) (status timestamp : Z)
    (error : option string) (data : jsval) : FetchResponse.t :=
  FetchResponse.mk id true status statusText data error timestamp.

Definition machine0 : SequentialFetchVM MiniJS.engine :=
  initialize MiniJS.engine 0.

(** [var a = fetch("https://x/1"), b = 2;] *)
Definition sourceTwoDeclarators : string :=
  "var a = fetch(" ++ quoted "https://x/1" ++ "), b = 2;".

(** [y = fetch(fetch("a"));] *)
Definition sourceNested : string :=
  "y = fetch(fetch(" ++ quoted "a" ++ "));".

(** A URL with a double quote in it: b, double quote, c. *)
Definition quoteUrl : string := "b" ++ dquote ++ "c".

(** [y = (fetch("https://a"), fetch(U));] with this URL for [U], in
    single quotes. *)
Definition sourceQuoteUrl : string :=
  "y = (fetch(" ++ quoted "https://a" ++ "), fetch('" ++ quoteUrl ++ "'));".

(** A text that is not a program. *)
Definition sourceInvalid : string := "x = = 1".

(** A script whose second statement raises a ReferenceError. *)
Definition sourceFailing : string := "x = 1; missing; y = 2;".

(** A script that overwrites the global [Object] before its fetch call,
    and what its run leaves behind. *)
Definition sourceObjectOverwritten : string :=
  "Object = 1; x = 5; y = fetch(" ++ quoted "https://x/1" ++ ");".

Definition outcomeO : Outcome :=
  Eval vm_compute in fst (execute MiniJS.engine clock sourceObjectOverwritten machine0).

Definition machineO : SequentialFetchVM MiniJS.engine :=
  snd (execute MiniJS.engine clock sourceObjectOverwritten machine0).

(** A script that deletes the global [Reflect] before its fetch call. *)
Definition sourceReflectDeleted : string :=
  "delete globalThis.Reflect; y = fetch(" ++ quoted "https://x/1" ++ ");".

Definition outcomeR : Outcome :=
  Eval vm_compute in fst (execute MiniJS.engine clock sourceReflectDeleted machine0).

(** The machines that the driver goes through on [sourceFailing]: as
    submitted, after the first statement, after the failing second one. *)
Definition machineF0 : SequentialFetchVM MiniJS.engine :=
  submitted MiniJS.engine sourceFailing machine0.

Definition machineF1 : SequentialFetchVM MiniJS.engine :=
  advance MiniJS.engine
    (snd (findPauseMarker MiniJS.engine clock (dump (VNum 1))
            (transformStatement MiniJS.engine "x = 1;")
            (snd (vmEval MiniJS.engine clock
                    (transformStatement MiniJS.engine "x = 1;") machineF0)))).

Definition machineF2 : SequentialFetchVM MiniJS.engine :=
  snd (vmEval MiniJS.engine clock
         (transformStatement MiniJS.engine "missing;") machineF1).

Definition missingError : jsval :=
  MiniJS.exception "ReferenceError" "'missing' is not defined".

(** The machine after [execute] of the first of two submissions. *)
Definition machineAfterFirst : SequentialFetchVM MiniJS.engine :=
  snd (execute MiniJS.engine clock "a = 1;" machine0).

(** The statements of scenario A, and what its run leaves behind: the global
    object after the first statement, the bindings of the snapshot for the
    request id [rid], the global object at the pause. *)
Definition statementA1 : string := "x = 1;".
Definition statementA2 : string := "y = fetch(" ++ quoted "https://x/1" ++ ");".
Definition statementA3 : string := "y;".

Definition contextA1 : MiniJS.ctx := MiniJS.setProp "x" (VNum 1) MiniJS.fresh.

Definition snapshotVars (rid : string) : list (string * jsval) :=
  [("Reflect", VObj []); ("x", VNum 1); ("y", VStr (pauseMarker ++ rid))].

Definition contextA2 (rid : string) : MiniJS.ctx :=
  MiniJS.setProp "y" (VStr (pauseMarker ++ rid))
    (MiniJS.setProp "__fetchPause" (slotOf rid "https://x/1") contextA1).

(** The JSON text of these bindings, and the restore code around it. *)
Definition jsonSegments (rid : string) : list segment :=
  [Lit ("{" ++ quoted "Reflect" ++ ":{}," ++ quoted "x" ++ ":1," ++ quoted "y" ++ ":"
        ++ dquote ++ pauseMarker);
   Hole rid;
   Lit (dquote ++ "}")].

Definition restoreSegments (rid : string) : list segment :=
  [Lit ("Object.assign(globalThis, {" ++ quoted "Reflect" ++ ":{}," ++ quoted "x"
        ++ ":1," ++ quoted "y" ++ ":" ++ dquote ++ pauseMarker);
   Hole rid;
   Lit (dquote ++ "})")].

(** The global object after the replay in [resume], from the global
    object [c] that the snapshot is restored into. *)
Definition contextAfterReplay (rid : string) (c : MiniJS.ctx) : MiniJS.ctx :=
  MiniJS.deleteProp "__fetchPause"
    (MiniJS.deleteProp "__currentFetchData"
       (MiniJS.setProp "y" (VNum 42)
          (MiniJS.setProp "__currentFetchData" (VNum 42)
             (MiniJS.assignProps c (snapshotVars rid))))).

(** The outcome of [execute] on scenario A, and the machine it leaves. *)
Definition outcomeA : Outcome :=
  Eval vm_compute in fst (execute MiniJS.engine clock sourceA machine0).

Definition machineA : SequentialFetchVM MiniJS.engine :=
  snd (execute MiniJS.engine clock sourceA machine0).

Definition snapshotOf (o : Outcome) : VMState.t :=
  match o with
  | Returned (Paused state _) => state
  | _ => VMState.mk EmptyString EmptyString [] 0 0 []
  end.

Definition requestOf (o : Outcome) : FetchRequest.t :=
  match o with
  | Returned (Paused _ fetchRequest) => fetchRequest
  | _ => FetchRequest.mk VUndefined VUndefined VUndefined 0
  end.

End Scenarios.

(** ** Character tests on strings

    The tests in which the properties of the two regular expressions and of
    the request ids are stated. *)

Fixpoint allChars (p : ascii -> bool) (s : string) : bool :=
  match s with
  | EmptyString => true
  | String c s' => p c && allChars p s'
  end.

Definition notCloseParen (c : ascii) : bool := negb (Ascii.eqb c ")").
Definition notOpenParen (c : ascii) : bool := negb (Ascii.eqb c "(").
Definition notUnderscore (c : ascii) : bool := negb (Ascii.eqb c "_").

(** The alternatives of [(const|let|var)]. *)
Definition declarationKeywords : list string := ["const"; "let"; "var"].

(** No position of the text starts with one of the three keywords. *)
Fixpoint noDeclarationKeyword (s : string) : bool :=
  match s with
  | EmptyString => true
  | String _ rest =>
      match declKeyword s with
      | Some _ => false
      | None => noDeclarationKeyword rest
      end
  end.

(** ** The single-evaluation VM ([fetch-vm-lib.ts], class [FetchVM])

    The class that the package exports as [FetchVM] evaluates a submission as
    one text.  Its interceptor and its capture of the globals are those of
    [SequentialFetchVM], word for word; its snapshot has no statement list
    and no cursor. *)
Module FetchVMLib.

(** [{ id, code, variables, timestamp }] *)
Record VMState : Type := mkState {
  id : string;
  code : string;
  variables : list (string * jsval);
  timestamp : Z
}.

Inductive ExecutionResult : Type :=
| Completed (result : jsval)
| Paused (state : VMState) (fetchRequest : FetchRequest.t).

Inductive HostError : Type :=
| EvalFailure (errorMsg : jsval)      (* new Error(String(errorMsg)) *)
| FetchDetailsError                   (* new Error('Failed to get fetch details') *)
| InjectError (error : jsval)         (* new Error(`Failed to inject response: ${error}`) *)
| HostTypeError (what : string).      (* a TypeError of the host language *)

Inductive Outcome : Type :=
| Returned (r : ExecutionResult)
| Thrown (e : HostError).

(** The object [FetchVM]. *)
Record FetchVM (E : Engine) : Type := mkVM {
  vm : Context E;
  host : HostState;
  allCode : string
}.
Arguments mkVM {E}.
Arguments vm {E}.
Arguments host {E}.
Arguments allCode {E}.

(** The object that [resume] serializes into the inject code:
    [{ ok, status, statusText, data }]. *)
Definition responseObject (fetchResponse : FetchResponse.t) : jsval :=
  VObj [("ok", VBool (FetchResponse.success fetchResponse));
        ("status", VNum (FetchResponse.status fetchResponse));
        ("statusText", VStr (FetchResponse.statusText fetchResponse));
        ("data", FetchResponse.data fetchResponse)].

(** The text of [injectCode], with the layout of the template literal. *)
Definition injectCode (responseText : string) : string :=
  newline ++ "      globalThis.__fetchResponse = " ++ responseText ++ ";"
  ++ newline
  ++ newline ++ "      globalThis.__fetchResponse.json = function() {"
  ++ newline ++ "        return Promise.resolve(this.data);"
  ++ newline ++ "      };"
  ++ newline
  ++ newline ++ "      globalThis.__fetchResponse.text = function() {"
  ++ newline ++ "        return Promise.resolve(typeof this.data === 'string' ? this.data : JSON.stringify(this.data));"
  ++ newline ++ "      };"
  ++ newline
  ++ newline ++ "      // Signal that fetch completed"
  ++ newline ++ "      " ++ dquote ++ "fetch_response_injected" ++ dquote
  ++ newline ++ "    ".

Section Library.
Variable E : Engine.
Variable now : nat -> Z.

Definition initialize (reads : nat) : FetchVM E :=
  mkVM (newContext E) (mkHost 0 reads) EmptyString.

(** [this.vm.evalCode(code)], with the interceptor of [setupFetch]. *)
Definition vmEval (code : string) (m : FetchVM E) : EvalResult * FetchVM E :=
  let '(r, c, h) := evalCode E (fetchFunc E now (callDepth E)) code (vm m) (host m) in
  (r, mkVM c h (allCode m)).

Definition getCurrentState (m : FetchVM E) : VMState * FetchVM E :=
  let '(globalsResult, m1) := vmEval captureCode m in
  let variables := match globalsResult with
                   | EvalValue value => dumpProps value
                   | EvalError _ => []
                   end in
  let h := host m1 in
  (mkState ("state_" ++ showZ (now (clockReads h)))
           (allCode m1)
           variables
           (now (S (clockReads h))),
   mkVM (vm m1) (tick (tick h)) (allCode m1)).

(** [restoreState]: the text of the snapshot is evaluated again when it is
    not empty, then the bindings are assigned; an evaluation error is only
    warned about. *)
Definition restoreState (state : VMState) (m : FetchVM E)
  : option HostError * FetchVM E :=
  let m1 := mkVM (vm m) (host m) (code state) in
  let m2 := match code state with
            | EmptyString => m1
            | String _ _ => snd (vmEval (code state) m1)
            end in
  match variables state with
  | [] => (None, m2)
  | _ :: _ =>
      match stringifiedText (JSON_stringify (VObj (variables state))) with
      | None => (Some (HostTypeError "JSON.stringify"), m2)
      | Some text => (None, snd (vmEval (restoreCode text) m2))
      end
  end.

(** The machine in which [execute] evaluates a submission. *)
Definition submitted (code : string) (m : FetchVM E) : FetchVM E :=
  mkVM (vm m) (host m) (allCode m ++ newline ++ code).

Definition execute (code : string) (m : FetchVM E) : Outcome * FetchVM E :=
  match vmEval code (submitted code m) with
  | (EvalError e, m1) => (Thrown (EvalFailure (dump e)), m1)
  | (EvalValue v, m1) =>
      let value := dump v in
      match isPauseMarker value with
      | None => (Returned (Completed value), m1)
      | Some _ =>
          match vmEval "globalThis.__fetchPause" m1 with
          | (EvalError _, m2) => (Thrown FetchDetailsError, m2)
          | (EvalValue d, m2) =>
              let fetchDetails := dump d in
              match getProp "id" fetchDetails, getProp "url" fetchDetails,
                    getProp "options" fetchDetails with
              | Some i, Some u, Some o =>
                  let fetchRequest :=
                    FetchRequest.mk i u o (now (clockReads (host m2))) in
                  let '(state, m3) :=
                    getCurrentState (mkVM (vm m2) (tick (host m2)) (allCode m2)) in
                  (Returned (Paused state fetchRequest), m3)
              | _, _, _ => (Thrown (HostTypeError "fetchDetails"), m2)
              end
          end
      end
  end.

(** [resume]: restore, inject the response, and answer its data. *)
Definition resume (state : VMState) (fetchResponse : FetchResponse.t)
    (m : FetchVM E) : Outcome * FetchVM E :=
  match restoreState state m with
  | (Some e, m0) => (Thrown e, m0)
  | (None, m0) =>
      match stringifiedText (JSON_stringify (responseObject fetchResponse)) with
      | None => (Thrown (HostTypeError "JSON.stringify"), m0)
      | Some responseText =>
          match vmEval (injectCode responseText) m0 with
          | (EvalError e, m1) => (Thrown (InjectError (dump e)), m1)
          | (EvalValue _, m1) =>
              (Returned (Completed (FetchResponse.data fetchResponse)), m1)
          end
      end
  end.

(** The convenience functions: a new interpreter for each call. *)
Definition executeCode (code : string) (reads : nat) : Outcome * nat :=
  let '(r, m) := execute code (initialize reads) in
  (r, clockReads (host m)).

Definition resumeExecution (state : VMState) (fetchResponse : FetchResponse.t)
    (reads : nat) : Outcome * nat :=
  let '(r, m) := resume state fetchResponse (initialize reads) in
  (r, clockReads (host m)).
End Library.

End FetchVMLib.

(** ** Further scenarios on the concrete engine *)

(** A snapshot without statements, as the single-evaluation VM produces
    them once the two missing fields have taken their defaults. *)
Definition emptySnapshot : VMState.t :=
  VMState.mk "state_0" EmptyString [] 0 0 [].

(** [fetch("U");] for a URL [U], and the same text with the URL as a hole. *)
Definition sourceFetch (url : string) : string :=
  "fetch(" ++ Scenarios.quoted url ++ ");".

Definition fetchSegments (url : string) : list segment :=
  [Lit ("fetch(" ++ dquote); Hole url; Lit (dquote ++ ");")].

(** A script of fetch calls with literal URLs, [fetch("U1");...fetch("Un");],
    with its tokens and its program. *)
Fixpoint sourceFetches (urls : list string) : string :=
  match urls with
  | [] => EmptyString
  | url :: rest => sourceFetch url ++ sourceFetches rest
  end.

Definition fetchCall (url : string) : MiniJS.expr :=
  MiniJS.ECall (MiniJS.EIdent "fetch") [MiniJS.ELit (VStr url)].

(** The tokens of [fetch("U");] at the offset [pos]. *)
Definition fetchTokens (url : string) (pos : nat) : list MiniJS.ptoken :=
  [(MiniJS.TIdent "fetch", pos, 5 + pos);
   (MiniJS.TPunct "(", 5 + pos, 6 + pos);
   (MiniJS.TStr url, 6 + pos, S (7 + pos + String.length url));
   (MiniJS.TPunct ")", S (7 + pos + String.length url),
    S (S (7 + pos + String.length url)));
   (MiniJS.TPunct ";", S (S (7 + pos + String.length url)),
    S (S (S (7 + pos + String.length url))))].

Fixpoint fetchesTokens (urls : list string) (pos : nat) : list MiniJS.ptoken :=
  match urls with
  | [] => []
  | url :: rest =>
      (fetchTokens url pos
       ++ fetchesTokens rest (S (S (S (7 + pos + String.length url)))))%list
  end.

Fixpoint fetchesProgram (urls : list string) (pos : nat)
  : list (nat * nat * MiniJS.stmt) :=
  match urls with
  | [] => []
  | url :: rest =>
      (pos, S (S (S (7 + pos + String.length url))), MiniJS.SExpr (fetchCall url))
      :: fetchesProgram rest (S (S (S (7 + pos + String.length url))))
  end.

(** A statement that is a string literal with the prefix of the pause
    markers: the literal of [__FETCH_PAUSE__S], and a semicolon. *)
Definition sourceMarker (s : string) : string :=
  Scenarios.quoted (pauseMarker ++ s) ++ ";".

Definition markerSegments (s : string) : list segment :=
  [Lit (dquote ++ pauseMarker); Hole s; Lit (dquote ++ ";")].

(** The inject code of [resume] for the data [d], a string. *)
Definition injectSegments (d : string) : list segment :=
  [Lit (newline ++ "      globalThis.__currentFetchData = " ++ dquote);
   Hole d;
   Lit (dquote ++ ";" ++ newline ++ "    ")].

(** The variables that the capture of a new interpreter holds: [Reflect],
    the one global of a new context that passes the tests of the capture
    program and has a JSON image. *)
Definition freshVars : list (string * jsval) := [("Reflect", VObj [])].

(** The restore code of a snapshot with these variables. *)
Definition freshRestoreCode : string :=
  restoreCode ("{" ++ Scenarios.quoted "Reflect" ++ ":{}}").

(** The printable ASCII characters that open neither a double-quoted
    literal nor a comment nor a parenthesis: all but the double quote, the
    backslash, the opening parenthesis, the slash and the less-than sign. *)
Definition tailChar (c : ascii) : bool :=
  let n := nat_of_ascii c in
  ((32 <=? n) && (n <=? 126) && negb (n =? 34) && negb (n =? 92)
   && negb (n =? 40) && negb (n =? 47) && negb (n =? 60))%nat.

(** The global object of a new instance after one call of the
    interceptor. *)
Definition pausedContext (rid url : string) : MiniJS.ctx :=
  MiniJS.setProp "__fetchPause" (slotOf rid url) MiniJS.fresh.

(** The states of the lexer outside a double-quoted literal. *)
Definition openState (st : MiniJS.lexState) : Prop :=
  match st with
  | MiniJS.LxIdle | MiniJS.LxWord _ _ | MiniJS.LxDigits _ _ => True
  | MiniJS.LxString q _ _ => q = "'"%char
  | MiniJS.LxEscape _ _ _ => False
  end.

(** The run of the single-evaluation VM on [fetch("https://x/1");]. *)
Definition fetchvmSnapshot : FetchVMLib.VMState :=
  match fst (FetchVMLib.execute MiniJS.engine Scenarios.clock
               (sourceFetch "https://x/1")
               (FetchVMLib.initialize MiniJS.engine 0)) with
  | FetchVMLib.Returned (FetchVMLib.Paused state _) => state
  | _ => FetchVMLib.mkState EmptyString EmptyString [] 0
  end.

Definition fetchvmRequest : FetchRequest.t :=
  match fst (FetchVMLib.execute MiniJS.engine Scenarios.clock
               (sourceFetch "https://x/1")
               (FetchVMLib.initialize MiniJS.engine 0)) with
  | FetchVMLib.Returned (FetchVMLib.Paused _ fetchRequest) => fetchRequest
  | _ => FetchRequest.mk VUndefined VUndefined VUndefined 0
  end.

(** The data of a response that the scenarios with one fetch call take:
    absent, [null], a boolean, or a string without control character, double
    quote or backslash. *)
Definition simpleData (v : jsval) : bool :=
  match v with
  | VUndefined | VNull | VBool _ => true
  | VStr d => plain d
  | _ => false
  end.

(** [console.log(fetch("U"));] for a URL [U], and the same text with the
    URL as a hole. *)
Definition sourceLog (url : string) : string :=
  "console.log(fetch(" ++ Scenarios.quoted url ++ "));".

Definition logSegments (url : string) : list segment :=
  [Lit ("console.log(fetch(" ++ dquote); Hole url; Lit (dquote ++ "));")].

(** ** JSON texts read back

    The restore code of [restoreState] carries the JSON text of the
    variables of the snapshot, and the interpreter reads that text as an
    object literal.  The definitions below say for which values the text
    lies in the fragment of the concrete engine, and what the lexer and the
    parser make of it. *)

(** The characters that [JSON.stringify] writes as themselves or as one of
    its two-character escapes. *)
Definition readableChar (c : ascii) : bool :=
  let n := nat_of_ascii c in
  ((32 <=? n) || (n =? 8) || (n =? 9) || (n =? 10) || (n =? 12) || (n =? 13))%nat.

Fixpoint distinct (l : list string) : bool :=
  match l with
  | [] => true
  | k :: r => negb (includes r k) && distinct r
  end.

(** A key of an object literal that the literal binds as a property. *)
Definition readableKey (k : string) : bool :=
  allChars readableChar k && negb (String.eqb k "__proto__").

(** The JSON values whose text the fragment reads back: no negative number
    and no control character that needs a [\u] escape; the keys of an
    object are distinct. *)
Fixpoint readable (v : jsval) : bool :=
  match v with
  | VNull | VBool _ => true
  | VNum n => (0 <=? n)%Z
  | VStr s => allChars readableChar s
  | VArr l => forallb readable l
  | VObj ps =>
      forallb (fun p => readableKey (fst p) && readable (snd p)) ps
      && distinct (map fst ps)
  | VUndefined | VBigInt _ | VFunction _ => false
  end.

(** The text of a value inside a JSON text: the function that [jsonText]
    maps over the elements of an array. *)
Definition textOf (v : jsval) : string :=
  match jsonText v with
  | Some t => t
  | None => "null"
  end.

(** The text of a property inside the JSON text of an object. *)
Definition propText (p : string * jsval) : string :=
  quoteString (fst p) ++ ":" ++ textOf (snd p).

(** The literal that denotes a value. *)
Fixpoint litOf (v : jsval) : MiniJS.expr :=
  match v with
  | VArr l => MiniJS.EArray (map litOf l)
  | VObj ps => MiniJS.EObject (map (fun p => (fst p, litOf (snd p))) ps)
  | _ => MiniJS.ELit v
  end.

(** The tokens of the JSON text of a value, without their offsets. *)
Fixpoint separated (l : list (list MiniJS.token)) : list MiniJS.token :=
  match l with
  | [] => []
  | [x] => x
  | x :: r => (x ++ MiniJS.TPunct "," :: separated r)%list
  end.

Fixpoint tokensOf (v : jsval) : list MiniJS.token :=
  match v with
  | VNull => [MiniJS.TIdent "null"]
  | VBool true => [MiniJS.TIdent "true"]
  | VBool false => [MiniJS.TIdent "false"]
  | VNum n => [MiniJS.TNum n]
  | VStr s => [MiniJS.TStr s]
  | VArr l =>
      (MiniJS.TPunct "[" :: separated (map tokensOf l) ++ [MiniJS.TPunct "]"])%list
  | VObj ps =>
      (MiniJS.TPunct "{"
       :: separated (map (fun p => MiniJS.TStr (fst p) :: MiniJS.TPunct ":"
                                   :: tokensOf (snd p)) ps)
       ++ [MiniJS.TPunct "}"])%list
  | VUndefined | VBigInt _ | VFunction _ => []
  end.

Definition erase (ts : list MiniJS.ptoken) : list MiniJS.token :=
  map (fun t => fst (fst t)) ts.

(** The tokens [ts], then those of the rest of the text. *)
Definition prepend (ts : list MiniJS.ptoken) (o : option (list MiniJS.ptoken))
  : option (list MiniJS.ptoken) :=
  match o with
  | Some r => Some (ts ++ r)%list
  | None => None
  end.

(** A text before which a word or a number ends. *)
Definition delimited (rest : string) : bool :=
  match rest with
  | EmptyString => true
  | String c _ => negb (MiniJS.isIdentPart c)
  end.

(** Tokens before which an operand ends. *)
Definition stops (rest : list MiniJS.ptoken) : bool :=
  match rest with
  | (MiniJS.TPunct c, _, _) :: _ =>
      negb (Ascii.eqb c "." || Ascii.eqb c "(" || Ascii.eqb c "+" || Ascii.eqb c "=")
  | _ => true
  end.

(** The tokens of [Object.assign(globalThis, ] in front of the tokens
    [tail], and the call that the restore code for the variables [v] is. *)
Definition restoreTokens (tail : list MiniJS.ptoken) : list MiniJS.ptoken :=
  (MiniJS.TIdent "Object", 0, 6) :: (MiniJS.TPunct ".", 6, 7)
  :: (MiniJS.TIdent "assign", 7, 13) :: (MiniJS.TPunct "(", 13, 14)
  :: (MiniJS.TIdent "globalThis", 14, 24) :: (MiniJS.TPunct ",", 24, 25) :: tail.

Definition restoreCall (v : jsval) : MiniJS.expr :=
  MiniJS.ECall (MiniJS.EMember (MiniJS.EIdent "Object") "assign")
               [MiniJS.EIdent "globalThis"; litOf v].

(** What the lexer, the parser and the evaluator make of the text of a
    value [v]: its tokens in front of the tokens of [rest], its literal, and
    the value itself. *)
Definition lexesAs (v : jsval) : Prop :=
  readable v = true ->
  forall pos rest,
    delimited rest = true ->
    exists ts pos',
      erase ts = tokensOf v /\
      MiniJS.lex MiniJS.LxIdle pos (textOf v ++ rest)
      = prepend ts (MiniJS.lex MiniJS.LxIdle pos' rest).

Definition parsesAs (v : jsval) : Prop :=
  readable v = true ->
  forall (ts rest : list MiniJS.ptoken) f,
    erase ts = tokensOf v ->
    5 * length ts <= f ->
    MiniJS.parsePrimary f (ts ++ rest) = Some (litOf v, rest).

Definition evaluatesAs (fetch : HostFunction MiniJS.ctx) (v : jsval) : Prop :=
  readable v = true ->
  forall c h, MiniJS.evalExpr fetch (litOf v) c h = (MiniJS.Ok v, c, h).

(** The number that the digits [d] denote behind the digits read as
    [acc]. *)
Fixpoint uintValue (d : Decimal.uint) (acc : Z) : Z :=
  match d with
  | Decimal.Nil => acc
  | Decimal.D0 d' => uintValue d' (acc * 10 + 0)
  | Decimal.D1 d' => uintValue d' (acc * 10 + 1)
  | Decimal.D2 d' => uintValue d' (acc * 10 + 2)
  | Decimal.D3 d' => uintValue d' (acc * 10 + 3)
  | Decimal.D4 d' => uintValue d' (acc * 10 + 4)
  | Decimal.D5 d' => uintValue d' (acc * 10 + 5)
  | Decimal.D6 d' => uintValue d' (acc * 10 + 6)
  | Decimal.D7 d' => uintValue d' (acc * 10 + 7)
  | Decimal.D8 d' => uintValue d' (acc * 10 + 8)
  | Decimal.D9 d' => uintValue d' (acc * 10 + 9)
  end.

(** * Properties *)

(** ** The script fields are untouched by evaluation *)

Section DriverFacts.
Variable E : Engine.
Variable now : nat -> Z.

Local Abbreviation VM := (SequentialFetchVM E).

Lemma sameScript_refl (m : VM) : sameScript m m.
Proof. repeat split. Qed.

Lemma sameScript_trans (m1 m2 m3 : VM) :
  sameScript m1 m2 -> sameScript m2 m3 -> sameScript m1 m3.
Proof.
  intros (A1 & B1 & C1) (A2 & B2 & C2).
  repeat split; congruence.
Qed.

Lemma vmEval_sameScript code m r m' :
  vmEval E now code m = (r, m') -> sameScript m m'.
Proof.
  unfold vmEval.
  destruct (evalCode E (fetchFunc E now (callDepth E)) code (vm m) (host m))
    as [[r0 c] h].
  intros H; inversion H; subst. repeat split.
Qed.

Lemma checkVariables_sameScript names :
  forall m found m', checkVariables E now names m = (found, m') -> sameScript m m'.
Proof.
  induction names as [|n names IH]; simpl; intros m found m' H.
  - inversion H; subst. apply sameScript_refl.
  - destruct (vmEval E now n m) as [r m1] eqn:Hev.
    apply vmEval_sameScript in Hev.
    destruct r as [v|e].
    + destruct (isPauseMarker (dump v)).
      * inversion H; subst. exact Hev.
      * eapply sameScript_trans; [exact Hev|]. eapply IH; eauto.
    + eapply sameScript_trans; [exact Hev|]. eapply IH; eauto.
Qed.

Lemma findPauseMarker_sameScript value statement m found m' :
  findPauseMarker E now value statement m = (found, m') -> sameScript m m'.
Proof.
  unfold findPauseMarker. destruct (isPauseMarker value).
  - intros H; inversion H; subst. apply sameScript_refl.
  - apply checkVariables_sameScript.
Qed.

Lemma getCurrentState_snapshot m :
  VMState.code (fst (getCurrentState E now m)) = allCode m /\
  VMState.statements (fst (getCurrentState E now m)) = statements m /\
  VMState.currentStatementIndex (fst (getCurrentState E now m))
  = currentStatementIndex m /\
  sameScript m (snd (getCurrentState E now m)).
Proof.
  unfold getCurrentState.
  destruct (vmEval E now captureCode m) as [r m1] eqn:Hcap.
  apply vmEval_sameScript in Hcap. destruct Hcap as (A & B & C).
  simpl. repeat split; assumption.
Qed.

(** A pause freezes the script fields into the snapshot. *)
Lemma pauseExecution_paused m state fetchRequest m' :
  pauseExecution E now m = (Returned (Paused state fetchRequest), m') ->
  VMState.code state = allCode m /\
  VMState.statements state = statements m /\
  VMState.currentStatementIndex state = currentStatementIndex m /\
  sameScript m m'.
Proof.
  unfold pauseExecution.
  destruct (vmEval E now "globalThis.__fetchPause" m) as [r m1] eqn:Hev.
  apply vmEval_sameScript in Hev. destruct Hev as (A & B & C).
  destruct r as [v|e]; [|discriminate].
  destruct (getProp "id" (dump v)); [|discriminate].
  destruct (getProp "url" (dump v)); [|discriminate].
  destruct (getProp "options" (dump v)); [|discriminate].
  match goal with
  | |- context [getCurrentState E now ?m0] =>
      pose proof (getCurrentState_snapshot m0) as (A1 & B1 & C1 & A2 & B2 & C2);
      destruct (getCurrentState E now m0) as [st m2]
  end.
  simpl in *.
  intros H; inversion H; subst.
  repeat split; congruence.
Qed.

Lemma pauseExecution_not_completed m result m' :
  pauseExecution E now m <> (Returned (Completed result), m').
Proof.
  unfold pauseExecution.
  destruct (vmEval E now "globalThis.__fetchPause" m) as [[v|e] m1];
    [|discriminate].
  destruct (getProp "id" (dump v)); [|discriminate].
  destruct (getProp "url" (dump v)); [|discriminate].
  destruct (getProp "options" (dump v)); [|discriminate].
  destruct (getCurrentState E now _). discriminate.
Qed.

Lemma stepsOver_script m m' :
  stepsOver E now m m' ->
  allCode m' = allCode m /\ statements m' = statements m /\
  (currentStatementIndex m <= currentStatementIndex m')%nat.
Proof.
  induction 1 as [m|m original v m1 m2 m' Hnth Hev Hfind Hsteps IH].
  - repeat split. lia.
  - apply vmEval_sameScript in Hev. apply findPauseMarker_sameScript in Hfind.
    destruct Hev as (A1 & B1 & C1). destruct Hfind as (A2 & B2 & C2).
    destruct IH as (A3 & B3 & C3). simpl in *.
    repeat split; try congruence. lia.
Qed.

Lemma stepsOver_trans m1 m2 m3 :
  stepsOver E now m1 m2 -> stepsOver E now m2 m3 -> stepsOver E now m1 m3.
Proof.
  induction 1; intros; [assumption|].
  econstructor; eauto.
Qed.
End DriverFacts.

(** ** The driver loop *)

Section DriverLoop.
Variable E : Engine.
Variable now : nat -> Z.

Local Abbreviation VM := (SequentialFetchVM E).

Lemma runStatements_eq fuel (m : VM) :
  runStatements E now fuel m =
  match nth_error (statements m) (currentStatementIndex m) with
  | None => (Returned (Completed VUndefined), m)
  | Some original =>
      let statement := transformStatement E original in
      match vmEval E now statement m with
      | (EvalError e, m1) => (Thrown (ScriptError (dump e)), m1)
      | (EvalValue v, m1) =>
          let value := dump v in
          match findPauseMarker E now value statement m1 with
          | (Some _, m2) => pauseExecution E now m2
          | (None, m2) =>
              let m3 := advance E m2 in
              if (length (statements m3) <=? currentStatementIndex m3)%nat
              then (Returned (Completed value), m3)
              else match fuel with
                   | O => (Returned (Completed value), m3)
                   | S fuel' => runStatements E now fuel' m3
                   end
          end
      end
  end.
Proof. destruct fuel; reflexivity. Qed.

(** The loop needs no more fuel than there are statements left: the
    branch for exhausted fuel is never taken by [executeNextStatement]. *)
Lemma runStatements_fuel fuel1 :
  forall fuel2 (m : VM),
    (length (statements m) - currentStatementIndex m <= fuel1)%nat ->
    (length (statements m) - currentStatementIndex m <= fuel2)%nat ->
    runStatements E now fuel1 m = runStatements E now fuel2 m.
Proof.
  induction fuel1 as [|fuel1 IH]; intros fuel2 m H1 H2;
    rewrite (runStatements_eq fuel2), runStatements_eq;
    (destruct (nth_error (statements m) (currentStatementIndex m))
       as [original|] eqn:Hnth; [|reflexivity]); cbv zeta;
    destruct (vmEval E now (transformStatement E original) m)
      as [[v|e] m1] eqn:Hev; try reflexivity;
    destruct (findPauseMarker E now (dump v) (transformStatement E original) m1)
      as [[marker|] m2] eqn:Hfind; try reflexivity;
    apply vmEval_sameScript in Hev; apply findPauseMarker_sameScript in Hfind;
    destruct Hev as (_ & B1 & C1); destruct Hfind as (_ & B2 & C2);
    assert (Hin : (currentStatementIndex m < length (statements m))%nat)
      by (apply nth_error_Some; congruence);
    (destruct (_ <=? _)%nat eqn:Hle; [reflexivity|]);
    apply Nat.leb_gt in Hle; simpl in Hle.
  - lia.
  - destruct fuel2 as [|fuel2]; [lia|].
    apply IH; simpl; rewrite B2, B1, C2, C1; lia.
Qed.

(** With fuel for the statements that are left, the loop follows
    [stepsOver]. *)
Lemma runStatements_stepsOver (m m0 : VM) :
  stepsOver E now m m0 ->
  (currentStatementIndex m0 < length (statements m0))%nat ->
  forall fuel,
    (length (statements m) - currentStatementIndex m <= fuel)%nat ->
    exists fuel0,
      (length (statements m0) - currentStatementIndex m0 <= fuel0)%nat /\
      runStatements E now fuel m = runStatements E now fuel0 m0.
Proof.
  induction 1 as [m|m original v m1 m2 m' Hnth Hev Hfind Hsteps IH];
    intros Hlt fuel Hfuel.
  - exists fuel. split; [assumption|reflexivity].
  - pose proof (stepsOver_script E now _ _ Hsteps) as (_ & Hst & Hcur).
    pose proof (vmEval_sameScript E now _ _ _ _ Hev) as (_ & B1 & C1).
    pose proof (findPauseMarker_sameScript E now _ _ _ _ _ Hfind) as (_ & B2 & C2).
    simpl in Hst, Hcur.
    assert (Hin : (currentStatementIndex m < length (statements m))%nat).
    { apply nth_error_Some. congruence. }
    destruct fuel as [|fuel']; [lia|].
    rewrite runStatements_eq, Hnth. simpl. rewrite Hev, Hfind.
    destruct (length (statements m2) <=? S (currentStatementIndex m2))%nat eqn:Hle.
    + apply Nat.leb_le in Hle. rewrite Hst in Hlt. lia.
    + apply IH; [assumption|]. simpl. rewrite B2, B1, C2, C1. lia.
Qed.

Lemma runStatements_failsAt (m0 : VM) e m1 fuel :
  failsAt E now m0 e m1 ->
  runStatements E now fuel m0 = (Thrown (ScriptError (dump e)), m1).
Proof.
  intros (original & Hnth & Hev).
  rewrite runStatements_eq, Hnth. simpl. rewrite Hev. reflexivity.
Qed.

Lemma failsAt_in_range (m0 : VM) e m1 :
  failsAt E now m0 e m1 ->
  (currentStatementIndex m0 < length (statements m0))%nat.
Proof.
  intros (original & Hnth & _). apply nth_error_Some. congruence.
Qed.

Lemma executeNextStatement_fails (m m0 : VM) e m1 :
  stepsOver E now m m0 -> failsAt E now m0 e m1 ->
  executeNextStatement E now m = (Thrown (ScriptError (dump e)), m1).
Proof.
  intros Hsteps Hfail. unfold executeNextStatement.
  destruct (runStatements_stepsOver m m0 Hsteps (failsAt_in_range _ _ _ Hfail)
              (length (statements m))) as (fuel0 & _ & Heq); [lia|].
  rewrite Heq. apply runStatements_failsAt. assumption.
Qed.

(** A paused run: the statements before the cursor of the snapshot ran
    without showing a marker, and the one under it showed one. *)
Lemma runStatements_paused fuel :
  forall (m : VM) state fetchRequest m',
    runStatements E now fuel m = (Returned (Paused state fetchRequest), m') ->
    exists m0 original marker m2,
      stepsOver E now m m0 /\ pausesAt E now m0 original marker m2 /\
      pauseExecution E now m2 = (Returned (Paused state fetchRequest), m').
Proof.
  induction fuel as [|fuel IH]; intros m state fetchRequest m';
    rewrite runStatements_eq;
    destruct (nth_error (statements m) (currentStatementIndex m))
      as [original|] eqn:Hnth; try discriminate; simpl;
    destruct (vmEval E now (transformStatement E original) m)
      as [[v|e] m1] eqn:Hev; try discriminate;
    destruct (findPauseMarker E now (dump v) (transformStatement E original) m1)
      as [[marker|] m2] eqn:Hfind.
  - intros Hp. exists m, original, marker, m2.
    split; [constructor|]. split; [|assumption].
    split; [assumption|]. exists v, m1. split; assumption.
  - destruct (_ <=? _)%nat; discriminate.
  - intros Hp. exists m, original, marker, m2.
    split; [constructor|]. split; [|assumption].
    split; [assumption|]. exists v, m1. split; assumption.
  - destruct (_ <=? _)%nat; [discriminate|].
    intros Hp. apply IH in Hp.
    destruct Hp as (m0 & original0 & marker0 & m20 & Hsteps & Hpause & Hres).
    exists m0, original0, marker0, m20.
    split; [|split; assumption].
    econstructor; eauto.
Qed.
End DriverLoop.

(** ** Cursor and snapshot *)

Section Cursor.
Variable E : Engine.
Variable now : nat -> Z.

Local Abbreviation VM := (SequentialFetchVM E).

Lemma restoreState_script state (m m0 : VM) err :
  restoreState E now state m = (err, m0) ->
  allCode m0 = VMState.code state /\
  statements m0 = VMState.statements state /\
  currentStatementIndex m0 = VMState.currentStatementIndex state.
Proof.
  unfold restoreState.
  destruct (VMState.variables state).
  - intros H; inversion H; subst; simpl. repeat split.
  - destruct (stringifiedText _).
    + destruct (vmEval E now _ _) as [r m1] eqn:Hev.
      apply vmEval_sameScript in Hev. destruct Hev as (A & B & C).
      intros H; inversion H; subst; simpl in *. repeat split; assumption.
    + intros H; inversion H; subst; simpl. repeat split.
Qed.

(** After the replay the cursor is one past the cursor of the snapshot. *)
Lemma replayStatement_cursor state fetchResponse (m : VM) value m4 :
  replayStatement E now state fetchResponse m = (inr value, m4) ->
  allCode m4 = VMState.code state /\
  statements m4 = VMState.statements state /\
  currentStatementIndex m4 = S (VMState.currentStatementIndex state).
Proof.
  unfold replayStatement.
  destruct (restoreState E now state m) as [err m0] eqn:Hrestore.
  apply restoreState_script in Hrestore. destruct Hrestore as (A0 & B0 & C0).
  destruct err; [discriminate|].
  destruct (stringifiedText _); [|discriminate].
  destruct (vmEval E now (injectCode s) m0) as [[ignored|e] m1] eqn:Hinject;
    [|discriminate].
  apply vmEval_sameScript in Hinject. destruct Hinject as (A1 & B1 & C1).
  destruct (nth_error (statements m1) (currentStatementIndex m1)); [|discriminate].
  destruct (vmEval E now (transformForResume E s0) m1) as [[v|e] m2] eqn:Hreplay;
    [|discriminate].
  apply vmEval_sameScript in Hreplay. destruct Hreplay as (A2 & B2 & C2).
  destruct (vmEval E now clearCode (advance E m2)) as [r m5] eqn:Hclear.
  apply vmEval_sameScript in Hclear. destruct Hclear as (A3 & B3 & C3).
  simpl in *. intros H; inversion H; subst.
  repeat split; congruence.
Qed.

Lemma executeNextStatement_paused (m : VM) state fetchRequest m' :
  executeNextStatement E now m = (Returned (Paused state fetchRequest), m') ->
  exists m0 original marker m2,
    stepsOver E now m m0 /\ pausesAt E now m0 original marker m2 /\
    VMState.statements state = statements m0 /\
    VMState.currentStatementIndex state = currentStatementIndex m0 /\
    nth_error (VMState.statements state) (VMState.currentStatementIndex state)
    = Some original.
Proof.
  unfold executeNextStatement. intros Hrun.
  apply runStatements_paused in Hrun.
  destruct Hrun as (m0 & original & marker & m2 & Hsteps & Hpause & Hres).
  exists m0, original, marker, m2.
  split; [assumption|]. split; [assumption|].
  destruct Hpause as (Hnth & v & m1 & Hev & Hfind).
  apply vmEval_sameScript in Hev. apply findPauseMarker_sameScript in Hfind.
  apply pauseExecution_paused in Hres.
  destruct Hev as (_ & B1 & C1). destruct Hfind as (_ & B2 & C2).
  destruct Hres as (_ & B3 & C3 & _).
  assert (Hst : VMState.statements state = statements m0) by congruence.
  assert (Hcur : VMState.currentStatementIndex state = currentStatementIndex m0)
    by congruence.
  split; [assumption|]. split; [assumption|].
  rewrite Hst, Hcur. assumption.
Qed.


(** C7. When the interpreter reports a script error during a call, for a
    statement that the driver runs or for the statement that [resume]
    replays, the call fails with that error: its outcome is a rejection and
    not a result, so no snapshot comes back. *)
Theorem script_error_is_hard_failure (call : Call) (m : VM) e m' :
  reportsError E now call m e m' ->
  perform E now call m = (Thrown (ScriptError (dump e)), m') /\
  (forall r, fst (perform E now call m) <> Returned r).
Proof.
  intros Herr.
  assert (Hthrown : perform E now call m = (Thrown (ScriptError (dump e)), m')).
  { destruct Herr
      as [code m m0 e m1 Hsteps Hfail
         |state fetchResponse m m0 dataText ignored m1 current e m2
            Hrestore Hdata Hinject Hnth Hreplay
         |state fetchResponse m value m4 m0 e m1 Hreplay Hsteps Hfail]; simpl.
    - unfold execute. eapply executeNextStatement_fails; eassumption.
    - unfold resume, replayStatement.
      rewrite Hrestore, Hdata, Hinject, Hnth, Hreplay. reflexivity.
    - unfold resume. rewrite Hreplay.
      pose proof (failsAt_in_range E now _ _ _ Hfail) as Hlt.
      pose proof (stepsOver_script E now _ _ Hsteps) as (_ & Hst & Hcur).
      assert (Hin : (currentStatementIndex m4 <? length (statements m4))%nat = true).
      { apply Nat.ltb_lt. rewrite <- Hst. lia. }
      rewrite Hin. eapply executeNextStatement_fails; eassumption. }
  split; [assumption|].
  intros r. rewrite Hthrown. simpl. discriminate.
Qed.
End Cursor.

(** ** Capture *)

Lemma jsonText_jsonValue (v : jsval) :
  stringifyThrows v = false ->
  (jsonText v = None <-> jsonValue v = None).
Proof.
  destruct v as [| |b|n|n|s|l|ps|s]; simpl; intros H;
    try (split; intros; (reflexivity || discriminate)).
  destruct b; split; intros; discriminate.
Qed.

(** [JSON.stringify] gives a text exactly for the values that do not make
    it throw and have a JSON image. *)
Lemma jsonSerializable_iff (v : jsval) :
  jsonSerializable v <-> stringifyThrows v = false /\ jsonValue v <> None.
Proof.
  unfold jsonSerializable, JSON_stringify. split.
  - intros (t & H). destruct (stringifyThrows v) eqn:Hthrows; [discriminate|].
    split; [reflexivity|].
    destruct (jsonText v) eqn:Htext; [|discriminate].
    intros Hnone. apply jsonText_jsonValue in Hnone; congruence.
  - intros (Hthrows & Hvalue). rewrite Hthrows.
    destruct (jsonText v) eqn:Htext; [eauto|].
    apply jsonText_jsonValue in Htext; congruence.
Qed.

Lemma collectGlobals_no_throw (props : list (string * jsval)) :
  stringifyThrows (VObj (collectGlobals props)) = false.
Proof.
  simpl. apply not_true_is_false. intros H.
  apply existsb_exists in H. destruct H as (p & Hin & Hthrows).
  apply filter_In in Hin. destruct Hin as (_ & Hcap).
  unfold capturable in Hcap.
  apply andb_true_iff in Hcap. destruct Hcap as (_ & Hno).
  rewrite Hthrows in Hno. discriminate.
Qed.

Lemma dumpObject_collectGlobals (props : list (string * jsval)) :
  dumpObject (collectGlobals props) = flat_map jsonProp (collectGlobals props).
Proof.
  unfold dumpObject, dumpProps, dump. rewrite collectGlobals_no_throw. reflexivity.
Qed.

Lemma in_captured (props : list (string * jsval)) k j :
  In (k, j) (dumpObject (collectGlobals props)) <->
  exists v, In (k, v) props /\ capturable (k, v) = true /\ jsonValue v = Some j.
Proof.
  rewrite dumpObject_collectGlobals, in_flat_map. split.
  - intros ((k', v) & Hin & Hj). unfold jsonProp in Hj; simpl in Hj.
    destruct (jsonValue v) as [j'|] eqn:Hv; [|contradiction].
    destruct Hj as [Hj|[]]. inversion Hj; subst.
    apply filter_In in Hin. destruct Hin as (Hin & Hcap).
    exists v. repeat split; assumption.
  - intros (v & Hin & Hcap & Hv). exists (k, v). split.
    + apply filter_In. split; assumption.
    + unfold jsonProp; simpl. rewrite Hv. left. reflexivity.
Qed.

(** ** Capture, restore, capture again *)

(** A JSON image is its own JSON image, and serializing it does not throw. *)
Lemma jsonValue_stable (v : jsval) :
  forall j, stringifyThrows v = false -> jsonValue v = Some j ->
            stringifyThrows j = false /\ jsonValue j = Some j.
Proof.
  induction v as [| |b|n|n|s|l IH|ps IH|s] using jsval_deep_ind;
    simpl; intros j Hthrows Hv; try discriminate;
    try (inversion Hv; subst; simpl; split; reflexivity).
  - (* arrays *)
    inversion Hv; subst; clear Hv. fold jsonElem.
    assert (Hall : Forall (fun e => stringifyThrows (jsonElem e) = false /\
                                    jsonElem (jsonElem e) = jsonElem e) l).
    { induction l as [|e l IHl]; constructor.
      - simpl in Hthrows. apply orb_false_iff in Hthrows.
        destruct Hthrows as (He & _).
        inversion IH as [|? ? IHe _]; subst.
        unfold jsonElem at 1 3 4. destruct (jsonValue e) as [j|] eqn:Hj.
        + destruct (IHe j He eq_refl) as (A & B).
          split; [assumption|]. unfold jsonElem. rewrite B. reflexivity.
        + split; reflexivity.
      - simpl in Hthrows. apply orb_false_iff in Hthrows.
        destruct Hthrows as (_ & Hl).
        inversion IH; subst. apply IHl; assumption. }
    clear IH Hthrows. split.
    + simpl. induction Hall as [|e l (A & _) _ IHl]; simpl; [reflexivity|].
      rewrite A. exact IHl.
    + simpl. fold jsonElem. do 2 f_equal.
      induction Hall as [|e l (_ & B) _ IHl]; simpl; [reflexivity|].
      rewrite B, IHl. reflexivity.
  - (* objects *)
    inversion Hv; subst; clear Hv. fold jsonProp.
    assert (Hall : Forall (fun p =>
                             existsb (fun q => stringifyThrows (snd q)) (jsonProp p)
                             = false /\
                             flat_map jsonProp (jsonProp p) = jsonProp p) ps).
    { induction ps as [|p ps IHps]; constructor.
      - simpl in Hthrows. apply orb_false_iff in Hthrows.
        destruct Hthrows as (Hp & _).
        inversion IH as [|? ? IHp _]; subst.
        unfold jsonProp at 1 3 4. destruct (jsonValue (snd p)) as [j|] eqn:Hj.
        + destruct (IHp j Hp eq_refl) as (A & B). simpl.
          split; [rewrite A; reflexivity|].
          unfold jsonProp; simpl. rewrite B. reflexivity.
        + split; reflexivity.
      - simpl in Hthrows. apply orb_false_iff in Hthrows.
        destruct Hthrows as (_ & Hps).
        inversion IH; subst. apply IHps; assumption. }
    clear IH Hthrows. split.
    + simpl. induction Hall as [|p ps (A & _) _ IHps]; simpl; [reflexivity|].
      rewrite existsb_app, A. exact IHps.
    + simpl. fold jsonProp. do 2 f_equal.
      induction Hall as [|p ps (_ & B) _ IHps]; simpl; [reflexivity|].
      rewrite flat_map_app, B, IHps. reflexivity.
Qed.

Lemma lookupProp_In (k : string) (ps : list (string * jsval)) v :
  lookupProp k ps = Some v -> In (k, v) ps.
Proof.
  induction ps as [|(k', v') ps IH]; simpl; [discriminate|].
  destruct (String.eqb_spec k k') as [->|Hne].
  - intros H; inversion H; subst. left. reflexivity.
  - intros H. right. apply IH. assumption.
Qed.

Lemma lookupProp_None (k : string) (ps : list (string * jsval)) :
  lookupProp k ps = None <-> ~ In k (map fst ps).
Proof.
  induction ps as [|(k', v') ps IH]; simpl.
  - split; [intros _ []|reflexivity].
  - destruct (String.eqb_spec k k') as [->|Hne].
    + split; [discriminate|]. intros H. exfalso. apply H. left. reflexivity.
    + rewrite IH. split.
      * intros H [Heq|Hin]; [congruence|contradiction].
      * intros H Hin. apply H. right. assumption.
Qed.

Lemma lookupProp_NoDup (k : string) (ps : list (string * jsval)) v :
  NoDup (map fst ps) -> In (k, v) ps -> lookupProp k ps = Some v.
Proof.
  induction ps as [|(k', v') ps IH]; simpl; [intros _ []|].
  intros Hnd Hin. inversion Hnd as [|? ? Hnotin Hnd']; subst.
  destruct (String.eqb_spec k k') as [->|Hne].
  - destruct Hin as [Heq|Hin]; [congruence|].
    exfalso. apply Hnotin. apply (in_map fst) in Hin. exact Hin.
  - destruct Hin as [Heq|Hin]; [congruence|]. apply IH; assumption.
Qed.

(** What a capture answers for a name, when the names of the global object
    are distinct. *)
Lemma lookup_captured (props : list (string * jsval)) (k : string) :
  NoDup (map fst props) ->
  lookupProp k (dumpObject (collectGlobals props)) =
  match lookupProp k props with
  | Some v => if capturable (k, v) then jsonValue v else None
  | None => None
  end.
Proof.
  intros Hnd.
  destruct (lookupProp k (dumpObject (collectGlobals props))) as [j|] eqn:Hcap.
  - apply lookupProp_In in Hcap. apply in_captured in Hcap.
    destruct Hcap as (v & Hin & Hc & Hv).
    rewrite (lookupProp_NoDup k props v Hnd Hin), Hc, Hv. reflexivity.
  - destruct (lookupProp k props) as [v|] eqn:Hprops; [|reflexivity].
    destruct (capturable (k, v)) eqn:Hc; [|reflexivity].
    destruct (jsonValue v) as [j|] eqn:Hv; [|reflexivity].
    exfalso. apply lookupProp_None in Hcap. apply Hcap.
    apply (in_map fst _ (k, j)). apply in_captured.
    exists v. split; [apply lookupProp_In; assumption|]. split; assumption.
Qed.

(** *** The capture program on the concrete engine *)

Lemma setProp_new (k : string) (v : jsval) (ps : list (string * jsval)) :
  ~ In k (map fst ps) -> MiniJS.setProp k v ps = (ps ++ [(k, v)])%list.
Proof.
  induction ps as [|(k', v') ps IH]; simpl; intros Hnot; [reflexivity|].
  destruct (String.eqb_spec k k') as [->|Hne].
  - exfalso. apply Hnot. left. reflexivity.
  - rewrite IH; [reflexivity|]. intros Hin. apply Hnot. right. assumption.
Qed.

Lemma sameFunction_native (f : jsval) (name : string) :
  MiniJS.sameFunction f name = true -> f = MiniJS.native name.
Proof.
  unfold MiniJS.sameFunction, MiniJS.native.
  destruct f; try discriminate. intros H. apply String.eqb_eq in H. congruence.
Qed.

(** With the intrinsic in place, the call in the [try] raises an error
    exactly when [JSON.stringify] throws, and touches nothing. *)
Lemma stringifyCall_intact (fetch : HostFunction MiniJS.ctx) (val : jsval)
    (c : MiniJS.ctx) (h : HostState) :
  MiniJS.stringifyIntact c = true ->
  MiniJS.stringifyCall fetch val c h = (MiniJS.stringify [val], c, h).
Proof.
  unfold MiniJS.stringifyIntact, MiniJS.stringifyCall. intros H.
  cbn [MiniJS.evalExpr MiniJS.isObjectAssign MiniJS.isGlobalThis String.eqb
       Ascii.eqb Bool.eqb andb].
  destruct (lookupProp "JSON" c) as [[| | | | | | |ps|]|]; try discriminate.
  cbn [MiniJS.readProperty].
  destruct (lookupProp "stringify" ps) as [f|]; [|discriminate].
  apply sameFunction_native in H. subst f. reflexivity.
Qed.

(** Without a function to call, the call in the [try] raises an error
    whatever the value is. *)
Lemma stringifyCall_raises (fetch : HostFunction MiniJS.ctx) (val : jsval)
    (c : MiniJS.ctx) (h : HostState) :
  MiniJS.stringifyCallable c = false ->
  exists e, MiniJS.stringifyCall fetch val c h = (MiniJS.Err e, c, h).
Proof.
  unfold MiniJS.stringifyCallable, MiniJS.stringifyCall. intros H.
  cbn [MiniJS.evalExpr MiniJS.isObjectAssign MiniJS.isGlobalThis String.eqb
       Ascii.eqb Bool.eqb andb].
  destruct (lookupProp "JSON" c) as [[| |b|n|n|s|l|ps|s]|];
    cbn [MiniJS.readProperty]; try (eexists; reflexivity).
  destruct (lookupProp "stringify" ps) as [[| |b|n|n|s|l|qs|s]|];
    try discriminate; eexists; reflexivity.
Qed.

Lemma stringify_returns (v : jsval) :
  (exists r, MiniJS.stringify [v] = MiniJS.Ok r) <-> stringifyThrows v = false.
Proof.
  unfold MiniJS.stringify, JSON_stringify.
  destruct (stringifyThrows v).
  - split; [intros (r & H); discriminate|discriminate].
  - split; [reflexivity|]. intros _. destruct (jsonText v); eexists; reflexivity.
Qed.

(** The loop on the names of the properties [ps] of the global object:
    it appends the entries that pass the tests, in their order. *)
Lemma captureLoop_intact (fetch : HostFunction MiniJS.ctx) (c : MiniJS.ctx)
    (h : HostState) :
  MiniJS.stringifyIntact c = true ->
  forall ps globals,
    (forall k v, In (k, v) ps -> lookupProp k c = Some v) ->
    NoDup (map fst ps) ->
    (forall k, In k (map fst ps) -> ~ In k (map fst globals)) ->
    MiniJS.captureLoop fetch (map fst ps) globals c h
    = ((globals ++ collectGlobals ps)%list, c, h).
Proof.
  intros Hjson. induction ps as [|(k, v) ps IH]; intros globals Hlook Hnd Hnew.
  - simpl. rewrite app_nil_r. reflexivity.
  - inversion Hnd as [|? ? Hk Hnd']; subst.
    cbn [map fst MiniJS.captureLoop].
    rewrite (Hlook k v (or_introl eq_refl)), (stringifyCall_intact _ _ _ _ Hjson).
    unfold collectGlobals. cbn [filter]. unfold capturable at 1. cbn [fst snd].
    destruct (negb (startsWith "_" k) && negb (includes intrinsicNames k)) eqn:Htests;
      cbn [andb].
    + destruct (stringifyThrows v) eqn:Hthrows; cbn [negb].
      * assert (Hs : exists e, MiniJS.stringify [v] = MiniJS.Err e).
        { unfold MiniJS.stringify, JSON_stringify. rewrite Hthrows. eexists.
          reflexivity. }
        destruct Hs as (e & ->).
        apply IH; [|assumption|].
        -- intros k' v' Hin. apply Hlook. right. assumption.
        -- intros k' Hin. apply Hnew. right. assumption.
      * destruct (proj2 (stringify_returns v) Hthrows) as (r & ->).
        rewrite setProp_new by (apply Hnew; left; reflexivity).
        rewrite IH.
        -- rewrite <- app_assoc. reflexivity.
        -- intros k' v' Hin. apply Hlook. right. assumption.
        -- assumption.
        -- intros k' Hin. rewrite map_app, in_app_iff. intros [Hg|[Hg|[]]].
           ++ revert Hg. apply Hnew. right. assumption.
           ++ simpl in Hg. subst k'. contradiction.
    + apply IH; [|assumption|].
      * intros k' v' Hin. apply Hlook. right. assumption.
      * intros k' Hin. apply Hnew. right. assumption.
Qed.

(** With both intrinsics in place the capture program answers the entries
    of the global object that pass its tests, and leaves the interpreter as
    it is. *)
Lemma evalCode_capture (fetch : HostFunction MiniJS.ctx) (c : MiniJS.ctx)
    (h : HostState) :
  NoDup (map fst c) ->
  MiniJS.objectIntact c = true -> MiniJS.stringifyIntact c = true ->
  MiniJS.evalCode fetch captureCode c h = (EvalValue (VObj (collectGlobals c)), c, h).
Proof.
  intros Hnd Hobject Hjson.
  unfold MiniJS.evalCode. rewrite String.eqb_refl.
  unfold MiniJS.evalCapture, MiniJS.ownPropertyNames. rewrite Hobject.
  rewrite (captureLoop_intact fetch c h Hjson c []); try assumption.
  - reflexivity.
  - intros k v Hin. apply lookupProp_NoDup; assumption.
  - intros k _ [].
Qed.

(** When no check can pass, the capture program answers the empty
    object. *)
Lemma captureLoop_raises (fetch : HostFunction MiniJS.ctx) (c : MiniJS.ctx)
    (h : HostState) :
  MiniJS.stringifyCallable c = false ->
  forall keys globals,
    MiniJS.captureLoop fetch keys globals c h = (globals, c, h).
Proof.
  intros Hjson. induction keys as [|k keys IH]; intros globals; [reflexivity|].
  cbn [MiniJS.captureLoop].
  destruct (negb (startsWith "_" k) && negb (includes intrinsicNames k));
    [|apply IH].
  match goal with
  | |- context [MiniJS.stringifyCall fetch ?val c h] =>
      destruct (stringifyCall_raises fetch val c h Hjson) as (e & ->)
  end.
  apply IH.
Qed.

Lemma ownPropertyNames_error (c : MiniJS.ctx) :
  MiniJS.objectIntact c = false -> exists e, MiniJS.ownPropertyNames c = MiniJS.Err e.
Proof.
  unfold MiniJS.ownPropertyNames. intros ->.
  destruct (lookupProp "Object" c) as [[| |b|n|n|s|l|ps|s]|];
    try (eexists; reflexivity).
  destruct (lookupProp "getOwnPropertyNames" ps) as [[| |b|n|n|s|l|qs|s]|];
    eexists; reflexivity.
Qed.

(** The variables of a snapshot on the concrete engine, from what the
    capture program answers. *)
Lemma getCurrentState_variables (now : nat -> Z) (m : SequentialFetchVM MiniJS.engine) :
  VMState.variables (fst (getCurrentState MiniJS.engine now m))
  = match fst (fst (MiniJS.evalCode (fetchFunc MiniJS.engine now 8) captureCode
                      (vm m) (host m))) with
    | EvalValue value => dumpProps value
    | EvalError _ => []
    end.
Proof.
  unfold getCurrentState, vmEval.
  cbn [evalCode callDepth MiniJS.engine].
  destruct (MiniJS.evalCode _ captureCode (vm m) (host m)) as [[[value|e] c] h];
    reflexivity.
Qed.



(** ** Submissions *)

Section Submissions.
Variable E : Engine.
Variable now : nat -> Z.

Local Abbreviation VM := (SequentialFetchVM E).

Lemma pauseExecution_script (m : VM) o m' :
  pauseExecution E now m = (o, m') ->
  allCode m' = allCode m /\ statements m' = statements m.
Proof.
  unfold pauseExecution.
  destruct (vmEval E now "globalThis.__fetchPause" m) as [r m1] eqn:Hev.
  apply vmEval_sameScript in Hev. destruct Hev as (A & B & _).
  destruct r as [v|e].
  - destruct (getProp "id" (dump v)), (getProp "url" (dump v)),
      (getProp "options" (dump v));
      try (intros H; inversion H; subst; simpl; split; assumption).
    match goal with
    | |- context [getCurrentState E now ?m0] =>
        pose proof (getCurrentState_snapshot E now m0) as (_ & _ & _ & A2 & B2 & _);
        destruct (getCurrentState E now m0) as [st m2]
    end.
    simpl in *. intros H; inversion H; subst. split; congruence.
  - intros H; inversion H; subst. split; assumption.
Qed.

(** The loop never touches the accumulated text or the statement list. *)
Lemma runStatements_script fuel :
  forall (m : VM) o m',
    runStatements E now fuel m = (o, m') ->
    allCode m' = allCode m /\ statements m' = statements m.
Proof.
  induction fuel as [|fuel IH]; intros m o m'; rewrite runStatements_eq;
    (destruct (nth_error (statements m) (currentStatementIndex m)) as [original|];
     [|intros H; inversion H; subst; split; reflexivity]); simpl;
    destruct (vmEval E now (transformStatement E original) m) as [[v|e] m1] eqn:Hev;
    apply vmEval_sameScript in Hev; destruct Hev as (A1 & B1 & _);
    try (intros H; inversion H; subst; split; assumption);
    destruct (findPauseMarker E now (dump v) (transformStatement E original) m1)
      as [[marker|] m2] eqn:Hfind;
    apply findPauseMarker_sameScript in Hfind; destruct Hfind as (A2 & B2 & _);
    try (intros H; apply pauseExecution_script in H; destruct H; split; congruence).
  - destruct (_ <=? _)%nat; intros H; inversion H; subst; simpl; split; congruence.
  - destruct (_ <=? _)%nat.
    + intros H; inversion H; subst; simpl; split; congruence.
    + intros H. apply IH in H. simpl in H. destruct H. split; congruence.
Qed.

Lemma executeNextStatement_paused_script (m : VM) state fetchRequest m' :
  executeNextStatement E now m = (Returned (Paused state fetchRequest), m') ->
  VMState.code state = allCode m /\ VMState.statements state = statements m.
Proof.
  unfold executeNextStatement. intros Hrun.
  apply runStatements_paused in Hrun.
  destruct Hrun as (m0 & original & marker & m2 & Hsteps & Hpause & Hres).
  pose proof (stepsOver_script E now _ _ Hsteps) as (A0 & B0 & _).
  destruct Hpause as (_ & v & m1 & Hev & Hfind).
  apply vmEval_sameScript in Hev. apply findPauseMarker_sameScript in Hfind.
  apply pauseExecution_paused in Hres.
  destruct Hev as (A1 & B1 & _). destruct Hfind as (A2 & B2 & _).
  destruct Hres as (A3 & B3 & _).
  split; congruence.
Qed.

(** C6, as the code has it.  A call of [execute] appends a line break and its
    source to the accumulated text, segments the submitted source alone (not
    the accumulated text), sets the cursor to 0 and runs the driver loop
    over these statements; the statement list of the machine afterwards, and
    of the snapshot of a paused result, is the segmentation of this
    submission, and the text of the snapshot is the accumulated text. *)
Theorem execute_drives_submission (code : string) (m : VM) :
  execute E now code m = executeNextStatement E now (submitted E code m) /\
  allCode (submitted E code m) = allCode m ++ newline ++ code /\
  statements (submitted E code m) = parseCodeIntoStatements E code /\
  currentStatementIndex (submitted E code m) = 0 /\
  allCode (snd (execute E now code m)) = allCode m ++ newline ++ code /\
  statements (snd (execute E now code m)) = parseCodeIntoStatements E code /\
  (forall state fetchRequest,
      fst (execute E now code m) = Returned (Paused state fetchRequest) ->
      VMState.code state = allCode m ++ newline ++ code /\
      VMState.statements state = parseCodeIntoStatements E code).
Proof.
  repeat (split; [reflexivity|]).
  unfold execute. fold (submitted E code m).
  destruct (executeNextStatement E now (submitted E code m)) as [o m'] eqn:Hrun.
  pose proof Hrun as Hscript. unfold executeNextStatement in Hscript.
  apply runStatements_script in Hscript. destruct Hscript as (A & B). simpl.
  split; [exact A|]. split; [exact B|].
  intros state fetchRequest Ho. subst o.
  apply executeNextStatement_paused_script in Hrun. exact Hrun.
Qed.
End Submissions.

(** ** Parser failure *)

(** C9. When the parser fails on the submitted source, segmentation answers
    the one-element list that holds the whole source, and [execute] goes on
    to evaluate exactly that text: its outcome is decided by what the
    interpreter answers for the source, an evaluation error being reported
    as such. *)
Theorem parser_failure_fails_soft (E : Engine) (now : nat -> Z) (code : string)
    (m : SequentialFetchVM E) :
  acornParse E code = None ->
  parseCodeIntoStatements E code = [code] /\
  execute E now code m =
  match vmEval E now code (submitted E code m) with
  | (EvalError e, m1) => (Thrown (ScriptError (dump e)), m1)
  | (EvalValue v, m1) =>
      match isPauseMarker (dump v) with
      | Some _ => pauseExecution E now m1
      | None => (Returned (Completed (dump v)), advance E m1)
      end
  end.
Proof.
  intros Hparse.
  assert (Hsegment : parseCodeIntoStatements E code = [code]).
  { unfold parseCodeIntoStatements. rewrite Hparse. reflexivity. }
  split; [exact Hsegment|].
  assert (Htransform : transformStatement E code = code).
  { unfold transformStatement, extractVariableNames. rewrite Hparse. reflexivity. }
  unfold execute. fold (submitted E code m).
  unfold executeNextStatement. rewrite runStatements_eq.
  assert (Hst : statements (submitted E code m) = [code]) by exact Hsegment.
  rewrite Hst. simpl nth_error. cbv iota zeta. rewrite Htransform.
  destruct (vmEval E now code (submitted E code m)) as [[v|e] m1] eqn:Hev;
    [|reflexivity].
  apply vmEval_sameScript in Hev. destruct Hev as (_ & B & C).
  unfold findPauseMarker, extractVariableNames. rewrite Hparse.
  destruct (isPauseMarker (dump v)); [reflexivity|].
  simpl. rewrite B, C, Hst. reflexivity.
Qed.

(** ** Repeated runs *)

Section Sessions.
Variable E : Engine.
Variable now : nat -> Z.

(** [resume] reads nothing of the response but its [data]. *)
Lemma resume_data state r1 r2 (m : SequentialFetchVM E) :
  FetchResponse.data r1 = FetchResponse.data r2 ->
  resume E now state r1 m = resume E now state r2 m.
Proof.
  intros Hdata. unfold resume, replayStatement. rewrite Hdata. reflexivity.
Qed.

Lemma requestUrlsFrom_data rs1 :
  forall rs2 o reads,
    map FetchResponse.data rs1 = map FetchResponse.data rs2 ->
    requestUrlsFrom E now rs1 o reads = requestUrlsFrom E now rs2 o reads.
Proof.
  induction rs1 as [|r1 rs1 IH]; intros [|r2 rs2] o reads Hdata;
    try discriminate; [reflexivity|].
  simpl in Hdata. inversion Hdata as [[Hd Hrest]].
  destruct o as [[result|state fetchRequest]|e]; simpl; try reflexivity.
  f_equal. unfold resumeExecution. rewrite (resume_data state r1 r2 _ Hd).
  destruct (resume E now state r2 (initialize E reads)) as [o' m'].
  apply IH. assumption.
Qed.
End Sessions.

(** ** The scenarios *)

Import Scenarios.

Example rewrite_const :
  rewriteDeclarations ["post"] "const post = fetch(1); post"
  = "globalThis.post = fetch(1); post".
Proof. reflexivity. Qed.

Example rewrite_two_declarators :
  rewriteDeclarations ["a"; "b"] "var a = fetch(1), b = 2"
  = "globalThis.a = fetch(1), b = 2".
Proof. reflexivity. Qed.

Example rewrite_dollar :
  rewriteDeclarations ["$x"] "var $x = fetch(1)" = "var $x = fetch(1)".
Proof. reflexivity. Qed.

Example replace_fetch :
  replaceFetchCalls 0 "y = fetch(1) + fetch() + fetch(f(2))"
  = "y = globalThis.__currentFetchData + fetch() + globalThis.__currentFetchData)".
Proof. reflexivity. Qed.

Example segments_A :
  parseCodeIntoStatements MiniJS.engine sourceA
  = ["x = 1;"; "y = fetch(" ++ quoted "https://x/1" ++ ");"; "y;"].
Proof. reflexivity. Qed.

(** A pair is its first component and its second. *)
Lemma pair_of_fst {A B : Type} (p : A * B) (a : A) :
  fst p = a -> p = (a, snd p).
Proof. intros <-. apply surjective_pairing. Qed.

(** The outcome of [resumeExecution] is the one of [resume] on a new
    instance. *)
Lemma resumeExecution_outcome (E : Engine) (now : nat -> Z) (state : VMState.t)
    (fetchResponse : FetchResponse.t) (reads : nat) :
  fst (resumeExecution E now state fetchResponse reads)
  = fst (resume E now state fetchResponse (initialize E reads)).
Proof.
  unfold resumeExecution.
  destruct (resume E now state fetchResponse (initialize E reads)). reflexivity.
Qed.

(** *** The lexer on texts with holes *)

Lemma append_assoc (a b c : string) : (a ++ b) ++ c = a ++ (b ++ c).
Proof. induction a; simpl; congruence. Qed.

Lemma append_empty (s : string) : s ++ EmptyString = s.
Proof. induction s; simpl; congruence. Qed.

Lemma length_app (a b : string) :
  String.length (a ++ b) = (String.length a + String.length b)%nat.
Proof. induction a; simpl; congruence. Qed.

Lemma plain_app (a b : string) :
  plain a = true -> plain b = true -> plain (a ++ b) = true.
Proof.
  induction a as [|c a IH]; simpl; intros Ha Hb; [assumption|].
  apply andb_true_iff in Ha. destruct Ha as (Hc & Ha).
  rewrite Hc. simpl. apply IH; assumption.
Qed.

Lemma plain_uint (d : Decimal.uint) : plain (NilEmpty.string_of_uint d) = true.
Proof. induction d; simpl; try assumption; reflexivity. Qed.

(** A number in decimal is plain. *)
Lemma showZ_plain (z : Z) : plain (showZ z) = true.
Proof.
  unfold showZ, NilZero.string_of_int.
  destruct (Z.to_int z) as [d|d]; unfold NilZero.string_of_uint.
  - destruct d; try reflexivity; apply plain_uint.
  - destruct d; try reflexivity;
      match goal with
      | |- plain (String _ ?t) = true => change (plain t = true); apply plain_uint
      end.
Qed.

(** So is every request id. *)
Lemma requestId_plain (t : Z) (n : nat) : plain (requestIdOf t n) = true.
Proof.
  unfold requestIdOf, showNat.
  apply (plain_app "fetch_"); [reflexivity|].
  apply plain_app; [apply showZ_plain|].
  apply (plain_app "_"); [reflexivity|apply showZ_plain].
Qed.

Lemma plainChar_facts (c : ascii) :
  plainChar c = true ->
  Ascii.eqb c (ascii_of_nat 34) = false /\ Ascii.eqb c backslash = false /\
  (nat_of_ascii c =? 10)%nat = false /\ (nat_of_ascii c =? 13)%nat = false.
Proof.
  unfold plainChar. intros H.
  apply andb_true_iff in H. destruct H as (H & H92).
  apply andb_true_iff in H. destruct H as (H32 & H34).
  apply Nat.leb_le in H32. apply negb_true_iff, Nat.eqb_neq in H34, H92.
  repeat split.
  - apply Ascii.eqb_neq. intros ->. apply H34. reflexivity.
  - apply Ascii.eqb_neq. intros ->. apply H92. reflexivity.
  - apply Nat.eqb_neq. lia.
  - apply Nat.eqb_neq. lia.
Qed.

Lemma escapeChar_plain (c : ascii) :
  plainChar c = true -> escapeChar c = String c EmptyString.
Proof.
  unfold plainChar, escapeChar. intros H.
  apply andb_true_iff in H. destruct H as (H & H92).
  apply andb_true_iff in H. destruct H as (H32 & H34).
  apply Nat.leb_le in H32. apply negb_true_iff in H34, H92.
  rewrite H34, H92.
  repeat match goal with
         | |- context [(nat_of_ascii c =? ?n)%nat] =>
             replace (nat_of_ascii c =? n)%nat with false
               by (symmetry; apply Nat.eqb_neq; lia)
         end.
  replace (nat_of_ascii c <? 32)%nat with false
    by (symmetry; apply Nat.ltb_ge; lia).
  reflexivity.
Qed.

(** [JSON.stringify] leaves a plain string as it is between the quotes. *)
Lemma escapeString_plain (s : string) : plain s = true -> escapeString s = s.
Proof.
  induction s as [|c s IH]; simpl; intros H; [reflexivity|].
  apply andb_true_iff in H. destruct H as (Hc & Hs).
  rewrite (escapeChar_plain c Hc), IH by assumption. reflexivity.
Qed.

Lemma snoc_app (acc : string) (c : ascii) (s : string) :
  MiniJS.snoc acc c ++ s = acc ++ String c s.
Proof. unfold MiniJS.snoc. induction acc; simpl; congruence. Qed.

(** The lexer on a text in two parts. *)
Lemma lex_app (a : string) :
  forall st pos b,
    MiniJS.lex st pos (a ++ b) =
    match MiniJS.lexRun st pos a with
    | Some (ts, st', pos') =>
        match MiniJS.lex st' pos' b with
        | Some l => Some (ts ++ l)%list
        | None => None
        end
    | None => None
    end.
Proof.
  induction a as [|c a IH]; intros st pos b; simpl.
  - destruct (MiniJS.lex st pos b); reflexivity.
  - destruct (MiniJS.lexStep st pos c) as [[ts st']|]; [|reflexivity].
    rewrite IH. destruct (MiniJS.lexRun st' (S pos) a) as [[[r st''] pos']|];
      [|reflexivity].
    destruct (MiniJS.lex st'' pos' b); [|reflexivity].
    rewrite app_assoc. reflexivity.
Qed.

(** Inside a double-quoted literal a plain string is taken over whole. *)
Lemma lexRun_plain (s : string) :
  forall start acc pos,
    plain s = true ->
    MiniJS.lexRun (MiniJS.LxString (ascii_of_nat 34) start acc) pos s
    = Some ([], MiniJS.LxString (ascii_of_nat 34) start (acc ++ s),
            pos + String.length s).
Proof.
  induction s as [|c s IH]; intros start acc pos Hs.
  - simpl. rewrite Nat.add_0_r, append_empty. reflexivity.
  - simpl in Hs. apply andb_true_iff in Hs. destruct Hs as (Hc & Hs).
    destruct (plainChar_facts c Hc) as (A & B & C & D).
    cbn [MiniJS.lexRun MiniJS.lexStep]. rewrite A, B, C, D. cbn [orb].
    rewrite IH by assumption. rewrite snoc_app.
    cbn [String.length app]. rewrite Nat.add_succ_r. reflexivity.
Qed.

Lemma lexSegments_sound (l : list segment) :
  forall st pos ts,
    holesPlain l ->
    lexSegments st pos l = Some ts ->
    MiniJS.lex st pos (flatten l) = Some ts.
Proof.
  induction l as [|[s|s] l IH]; intros st pos ts Hl; simpl.
  - trivial.
  - rewrite lex_app.
    destruct (MiniJS.lexRun st pos s) as [[[ts0 st'] pos']|]; [|discriminate].
    destruct (lexSegments st' pos' l) as [ts'|] eqn:Hrest; [|discriminate].
    rewrite (IH _ _ _ Hl Hrest). trivial.
  - destruct Hl as (Hs & Hl).
    destruct st as [| | |q start acc|]; try discriminate.
    destruct (Ascii.eqb_spec q (ascii_of_nat 34)) as [->|]; [|discriminate].
    intros Hrest. rewrite lex_app, lexRun_plain by exact Hs.
    rewrite (IH _ _ _ Hl Hrest). reflexivity.
Qed.

(** Evaluation of a text with plain holes goes through the tokens that
    [lexSegments] computes without reading the holes. *)
Lemma evalCode_flatten (l : list segment) (ts : list MiniJS.ptoken)
    (fetch : HostFunction MiniJS.ctx) (c : MiniJS.ctx) (h : HostState) :
  holesPlain l ->
  lexSegments MiniJS.LxIdle 0 l = Some ts ->
  String.eqb (flatten l) captureCode = false ->
  MiniJS.evalCode fetch (flatten l) c h =
  match MiniJS.parseProgram (8 * length ts + 8) ts with
  | Some prog => MiniJS.evalProgram fetch prog VUndefined c h
  | None => (EvalError (MiniJS.exception "SyntaxError" "unexpected token"), c, h)
  end.
Proof.
  intros Hl Hts Hcode. unfold MiniJS.evalCode, MiniJS.parse, MiniJS.tokenize.
  rewrite Hcode, (lexSegments_sound l _ _ ts Hl Hts). reflexivity.
Qed.

(** Evaluates [flatten l] on the tokens of the segments [l]. *)
Ltac eval_segments l :=
  let ts := eval vm_compute in (lexSegments MiniJS.LxIdle 0 l) in
  match ts with
  | Some ?ts' =>
      rewrite (evalCode_flatten l ts');
      [vm_compute; reflexivity | simpl; tauto | vm_compute; reflexivity
       | reflexivity]
  end.

Lemma storeCode_segments (rid url : string) :
  storeCode rid url "{}" = flatten (storeSegments rid url).
Proof. reflexivity. Qed.

(** The store code of the interceptor, for a plain id and a plain URL and
    no options, writes the descriptor into the reserved slot. *)
Lemma evalCode_store (fetch : HostFunction MiniJS.ctx) (rid url : string)
    (c : MiniJS.ctx) (h : HostState) :
  plain rid = true -> plain url = true ->
  MiniJS.evalCode fetch (storeCode rid url "{}") c h
  = (EvalValue (slotOf rid url),
     MiniJS.setProp "__fetchPause" (slotOf rid url) c, h).
Proof.
  intros Hrid Hurl. rewrite storeCode_segments.
  eval_segments (storeSegments rid url).
Qed.

Lemma snapshot_text (rid : string) :
  plain rid = true ->
  stringifiedText (JSON_stringify (VObj (snapshotVars rid)))
  = Some (flatten (jsonSegments rid)).
Proof.
  intros H. unfold JSON_stringify.
  change (stringifyThrows (VObj (snapshotVars rid))) with false. cbv iota.
  unfold snapshotVars. cbn [jsonText flat_map snd fst app join].
  unfold quoteString at 4.
  rewrite (escapeString_plain (pauseMarker ++ rid))
    by (apply (plain_app pauseMarker); [reflexivity|assumption]).
  cbn [stringifiedText]. f_equal.
  rewrite !append_assoc. reflexivity.
Qed.

Lemma restoreCode_flatten (rid : string) :
  restoreCode (flatten (jsonSegments rid)) = flatten (restoreSegments rid).
Proof.
  unfold restoreCode, jsonSegments, restoreSegments. cbn [flatten].
  rewrite !append_assoc. reflexivity.
Qed.

(** The restore code of the snapshot of scenario A assigns its bindings,
    on a new global object and on the one of the paused instance. *)
Lemma restore_eval_fresh (fetch : HostFunction MiniJS.ctx) (rid : string)
    (h : HostState) :
  plain rid = true ->
  MiniJS.evalCode fetch (restoreCode (flatten (jsonSegments rid))) MiniJS.fresh h
  = (EvalValue (VObj (MiniJS.assignProps MiniJS.fresh (snapshotVars rid))),
     MiniJS.assignProps MiniJS.fresh (snapshotVars rid), h).
Proof.
  intros Hrid. rewrite restoreCode_flatten.
  eval_segments (restoreSegments rid).
Qed.

Lemma restore_eval_paused (fetch : HostFunction MiniJS.ctx) (rid : string)
    (h : HostState) :
  plain rid = true ->
  MiniJS.evalCode fetch (restoreCode (flatten (jsonSegments rid))) (contextA2 rid) h
  = (EvalValue (VObj (MiniJS.assignProps (contextA2 rid) (snapshotVars rid))),
     MiniJS.assignProps (contextA2 rid) (snapshotVars rid), h).
Proof.
  intros Hrid. rewrite restoreCode_flatten.
  eval_segments (restoreSegments rid).
Qed.

(** *** Runs of the concrete engine, one evaluation at a time *)

Section MiniRuns.
Variable now : nat -> Z.

Local Abbreviation E := MiniJS.engine.
Local Abbreviation F := (fetchFunc MiniJS.engine now 8).

(** A call of the interceptor with a plain URL and no options. *)
Lemma fetch_call (depth : nat) (url : string) (c : MiniJS.ctx) (h : HostState) :
  plain url = true ->
  let rid := requestIdOf (now (clockReads h)) (S (fetchCounter h)) in
  fetchFunc E now (S depth) [VStr url] c h
  = (EvalValue (VStr (pauseMarker ++ rid)),
     MiniJS.setProp "__fetchPause" (slotOf rid url) c,
     mkHost (S (fetchCounter h)) (S (clockReads h))).
Proof.
  intros Hurl rid. cbn [fetchFunc].
  change (dump (VStr url)) with (VStr url). cbn [ToString].
  change (stringifiedText (JSON_stringify (VObj []))) with (Some "{}").
  cbv iota beta.
  change (evalCode E) with MiniJS.evalCode.
  fold rid.
  rewrite (evalCode_store _ rid url) by (try apply requestId_plain; assumption).
  reflexivity.
Qed.

Lemma vmEval_mini code c h a s i :
  vmEval E now code (miniVM c h a s i)
  = (fst (fst (MiniJS.evalCode F code c h)),
     miniVM (snd (fst (MiniJS.evalCode F code c h)))
            (snd (MiniJS.evalCode F code c h)) a s i).
Proof.
  unfold vmEval, miniVM. cbn [vm host evalCode callDepth MiniJS.engine].
  destruct (MiniJS.evalCode F code c h) as [[r c'] h']. reflexivity.
Qed.

Lemma statements_mini c h a s i : statements (miniVM c h a s i) = s.
Proof. reflexivity. Qed.

Lemma cursor_mini c h a s i : currentStatementIndex (miniVM c h a s i) = i.
Proof. reflexivity. Qed.

Lemma advance_mini c h a s i : advance E (miniVM c h a s i) = miniVM c h a s (S i).
Proof. reflexivity. Qed.

Lemma findPauseMarker_no_names value statement (m : SequentialFetchVM E) :
  extractVariableNames E statement = [] ->
  findPauseMarker E now value statement m = (isPauseMarker value, m).
Proof.
  intros Hnames. unfold findPauseMarker. rewrite Hnames.
  destruct (isPauseMarker value); reflexivity.
Qed.

(** The statement under the cursor evaluates without a marker and is not
    the last one: the loop goes on behind it. *)
Lemma run_advance fuel c h a s i original code v c' h' :
  nth_error s i = Some original ->
  transformStatement E original = code ->
  extractVariableNames E code = [] ->
  MiniJS.evalCode F code c h = (EvalValue v, c', h') ->
  isPauseMarker (dump v) = None ->
  (S i < length s)%nat ->
  runStatements E now (S fuel) (miniVM c h a s i)
  = runStatements E now fuel (miniVM c' h' a s (S i)).
Proof.
  intros Hnth Hcode Hnames Heval Hmark Hlt.
  rewrite runStatements_eq, statements_mini, cursor_mini, Hnth.
  cbv zeta. rewrite Hcode, vmEval_mini, Heval. cbn [fst snd].
  rewrite (findPauseMarker_no_names _ _ _ Hnames), Hmark.
  rewrite advance_mini, statements_mini, cursor_mini.
  replace (length s <=? S i)%nat with false
    by (symmetry; apply Nat.leb_gt; assumption).
  reflexivity.
Qed.

(** It is the last one: the run completes with its value. *)
Lemma run_last fuel c h a s i original code v c' h' :
  nth_error s i = Some original ->
  transformStatement E original = code ->
  extractVariableNames E code = [] ->
  MiniJS.evalCode F code c h = (EvalValue v, c', h') ->
  isPauseMarker (dump v) = None ->
  (length s <= S i)%nat ->
  runStatements E now fuel (miniVM c h a s i)
  = (Returned (Completed (dump v)), miniVM c' h' a s (S i)).
Proof.
  intros Hnth Hcode Hnames Heval Hmark Hle.
  rewrite runStatements_eq, statements_mini, cursor_mini, Hnth.
  cbv zeta. rewrite Hcode, vmEval_mini, Heval. cbn [fst snd].
  rewrite (findPauseMarker_no_names _ _ _ Hnames), Hmark.
  rewrite advance_mini, statements_mini, cursor_mini.
  replace (length s <=? S i)%nat with true
    by (symmetry; apply Nat.leb_le; assumption).
  reflexivity.
Qed.

(** Its value is a marker: the run pauses there. *)
Lemma run_pause fuel c h a s i original code v c' h' marker :
  nth_error s i = Some original ->
  transformStatement E original = code ->
  MiniJS.evalCode F code c h = (EvalValue v, c', h') ->
  isPauseMarker (dump v) = Some marker ->
  runStatements E now fuel (miniVM c h a s i)
  = pauseExecution E now (miniVM c' h' a s i).
Proof.
  intros Hnth Hcode Heval Hmark.
  rewrite runStatements_eq, statements_mini, cursor_mini, Hnth.
  cbv zeta. rewrite Hcode, vmEval_mini, Heval. cbn [fst snd].
  unfold findPauseMarker. rewrite Hmark. reflexivity.
Qed.

(** A snapshot on the concrete engine, from what the capture program
    answers; the capture leaves the interpreter as it is. *)
Lemma getCurrentState_mini c h a s i g :
  MiniJS.evalCode F captureCode c h = (EvalValue g, c, h) ->
  getCurrentState E now (miniVM c h a s i)
  = (VMState.mk ("state_" ++ showZ (now (clockReads h))) a (dumpProps g)
                (now (S (clockReads h))) i s,
     miniVM c (mkHost (fetchCounter h) (S (S (clockReads h)))) a s i).
Proof.
  intros Hcap. unfold getCurrentState. rewrite vmEval_mini, Hcap. reflexivity.
Qed.

Lemma pause_outcome c h a s i v c' h' i0 u o g :
  MiniJS.evalCode F "globalThis.__fetchPause" c h = (EvalValue v, c', h') ->
  getProp "id" (dump v) = Some i0 ->
  getProp "url" (dump v) = Some u ->
  getProp "options" (dump v) = Some o ->
  MiniJS.evalCode F captureCode c' (mkHost (fetchCounter h') (S (clockReads h')))
  = (EvalValue g, c', mkHost (fetchCounter h') (S (clockReads h'))) ->
  pauseExecution E now (miniVM c h a s i)
  = (Returned (Paused (VMState.mk ("state_" ++ showZ (now (S (clockReads h'))))
                                  a (dumpProps g)
                                  (now (S (S (clockReads h')))) i s)
                      (FetchRequest.mk i0 u o (now (clockReads h')))),
     miniVM c' (mkHost (fetchCounter h') (S (S (S (clockReads h'))))) a s i).
Proof.
  intros Heval Hid Hurl Hopts Hcap. unfold pauseExecution.
  rewrite vmEval_mini, Heval. cbn [fst snd].
  rewrite Hid, Hurl, Hopts.
  change (withContext E (miniVM c' h' a s i) (vm (miniVM c' h' a s i))
            (tick (host (miniVM c' h' a s i))))
    with (miniVM c' (mkHost (fetchCounter h') (S (clockReads h'))) a s i).
  rewrite (getCurrentState_mini _ _ a s i g Hcap). reflexivity.
Qed.

Lemma restore_mini state c h a s i p ps text r0 c0 h0 :
  VMState.variables state = p :: ps ->
  stringifiedText (JSON_stringify (VObj (VMState.variables state))) = Some text ->
  MiniJS.evalCode F (restoreCode text) c h = (r0, c0, h0) ->
  restoreState E now state (miniVM c h a s i)
  = (None, miniVM c0 h0 (VMState.code state) (VMState.statements state)
                  (VMState.currentStatementIndex state)).
Proof.
  intros Hvars Htext Hrestore. unfold restoreState, miniVM. cbn [vm host].
  rewrite Htext, Hvars.
  fold (miniVM c h (VMState.code state) (VMState.statements state)
               (VMState.currentStatementIndex state)).
  rewrite vmEval_mini, Hrestore. reflexivity.
Qed.

(** The replay of [resume], from the evaluations that it makes. *)
Lemma replay_outcome state response c h a s i p ps text r0 c0 h0 dataText
      v1 c1 h1 current code v c2 h2 r3 c3 h3 :
  VMState.variables state = p :: ps ->
  stringifiedText (JSON_stringify (VObj (VMState.variables state))) = Some text ->
  MiniJS.evalCode F (restoreCode text) c h = (r0, c0, h0) ->
  stringifiedText (JSON_stringify (FetchResponse.data response)) = Some dataText ->
  MiniJS.evalCode F (injectCode dataText) c0 h0 = (EvalValue v1, c1, h1) ->
  nth_error (VMState.statements state) (VMState.currentStatementIndex state)
  = Some current ->
  transformForResume E current = code ->
  MiniJS.evalCode F code c1 h1 = (EvalValue v, c2, h2) ->
  MiniJS.evalCode F clearCode c2 h2 = (r3, c3, h3) ->
  replayStatement E now state response (miniVM c h a s i)
  = (inr (dump v),
     miniVM c3 h3 (VMState.code state) (VMState.statements state)
            (S (VMState.currentStatementIndex state))).
Proof.
  intros Hvars Htext Hrestore Hdata Hinject Hnth Hcode Hreplay Hclear.
  unfold replayStatement.
  rewrite (restore_mini state c h a s i p ps text r0 c0 h0 Hvars Htext Hrestore).
  rewrite Hdata.
  rewrite vmEval_mini, Hinject. cbn [fst snd].
  rewrite statements_mini, cursor_mini, Hnth, Hcode.
  rewrite vmEval_mini, Hreplay. cbn [fst snd].
  rewrite advance_mini, vmEval_mini, Hclear. reflexivity.
Qed.

(** The second statement of scenario A hands the URL to the interceptor and
    binds what it answers. *)
Lemma eval_statementA2 (fetch : HostFunction MiniJS.ctx) h v c' h' :
  fetch [VStr "https://x/1"] contextA1 h = (EvalValue v, c', h') ->
  MiniJS.evalCode fetch statementA2 contextA1 h
  = (EvalValue v, MiniJS.setProp "y" v c', h').
Proof.
  intros H.
  assert (G : forall r, fetch [VStr "https://x/1"] contextA1 h = r ->
              MiniJS.evalCode fetch statementA2 contextA1 h =
              match r with
              | (EvalValue v, c', h') => (EvalValue v, MiniJS.setProp "y" v c', h')
              | (EvalError e, c', h') => (EvalError e, c', h')
              end).
  { intros r <-. vm_compute.
    match goal with
    | |- context [fetch ?a ?b ?c] => destruct (fetch a b c) as [[[x|x] y] z]
    end; reflexivity. }
  rewrite (G _ H). reflexivity.
Qed.

(** [execute] on scenario A, at any time. *)
Lemma execute_A (reads : nat) :
  let rid := requestIdOf (now reads) 1 in
  execute E now sourceA (initialize E reads)
  = (Returned
       (Paused (VMState.mk ("state_" ++ showZ (now (S (S reads))))
                           (newline ++ sourceA) (snapshotVars rid)
                           (now (S (S (S reads)))) 1
                           [statementA1; statementA2; statementA3])
               (FetchRequest.mk (VStr rid) (VStr "https://x/1") (VObj [])
                                (now (S reads)))),
     miniVM (contextA2 rid) (mkHost 1 (S (S (S (S reads))))) (newline ++ sourceA)
            [statementA1; statementA2; statementA3] 1).
Proof.
  intros rid.
  unfold execute, executeNextStatement, initialize.
  cbn [statements vm host allCode].
  replace (parseCodeIntoStatements E sourceA)
    with [statementA1; statementA2; statementA3] by (vm_compute; reflexivity).
  cbn [length append].
  fold (miniVM MiniJS.fresh (mkHost 0 reads) (newline ++ sourceA)
               [statementA1; statementA2; statementA3] 0).
  rewrite (run_advance 2 _ _ _ _ 0 statementA1 statementA1 (VNum 1) contextA1
             (mkHost 0 reads));
    [ | vm_compute; reflexivity | vm_compute; reflexivity | vm_compute; reflexivity
      | vm_compute; reflexivity | vm_compute; reflexivity | cbn; lia ].
  rewrite (run_pause 2 _ _ _ _ 1 statementA2 statementA2
             (VStr (pauseMarker ++ rid)) (contextA2 rid) (mkHost 1 (S reads))
             (pauseMarker ++ rid));
    [ | vm_compute; reflexivity | vm_compute; reflexivity
      | apply eval_statementA2;
        apply (fetch_call 7 "https://x/1" contextA1 (mkHost 0 reads)); reflexivity
      | vm_compute; reflexivity ].
  rewrite (pause_outcome (contextA2 rid) _ _ _ _ (slotOf rid "https://x/1")
             (contextA2 rid) (mkHost 1 (S reads))
             (VStr rid) (VStr "https://x/1") (VObj [])
             (VObj (collectGlobals (contextA2 rid))));
    [ | vm_compute; reflexivity ..].
  cbn [clockReads fetchCounter].
  replace (dumpProps (VObj (collectGlobals (contextA2 rid)))) with (snapshotVars rid)
    by (vm_compute; reflexivity).
  reflexivity.
Qed.

(** [resume] of a snapshot of scenario A with the data 42, into a machine
    whose global object [c] takes the restore code as written. *)
Lemma resume_A (rid id : string) (timestamp : Z) (response : FetchResponse.t)
    (c : MiniJS.ctx) (h : HostState) (a : string) (s : list string) (i : nat) :
  plain rid = true ->
  FetchResponse.data response = VNum 42 ->
  MiniJS.evalCode F (restoreCode (flatten (jsonSegments rid))) c h
  = (EvalValue (VObj (MiniJS.assignProps c (snapshotVars rid))),
     MiniJS.assignProps c (snapshotVars rid), h) ->
  MiniJS.evalCode F "y = globalThis.__currentFetchData;"
    (MiniJS.setProp "__currentFetchData" (VNum 42)
       (MiniJS.assignProps c (snapshotVars rid))) h
  = (EvalValue (VNum 42),
     MiniJS.setProp "y" (VNum 42)
       (MiniJS.setProp "__currentFetchData" (VNum 42)
          (MiniJS.assignProps c (snapshotVars rid))), h) ->
  MiniJS.evalCode F statementA3 (contextAfterReplay rid c) h
  = (EvalValue (VNum 42), contextAfterReplay rid c, h) ->
  fst (resume E now
         (VMState.mk id (newline ++ sourceA) (snapshotVars rid) timestamp 1
                     [statementA1; statementA2; statementA3])
         response (miniVM c h a s i))
  = Returned (Completed (VNum 42)).
Proof.
  intros Hrid Hdata Hrestore Hreplay Hlast. unfold resume.
  rewrite (replay_outcome _ response c h a s i
             ("Reflect", VObj []) [("x", VNum 1); ("y", VStr (pauseMarker ++ rid))]
             (flatten (jsonSegments rid))
             (EvalValue (VObj (MiniJS.assignProps c (snapshotVars rid))))
             (MiniJS.assignProps c (snapshotVars rid)) h
             "42" (VNum 42)
             (MiniJS.setProp "__currentFetchData" (VNum 42)
                (MiniJS.assignProps c (snapshotVars rid))) h
             statementA2 "y = globalThis.__currentFetchData;" (VNum 42)
             (MiniJS.setProp "y" (VNum 42)
                (MiniJS.setProp "__currentFetchData" (VNum 42)
                   (MiniJS.assignProps c (snapshotVars rid)))) h
             (EvalValue (VBool true)) (contextAfterReplay rid c) h);
    [ | reflexivity
      | apply snapshot_text; exact Hrid
      | exact Hrestore
      | rewrite Hdata; reflexivity
      | vm_compute; reflexivity
      | reflexivity
      | vm_compute; reflexivity
      | exact Hreplay
      | vm_compute; reflexivity ].
  rewrite statements_mini, cursor_mini.
  cbn [VMState.statements VMState.currentStatementIndex VMState.code].
  replace (2 <? length [statementA1; statementA2; statementA3])%nat with true
    by reflexivity.
  unfold executeNextStatement. rewrite statements_mini.
  rewrite (run_last _ _ _ _ _ 2 statementA3 statementA3 (VNum 42)
             (contextAfterReplay rid c) h);
    [ reflexivity | vm_compute; reflexivity | vm_compute; reflexivity
      | vm_compute; reflexivity | exact Hlast | vm_compute; reflexivity
      | cbn; lia ].
Qed.
End MiniRuns.

(** *** Reading JSON texts *)

Lemma prepend_app (a b : list MiniJS.ptoken) (o : option (list MiniJS.ptoken)) :
  prepend a (prepend b o) = prepend (a ++ b) o.
Proof. destruct o; simpl; [rewrite app_assoc|]; reflexivity. Qed.

Lemma prepend_nil (o : option (list MiniJS.ptoken)) : prepend [] o = o.
Proof. destruct o; reflexivity. Qed.

(** The lexer on a text in two parts, the second part as a continuation. *)
Lemma lex_prepend (a : string) (st : MiniJS.lexState) (pos : nat) (b : string)
    ts st' pos' :
  MiniJS.lexRun st pos a = Some (ts, st', pos') ->
  MiniJS.lex st pos (a ++ b) = prepend ts (MiniJS.lex st' pos' b).
Proof. intros H. rewrite lex_app, H. reflexivity. Qed.

Lemma lexRun_app (a : string) :
  forall st pos b,
    MiniJS.lexRun st pos (a ++ b) =
    match MiniJS.lexRun st pos a with
    | Some (ts, st', pos') =>
        match MiniJS.lexRun st' pos' b with
        | Some (ts2, st2, pos2) => Some ((ts ++ ts2)%list, st2, pos2)
        | None => None
        end
    | None => None
    end.
Proof.
  induction a as [|c a IH]; intros st pos b; simpl.
  - destruct (MiniJS.lexRun st pos b) as [[[ts2 st2] pos2]|]; reflexivity.
  - destruct (MiniJS.lexStep st pos c) as [[ts st']|]; [|reflexivity].
    rewrite IH. destruct (MiniJS.lexRun st' (S pos) a) as [[[r st''] pos']|];
      [|reflexivity].
    destruct (MiniJS.lexRun st'' pos' b) as [[[ts2 st2] pos2]|]; [|reflexivity].
    rewrite app_assoc. reflexivity.
Qed.

Lemma identPart_facts (c : ascii) :
  MiniJS.isIdentPart c = false ->
  MiniJS.isDigit c = false /\ Ascii.eqb c "n" = false.
Proof.
  destruct c as [[] [] [] [] [] [] [] []]; vm_compute; intros H;
    try discriminate H; split; reflexivity.
Qed.

(** A word and a number end where a delimited text starts. *)
Lemma lex_word_end (start : nat) (acc : string) (pos : nat) (rest : string) :
  delimited rest = true ->
  MiniJS.lex (MiniJS.LxWord start acc) pos rest
  = prepend [(MiniJS.TIdent acc, start, pos)] (MiniJS.lex MiniJS.LxIdle pos rest).
Proof.
  destruct rest as [|c r]; [reflexivity|].
  cbn [delimited]. intros H. apply negb_true_iff in H.
  cbn [MiniJS.lex MiniJS.lexStep]. rewrite H.
  destruct (MiniJS.startToken c pos) as [[ts st']|]; [|reflexivity].
  destruct (MiniJS.lex st' (S pos) r); reflexivity.
Qed.

Lemma lex_digits_end (start : nat) (acc : Z) (pos : nat) (rest : string) :
  delimited rest = true ->
  MiniJS.lex (MiniJS.LxDigits start acc) pos rest
  = prepend [(MiniJS.TNum acc, start, pos)] (MiniJS.lex MiniJS.LxIdle pos rest).
Proof.
  destruct rest as [|c r]; [reflexivity|].
  cbn [delimited]. intros H. apply negb_true_iff in H.
  destruct (identPart_facts c H) as (Hd & Hn).
  cbn [MiniJS.lex MiniJS.lexStep]. rewrite Hd, Hn.
  destruct (MiniJS.startToken c pos) as [[ts st']|]; [|reflexivity].
  destruct (MiniJS.lex st' (S pos) r); reflexivity.
Qed.

(** The digits of a number. *)
Lemma lexRun_uint (d : Decimal.uint) :
  forall start acc pos,
    MiniJS.lexRun (MiniJS.LxDigits start acc) pos (NilEmpty.string_of_uint d)
    = Some ([], MiniJS.LxDigits start (uintValue d acc),
            String.length (NilEmpty.string_of_uint d) + pos).
Proof.
  induction d; intros start acc pos; [reflexivity|..];
    cbn [NilEmpty.string_of_uint MiniJS.lexRun uintValue String.length];
    match goal with
    | |- context [MiniJS.lexStep ?st pos ?c] =>
        change (MiniJS.lexStep st pos c)
          with (Some (@nil MiniJS.ptoken,
                      MiniJS.LxDigits start (acc * 10 + MiniJS.digitValue c)%Z))
    end;
    cbv beta iota; rewrite IHd; cbn [app]; rewrite Nat.add_succ_r; reflexivity.
Qed.

Lemma uintValue_pos (d : Decimal.uint) :
  forall acc, uintValue d (Z.pos acc) = Z.pos (Pos.of_uint_acc d acc).
Proof.
  induction d; intros acc; cbn [uintValue Pos.of_uint_acc]; [reflexivity|..];
    rewrite <- IHd; f_equal; lia.
Qed.

Lemma uintValue_zero (d : Decimal.uint) : uintValue d 0 = Z.of_N (Pos.of_uint d).
Proof.
  induction d; cbn [uintValue Pos.of_uint]; [reflexivity|assumption|..];
    cbn [Z.mul Z.add Z.of_N]; apply uintValue_pos.
Qed.

Lemma showZ_digits (n : Z) :
  (0 <= n)%Z ->
  exists d, d <> Decimal.Nil /\ showZ n = NilEmpty.string_of_uint d /\
            uintValue d 0 = n.
Proof.
  intros Hn. destruct n as [|p|p]; [| |lia].
  - exists (Decimal.D0 Decimal.Nil). repeat split. discriminate.
  - exists (Pos.to_uint p).
    assert (Hne : Pos.to_uint p <> Decimal.Nil).
    { intros H. pose proof (DecimalPos.Unsigned.of_to p) as Hp.
      rewrite H in Hp. discriminate Hp. }
    split; [exact Hne|]. split.
    + unfold showZ, NilZero.string_of_int. cbn [Z.to_int].
      unfold NilZero.string_of_uint.
      destruct (Pos.to_uint p); try reflexivity. contradiction.
    + rewrite uintValue_zero, DecimalPos.Unsigned.of_to. reflexivity.
Qed.

Lemma lexRun_number (d : Decimal.uint) (pos : nat) :
  d <> Decimal.Nil ->
  MiniJS.lexRun MiniJS.LxIdle pos (NilEmpty.string_of_uint d)
  = Some ([], MiniJS.LxDigits pos (uintValue d 0),
          String.length (NilEmpty.string_of_uint d) + pos).
Proof.
  intros Hne. destruct d; [contradiction|..];
    cbn [NilEmpty.string_of_uint MiniJS.lexRun uintValue String.length];
    match goal with
    | |- context [MiniJS.lexStep ?st pos ?c] =>
        change (MiniJS.lexStep st pos c)
          with (Some (@nil MiniJS.ptoken,
                      MiniJS.LxDigits pos (MiniJS.digitValue c)))
    end;
    cbv beta iota; rewrite lexRun_uint; cbn [app]; rewrite Nat.add_succ_r; reflexivity.
Qed.

(** A number in decimal is one token. *)
Lemma lex_number (n : Z) (pos : nat) (rest : string) :
  (0 <= n)%Z -> delimited rest = true ->
  exists pos',
    MiniJS.lex MiniJS.LxIdle pos (showZ n ++ rest)
    = prepend [(MiniJS.TNum n, pos, pos')] (MiniJS.lex MiniJS.LxIdle pos' rest).
Proof.
  intros Hn Hrest. destruct (showZ_digits n Hn) as (d & Hne & -> & Hv).
  eexists. rewrite (lex_prepend _ _ _ _ _ _ _ (lexRun_number d pos Hne)).
  rewrite prepend_nil, Hv. apply lex_digits_end. exact Hrest.
Qed.

(** One character of a string, as [JSON.stringify] writes it. *)
Lemma lexRun_escapeChar (c : ascii) (start : nat) (acc : string) (pos : nat) :
  readableChar c = true ->
  MiniJS.lexRun (MiniJS.LxString (ascii_of_nat 34) start acc) pos (escapeChar c)
  = Some ([], MiniJS.LxString (ascii_of_nat 34) start (MiniJS.snoc acc c),
          String.length (escapeChar c) + pos).
Proof.
  destruct c as [[] [] [] [] [] [] [] []]; vm_compute; intros H;
    try discriminate H; reflexivity.
Qed.

Lemma lexRun_escapeString (s : string) :
  forall start acc pos,
    allChars readableChar s = true ->
    MiniJS.lexRun (MiniJS.LxString (ascii_of_nat 34) start acc) pos (escapeString s)
    = Some ([], MiniJS.LxString (ascii_of_nat 34) start (acc ++ s),
            String.length (escapeString s) + pos).
Proof.
  induction s as [|c s IH]; intros start acc pos Hs.
  - simpl. rewrite append_empty. reflexivity.
  - cbn [allChars] in Hs. apply andb_true_iff in Hs. destruct Hs as (Hc & Hs).
    cbn [escapeString]. rewrite lexRun_app, (lexRun_escapeChar c _ _ _ Hc).
    rewrite (IH _ _ _ Hs), snoc_app, length_app. cbn [app].
    rewrite Nat.add_assoc, (Nat.add_comm (String.length (escapeString s))).
    reflexivity.
Qed.

(** A string literal of a JSON text is one token. *)
Lemma lexRun_quoteString (s : string) (pos : nat) :
  allChars readableChar s = true ->
  exists pos',
    MiniJS.lexRun MiniJS.LxIdle pos (quoteString s)
    = Some ([(MiniJS.TStr s, pos, pos')], MiniJS.LxIdle, pos').
Proof.
  intros Hs. eexists. unfold quoteString.
  change (dquote ++ escapeString s ++ dquote)
    with (String (ascii_of_nat 34) (escapeString s ++ dquote)).
  cbn [MiniJS.lexRun].
  change (MiniJS.lexStep MiniJS.LxIdle pos (ascii_of_nat 34))
    with (Some (@nil MiniJS.ptoken,
                MiniJS.LxString (ascii_of_nat 34) pos EmptyString)).
  cbv beta iota.
  rewrite lexRun_app, (lexRun_escapeString s _ _ _ Hs).
  cbn [MiniJS.lexRun dquote].
  match goal with
  | |- context [MiniJS.lexStep (MiniJS.LxString ?q ?st ?a) ?p ?c] =>
      change (MiniJS.lexStep (MiniJS.LxString q st a) p c)
        with (Some ([(MiniJS.TStr a, st, S p)], MiniJS.LxIdle))
  end.
  cbv beta iota. cbn [app append]. reflexivity.
Qed.

Lemma readable_has_text (v : jsval) : readable v = true -> jsonText v <> None.
Proof.
  destruct v as [| |[|]|n|n|s|l|ps|s]; simpl; intros H; discriminate.
Qed.

Lemma jsonText_readable (v : jsval) :
  readable v = true -> jsonText v = Some (textOf v).
Proof.
  intros H. unfold textOf.
  destruct (jsonText v) eqn:Ht; [reflexivity|].
  exfalso. exact (readable_has_text v H Ht).
Qed.

Lemma textOf_object (ps : list (string * jsval)) :
  forallb (fun p => readableKey (fst p) && readable (snd p)) ps = true ->
  textOf (VObj ps) = "{" ++ join "," (map propText ps) ++ "}".
Proof.
  intros H. unfold textOf. cbn [jsonText]. do 3 f_equal.
  induction ps as [|p ps IH]; [reflexivity|].
  cbn [forallb] in H. apply andb_true_iff in H. destruct H as (Hp & Hps).
  apply andb_true_iff in Hp. destruct Hp as (_ & Hv).
  cbn [flat_map map]. rewrite (jsonText_readable _ Hv), (IH Hps). reflexivity.
Qed.

Lemma erase_app (a b : list MiniJS.ptoken) : erase (a ++ b) = (erase a ++ erase b)%list.
Proof. apply map_app. Qed.

(** A punctuation character between two tokens is a token. *)
Lemma lex_punct (c : ascii) (pos : nat) (rest : string) :
  MiniJS.startToken c pos = Some ([(MiniJS.TPunct c, pos, S pos)], MiniJS.LxIdle) ->
  MiniJS.lex MiniJS.LxIdle pos (String c rest)
  = prepend [(MiniJS.TPunct c, pos, S pos)] (MiniJS.lex MiniJS.LxIdle (S pos) rest).
Proof.
  intros H. cbn [MiniJS.lex MiniJS.lexStep]. rewrite H. reflexivity.
Qed.

Lemma lex_elements (l : list jsval) :
  Forall lexesAs l ->
  forallb readable l = true ->
  forall pos rest,
    delimited rest = true ->
    exists ts pos',
      erase ts = separated (map tokensOf l) /\
      MiniJS.lex MiniJS.LxIdle pos (join "," (map textOf l) ++ rest)
      = prepend ts (MiniJS.lex MiniJS.LxIdle pos' rest).
Proof.
  induction 1 as [|x l Hx Hl IH]; intros Hread pos rest Hrest.
  - exists [], pos. split; [reflexivity|]. rewrite prepend_nil. reflexivity.
  - cbn [forallb] in Hread. apply andb_true_iff in Hread.
    destruct Hread as (Hrx & Hrl).
    destruct l as [|y l'].
    + destruct (Hx Hrx pos rest Hrest) as (ts & pos' & He & Hlex).
      exists ts, pos'. split; assumption.
    + change (join "," (map textOf (x :: y :: l')) ++ rest)
        with ((textOf x ++ "," ++ join "," (map textOf (y :: l'))) ++ rest).
      rewrite append_assoc.
      change (("," ++ join "," (map textOf (y :: l'))) ++ rest)
        with (String "," (join "," (map textOf (y :: l')) ++ rest)).
      destruct (Hx Hrx pos (String "," (join "," (map textOf (y :: l')) ++ rest))
                  eq_refl) as (ts1 & p1 & He1 & Hlex1).
      destruct (IH Hrl (S p1) rest Hrest) as (ts2 & p2 & He2 & Hlex2).
      exists (ts1 ++ (MiniJS.TPunct ",", p1, S p1) :: ts2)%list, p2. split.
      * rewrite erase_app. cbn [erase map fst]. fold (erase ts2).
        rewrite He1, He2. reflexivity.
      * rewrite Hlex1, (lex_punct "," p1 _ eq_refl), Hlex2, !prepend_app.
        rewrite <- !app_assoc. reflexivity.
Qed.

Lemma lex_properties (ps : list (string * jsval)) :
  Forall (fun p => lexesAs (snd p)) ps ->
  forallb (fun p => readableKey (fst p) && readable (snd p)) ps = true ->
  forall pos rest,
    delimited rest = true ->
    exists ts pos',
      erase ts = separated (map (fun p => MiniJS.TStr (fst p) :: MiniJS.TPunct ":"
                                          :: tokensOf (snd p)) ps) /\
      MiniJS.lex MiniJS.LxIdle pos (join "," (map propText ps) ++ rest)
      = prepend ts (MiniJS.lex MiniJS.LxIdle pos' rest).
Proof.
  assert (Hone : forall p, lexesAs (snd p) ->
                   readableKey (fst p) && readable (snd p) = true ->
                   forall pos rest, delimited rest = true ->
                   exists ts pos',
                     erase ts = MiniJS.TStr (fst p) :: MiniJS.TPunct ":"
                                :: tokensOf (snd p) /\
                     MiniJS.lex MiniJS.LxIdle pos (propText p ++ rest)
                     = prepend ts (MiniJS.lex MiniJS.LxIdle pos' rest)).
  { intros [k v] Hv Hread pos rest Hrest. cbn [fst snd] in *.
    apply andb_true_iff in Hread. destruct Hread as (Hk & Hrv).
    unfold readableKey in Hk. apply andb_true_iff in Hk. destruct Hk as (Hk & _).
    destruct (lexRun_quoteString k pos Hk) as (p1 & Hkey).
    destruct (Hv Hrv (S p1) rest Hrest) as (ts2 & p2 & He2 & Hlex2).
    exists ((MiniJS.TStr k, pos, p1) :: (MiniJS.TPunct ":", p1, S p1) :: ts2), p2.
    split.
    - cbn [erase map fst]. fold (erase ts2). rewrite He2. reflexivity.
    - unfold propText. cbn [fst snd]. rewrite append_assoc.
      rewrite (lex_prepend _ _ _ _ _ _ _ Hkey).
      change ((":" ++ textOf v) ++ rest) with (String ":" (textOf v ++ rest)).
      rewrite (lex_punct ":" p1 _ eq_refl), Hlex2, !prepend_app.
      rewrite <- ?app_assoc. reflexivity. }
  induction 1 as [|x l Hx Hl IH]; intros Hread pos rest Hrest.
  - exists [], pos. split; [reflexivity|]. rewrite prepend_nil. reflexivity.
  - cbn [forallb] in Hread. apply andb_true_iff in Hread.
    destruct Hread as (Hrx & Hrl).
    destruct l as [|y l'].
    + destruct (Hone x Hx Hrx pos rest Hrest) as (ts & pos' & He & Hlex).
      exists ts, pos'. split; assumption.
    + change (join "," (map propText (x :: y :: l')) ++ rest)
        with ((propText x ++ "," ++ join "," (map propText (y :: l'))) ++ rest).
      rewrite append_assoc.
      change (("," ++ join "," (map propText (y :: l'))) ++ rest)
        with (String "," (join "," (map propText (y :: l')) ++ rest)).
      destruct (Hone x Hx Hrx pos (String "," (join "," (map propText (y :: l')) ++ rest))
                  eq_refl) as (ts1 & p1 & He1 & Hlex1).
      destruct (IH Hrl (S p1) rest Hrest) as (ts2 & p2 & He2 & Hlex2).
      exists (ts1 ++ (MiniJS.TPunct ",", p1, S p1) :: ts2)%list, p2. split.
      * rewrite erase_app. cbn [erase map fst]. fold (erase ts2).
        rewrite He1, He2. reflexivity.
      * rewrite Hlex1, (lex_punct "," p1 _ eq_refl), Hlex2, !prepend_app.
        rewrite <- !app_assoc. reflexivity.
Qed.

(** The lexer on the JSON text of a readable value: the tokens of the
    value. *)
Lemma lex_json (v : jsval) : lexesAs v.
Proof.
  induction v as [| |b|n|n|s|l IH|ps IH|s] using jsval_deep_ind;
    intros Hread pos rest Hrest; try discriminate Hread.
  - exists [(MiniJS.TIdent "null", pos, 4 + pos)], (4 + pos).
    split; [reflexivity|].
    change (textOf VNull ++ rest) with ("null" ++ rest).
    rewrite (lex_prepend "null" MiniJS.LxIdle pos rest []
               (MiniJS.LxWord pos "null") (4 + pos) eq_refl).
    rewrite prepend_nil. apply lex_word_end. exact Hrest.
  - destruct b.
    + exists [(MiniJS.TIdent "true", pos, 4 + pos)], (4 + pos).
      split; [reflexivity|].
      change (textOf (VBool true) ++ rest) with ("true" ++ rest).
      rewrite (lex_prepend "true" MiniJS.LxIdle pos rest []
                 (MiniJS.LxWord pos "true") (4 + pos) eq_refl).
      rewrite prepend_nil. apply lex_word_end. exact Hrest.
    + exists [(MiniJS.TIdent "false", pos, 5 + pos)], (5 + pos).
      split; [reflexivity|].
      change (textOf (VBool false) ++ rest) with ("false" ++ rest).
      rewrite (lex_prepend "false" MiniJS.LxIdle pos rest []
                 (MiniJS.LxWord pos "false") (5 + pos) eq_refl).
      rewrite prepend_nil. apply lex_word_end. exact Hrest.
  - cbn [readable] in Hread. apply Z.leb_le in Hread.
    destruct (lex_number n pos rest Hread Hrest) as (pos' & Hlex).
    exists [(MiniJS.TNum n, pos, pos')], pos'. split; [reflexivity|exact Hlex].
  - cbn [readable] in Hread.
    destruct (lexRun_quoteString s pos Hread) as (pos' & Hlex).
    exists [(MiniJS.TStr s, pos, pos')], pos'. split; [reflexivity|].
    change (textOf (VStr s)) with (quoteString s).
    apply lex_prepend. exact Hlex.
  - cbn [readable] in Hread.
    change (textOf (VArr l) ++ rest)
      with (("[" ++ join "," (map textOf l) ++ "]") ++ rest).
    rewrite !append_assoc.
    change ("[" ++ join "," (map textOf l) ++ "]" ++ rest)
      with (String "[" (join "," (map textOf l) ++ String "]" rest)).
    destruct (lex_elements l IH Hread (S pos) (String "]" rest) eq_refl)
      as (ts & p1 & He & Hlex).
    exists ((MiniJS.TPunct "[", pos, S pos) :: ts ++ [(MiniJS.TPunct "]", p1, S p1)])%list,
      (S p1).
    split.
    + cbn [erase map fst]. fold (erase (ts ++ [(MiniJS.TPunct "]", p1, S p1)])).
      rewrite erase_app, He. reflexivity.
    + rewrite (lex_punct "[" pos _ eq_refl), Hlex, (lex_punct "]" p1 _ eq_refl).
      rewrite !prepend_app. rewrite <- !app_assoc. reflexivity.
  - cbn [readable] in Hread. apply andb_true_iff in Hread.
    destruct Hread as (Hread & _).
    rewrite (textOf_object ps Hread). rewrite !append_assoc.
    change ("{" ++ join "," (map propText ps) ++ "}" ++ rest)
      with (String "{" (join "," (map propText ps) ++ String "}" rest)).
    destruct (lex_properties ps IH Hread (S pos) (String "}" rest) eq_refl)
      as (ts & p1 & He & Hlex).
    exists ((MiniJS.TPunct "{", pos, S pos) :: ts ++ [(MiniJS.TPunct "}", p1, S p1)])%list,
      (S p1).
    split.
    + cbn [erase map fst]. fold (erase (ts ++ [(MiniJS.TPunct "}", p1, S p1)])).
      rewrite erase_app, He. reflexivity.
    + rewrite (lex_punct "{" pos _ eq_refl), Hlex, (lex_punct "}" p1 _ eq_refl).
      rewrite !prepend_app. rewrite <- !app_assoc. reflexivity.
Qed.

(** *** The parser on the tokens of a JSON text *)

(** Rewriting with an equation on token lists, whatever name their type
    is written with. *)
Ltac rewrite_tokens H :=
  let HH := fresh in
  pose proof H as HH; unfold MiniJS.ptoken in HH |- *; rewrite HH; clear HH.

Lemma parseAssign_S f ts :
  MiniJS.parseAssign (S f) ts =
  match MiniJS.parseAdd f ts with
  | Some (a, r) =>
      match MiniJS.isP "=" r with
      | Some r' =>
          if MiniJS.assignable a
          then match MiniJS.parseAssign f r' with
               | Some (b, r2) => Some (MiniJS.EAssign a b, r2)
               | None => None
               end
          else None
      | None => Some (a, r)
      end
  | None => None
  end.
Proof. reflexivity. Qed.

Lemma parseAdd_S f ts :
  MiniJS.parseAdd (S f) ts =
  match MiniJS.parseUnary f ts with
  | Some (a, r) => MiniJS.parseAddRest f a r
  | None => None
  end.
Proof. reflexivity. Qed.

Lemma parseUnary_S f ts :
  MiniJS.parseUnary (S f) ts =
  match MiniJS.isKeyword "delete" ts with
  | Some r =>
      match MiniJS.parseUnary f r with
      | Some (e, r2) => Some (MiniJS.EDelete e, r2)
      | None => None
      end
  | None =>
      match MiniJS.parsePrimary f ts with
      | Some (p, r) => MiniJS.parsePostfix f p r
      | None => None
      end
  end.
Proof. reflexivity. Qed.

Lemma parseList_S f close ts :
  MiniJS.parseList (S f) close ts =
  match MiniJS.isP close ts with
  | Some r => Some ([], r)
  | None =>
      match MiniJS.parseAssign f ts with
      | Some (a, r) =>
          match MiniJS.isP "," r with
          | Some r' =>
              match MiniJS.parseList f close r' with
              | Some (l, r2) => Some (a :: l, r2)
              | None => None
              end
          | None =>
              match MiniJS.isP close r with
              | Some r' => Some ([a], r')
              | None => None
              end
          end
      | None => None
      end
  end.
Proof. reflexivity. Qed.

Lemma parseProps_S f ts :
  MiniJS.parseProps (S f) ts =
  match MiniJS.isP "}" ts with
  | Some r => Some ([], r)
  | None =>
      match match ts with
            | (MiniJS.TIdent k, _, _) :: r => Some (k, r)
            | (MiniJS.TStr k, _, _) :: r => Some (k, r)
            | (MiniJS.TNum n, _, _) :: r => Some (showZ n, r)
            | _ => None
            end with
      | Some (key, r0) =>
          match MiniJS.isP ":" r0 with
          | Some r1 =>
              match MiniJS.parseAssign f r1 with
              | Some (a, r) =>
                  match MiniJS.isP "," r with
                  | Some r' =>
                      match MiniJS.parseProps f r' with
                      | Some (l, r2) => Some ((key, a) :: l, r2)
                      | None => None
                      end
                  | None =>
                      match MiniJS.isP "}" r with
                      | Some r' => Some ([(key, a)], r')
                      | None => None
                      end
                  end
              | None => None
              end
          | None => None
          end
      | None => None
      end
  end.
Proof. reflexivity. Qed.

(** Where an operand ends, the postfix, sum and assignment loops stop. *)
Lemma stops_facts (rest : list MiniJS.ptoken) (f : nat) (e : MiniJS.expr) :
  stops rest = true ->
  MiniJS.parsePostfix (S f) e rest = Some (e, rest) /\
  MiniJS.parseAddRest (S f) e rest = Some (e, rest) /\
  MiniJS.isP "=" rest = None.
Proof.
  destruct rest as [|[[t a] b] r]; [repeat split|].
  destruct t as [s|n|n|s|c]; try (repeat split; fail).
  cbn [stops]. intros H.
  destruct (Ascii.eqb c ".") eqn:E1; [discriminate H|].
  destruct (Ascii.eqb c "(") eqn:E2; [discriminate H|].
  destruct (Ascii.eqb c "+") eqn:E3; [discriminate H|].
  destruct (Ascii.eqb c "=") eqn:E4; [discriminate H|].
  cbn [MiniJS.parsePostfix MiniJS.parseAddRest MiniJS.isP].
  rewrite E1, E2, (Ascii.eqb_sym "+" c), E3, (Ascii.eqb_sym "=" c), E4.
  repeat split.
Qed.

(** A primary expression in front of such tokens is a whole operand of an
    assignment. *)
Lemma parseAssign_operand (f : nat) (ts : list MiniJS.ptoken) (e : MiniJS.expr)
    (rest : list MiniJS.ptoken) :
  MiniJS.parsePrimary (S f) ts = Some (e, rest) ->
  MiniJS.isKeyword "delete" ts = None ->
  stops rest = true ->
  MiniJS.parseAssign (S (S (S (S f)))) ts = Some (e, rest).
Proof.
  intros Hprim Hdelete Hstops.
  destruct (stops_facts rest f e Hstops) as (Hpost & _ & _).
  destruct (stops_facts rest (S f) e Hstops) as (_ & Hadd & Heq).
  rewrite parseAssign_S, parseAdd_S, parseUnary_S, Hdelete, Hprim, Hpost, Hadd, Heq.
  reflexivity.
Qed.

Lemma erase_cons (ts : list MiniJS.ptoken) (t : MiniJS.token) (r : list MiniJS.token) :
  erase ts = t :: r ->
  exists a b ts', ts = (t, a, b) :: ts' /\ erase ts' = r.
Proof.
  destruct ts as [|[[t' a] b] ts']; [discriminate|].
  cbn [erase map fst]. intros [= <- <-]. exists a, b, ts'. split; reflexivity.
Qed.

Lemma erase_nil (ts : list MiniJS.ptoken) : erase ts = [] -> ts = [].
Proof. destruct ts; [reflexivity|discriminate]. Qed.

Lemma erase_split (ts : list MiniJS.ptoken) (x y : list MiniJS.token) :
  erase ts = (x ++ y)%list ->
  exists t1 t2, ts = (t1 ++ t2)%list /\ erase t1 = x /\ erase t2 = y.
Proof. intros H. apply map_eq_app in H. exact H. Qed.

(** The first token of a value is no closing bracket and not [delete]. *)
Lemma first_token (v : jsval) (ts rest : list MiniJS.ptoken) :
  readable v = true -> erase ts = tokensOf v ->
  ts <> [] /\
  MiniJS.isKeyword "delete" (ts ++ rest) = None /\
  MiniJS.isP "]" (ts ++ rest) = None /\
  MiniJS.isP "}" (ts ++ rest) = None /\
  MiniJS.isP ")" (ts ++ rest) = None.
Proof.
  intros Hread He.
  destruct v as [| |[|]|n|n|s|l|ps|s]; try discriminate Hread;
    cbn [tokensOf] in He; apply erase_cons in He;
    destruct He as (a & b & ts' & -> & _);
    (split; [discriminate|repeat split]).
Qed.

Lemma parseAssign_json (v : jsval) :
  parsesAs v -> readable v = true ->
  forall (ts rest : list MiniJS.ptoken) f,
    erase ts = tokensOf v ->
    stops rest = true ->
    5 * length ts + 3 <= f ->
    MiniJS.parseAssign f (ts ++ rest) = Some (litOf v, rest).
Proof.
  intros Hv Hread ts rest f He Hstops Hf.
  destruct (first_token v ts rest Hread He) as (Hne & Hdelete & _).
  assert (Hlen : 1 <= length ts) by (destruct ts; [contradiction|simpl; lia]).
  destruct f as [|[|[|[|f]]]]; try lia.
  apply parseAssign_operand; [|assumption|assumption].
  apply Hv; [assumption|assumption|lia].
Qed.

Lemma parse_elements (l : list jsval) :
  Forall parsesAs l ->
  forallb readable l = true ->
  forall (tse rest : list MiniJS.ptoken) g a b,
    erase tse = separated (map tokensOf l) ->
    5 * length tse + 5 <= g ->
    MiniJS.parseList g "]" (tse ++ (MiniJS.TPunct "]", a, b) :: rest)
    = Some (map litOf l, rest).
Proof.
  induction 1 as [|x l Hx Hl IH]; intros Hread tse rest g a b He Hg.
  - apply erase_nil in He. subst tse. destruct g; [lia|]. reflexivity.
  - cbn [forallb] in Hread. apply andb_true_iff in Hread.
    destruct Hread as (Hrx & Hrl).
    destruct g as [|g]; [lia|]. rewrite parseList_S.
    destruct l as [|y l'].
    + cbn [map separated] in He.
      match goal with
      | |- context [MiniJS.isP "]" ?ts] =>
          replace (MiniJS.isP "]" ts) with (@None (list MiniJS.ptoken))
            by (symmetry; apply (first_token x tse _ Hrx He))
      end.
      rewrite_tokens (parseAssign_json x Hx Hrx tse ((MiniJS.TPunct "]", a, b) :: rest)
                        g He eq_refl ltac:(lia)).
      reflexivity.
    + change (separated (map tokensOf (x :: y :: l')))
        with (tokensOf x ++ MiniJS.TPunct "," :: separated (map tokensOf (y :: l')))%list
        in He.
      apply erase_split in He. destruct He as (t1 & t2 & -> & He1 & He2).
      apply erase_cons in He2. destruct He2 as (p & q & t3 & -> & He3).
      rewrite <- app_assoc. cbn [app].
      match goal with
      | |- context [MiniJS.isP "]" ?ts] =>
          replace (MiniJS.isP "]" ts) with (@None (list MiniJS.ptoken))
            by (symmetry; apply (first_token x t1 _ Hrx He1))
      end.
      rewrite List.length_app in Hg. cbn [length] in Hg.
      rewrite_tokens (parseAssign_json x Hx Hrx t1
                        ((MiniJS.TPunct ",", p, q)
                         :: t3 ++ (MiniJS.TPunct "]", a, b) :: rest)
                        g He1 eq_refl ltac:(lia)).
      cbn [MiniJS.isP]. change (Ascii.eqb "," ",") with true. cbv iota.
      rewrite_tokens (IH Hrl t3 rest g a b He3 ltac:(lia)).
      reflexivity.
Qed.

Lemma parse_properties (ps : list (string * jsval)) :
  Forall (fun p => parsesAs (snd p)) ps ->
  forallb (fun p => readableKey (fst p) && readable (snd p)) ps = true ->
  forall (tse rest : list MiniJS.ptoken) g a b,
    erase tse = separated (map (fun p => MiniJS.TStr (fst p) :: MiniJS.TPunct ":"
                                         :: tokensOf (snd p)) ps) ->
    5 * length tse + 5 <= g ->
    MiniJS.parseProps g (tse ++ (MiniJS.TPunct "}", a, b) :: rest)
    = Some (map (fun p => (fst p, litOf (snd p))) ps, rest).
Proof.
  induction 1 as [|[k v] l Hx Hl IH]; intros Hread tse rest g a b He Hg.
  - apply erase_nil in He. subst tse. destruct g; [lia|]. reflexivity.
  - cbn [forallb fst snd] in Hread, Hx. apply andb_true_iff in Hread.
    destruct Hread as (Hrx & Hrl).
    apply andb_true_iff in Hrx. destruct Hrx as (_ & Hrv).
    destruct g as [|g]; [lia|]. rewrite parseProps_S.
    destruct l as [|y l'].
    + cbn [map separated fst snd] in He.
      apply erase_cons in He. destruct He as (p1 & q1 & t1 & -> & He).
      apply erase_cons in He. destruct He as (p2 & q2 & t2 & -> & He).
      cbn [app MiniJS.isP]. change (Ascii.eqb ":" ":") with true. cbv iota.
      cbn [length] in Hg.
      rewrite_tokens (parseAssign_json v Hx Hrv t2 ((MiniJS.TPunct "}", a, b) :: rest)
                        g He eq_refl ltac:(lia)).
      reflexivity.
    + change (separated (map (fun p => MiniJS.TStr (fst p) :: MiniJS.TPunct ":"
                                       :: tokensOf (snd p)) ((k, v) :: y :: l')))
        with (MiniJS.TStr k :: MiniJS.TPunct ":"
              :: (tokensOf v ++ MiniJS.TPunct ","
                  :: separated (map (fun p => MiniJS.TStr (fst p) :: MiniJS.TPunct ":"
                                              :: tokensOf (snd p)) (y :: l'))))%list
        in He.
      apply erase_cons in He. destruct He as (p1 & q1 & t1 & -> & He).
      apply erase_cons in He. destruct He as (p2 & q2 & t2 & -> & He).
      apply erase_split in He. destruct He as (t3 & t4 & -> & He3 & He4).
      apply erase_cons in He4. destruct He4 as (p & q & t5 & -> & He5).
      cbn [app MiniJS.isP]. change (Ascii.eqb ":" ":") with true. cbv iota.
      rewrite <- app_assoc. cbn [app].
      cbn [length] in Hg. rewrite List.length_app in Hg. cbn [length] in Hg.
      rewrite_tokens (parseAssign_json v Hx Hrv t3
                        ((MiniJS.TPunct ",", p, q)
                         :: t5 ++ (MiniJS.TPunct "}", a, b) :: rest)
                        g He3 eq_refl ltac:(lia)).
      cbn [MiniJS.isP]. change (Ascii.eqb "," ",") with true. cbv iota.
      rewrite_tokens (IH Hrl t5 rest g a b He5 ltac:(lia)).
      reflexivity.
Qed.

(** The parser on the tokens of a readable value: its literal. *)
Lemma parse_json (v : jsval) : parsesAs v.
Proof.
  induction v as [| |b|n|n|s|l IH|ps IH|s] using jsval_deep_ind;
    intros Hread ts rest f He Hf; try discriminate Hread.
  - apply erase_cons in He. destruct He as (a & b & ts' & -> & He).
    apply erase_nil in He. subst ts'. destruct f; [simpl in Hf; lia|]. reflexivity.
  - destruct b; apply erase_cons in He; destruct He as (a & b & ts' & -> & He);
      apply erase_nil in He; subst ts'; (destruct f; [simpl in Hf; lia|]);
      reflexivity.
  - apply erase_cons in He. destruct He as (a & b & ts' & -> & He).
    apply erase_nil in He. subst ts'. destruct f; [simpl in Hf; lia|]. reflexivity.
  - apply erase_cons in He. destruct He as (a & b & ts' & -> & He).
    apply erase_nil in He. subst ts'. destruct f; [simpl in Hf; lia|]. reflexivity.
  - cbn [readable] in Hread. cbn [tokensOf] in He.
    apply erase_cons in He. destruct He as (a & b & ts' & -> & He).
    apply erase_split in He. destruct He as (tse & tl & -> & He1 & He2).
    apply erase_cons in He2. destruct He2 as (c & d & tl' & -> & He2).
    apply erase_nil in He2. subst tl'.
    cbn [length] in Hf. rewrite List.length_app in Hf. cbn [length] in Hf.
    destruct f as [|g]; [lia|].
    cbn [app]. rewrite <- app_assoc. cbn [app].
    change (MiniJS.parsePrimary (S g)
              ((MiniJS.TPunct "[", a, b) :: tse ++ (MiniJS.TPunct "]", c, d) :: rest))
      with (match MiniJS.parseList g "]" (tse ++ (MiniJS.TPunct "]", c, d) :: rest) with
            | Some (es, r2) => Some (MiniJS.EArray es, r2)
            | None => None
            end).
    rewrite_tokens (parse_elements l IH Hread tse rest g c d He1 ltac:(lia)).
    reflexivity.
  - cbn [readable] in Hread. apply andb_true_iff in Hread.
    destruct Hread as (Hread & _). cbn [tokensOf] in He.
    apply erase_cons in He. destruct He as (a & b & ts' & -> & He).
    apply erase_split in He. destruct He as (tse & tl & -> & He1 & He2).
    apply erase_cons in He2. destruct He2 as (c & d & tl' & -> & He2).
    apply erase_nil in He2. subst tl'.
    cbn [length] in Hf. rewrite List.length_app in Hf. cbn [length] in Hf.
    destruct f as [|g]; [lia|].
    cbn [app]. rewrite <- app_assoc. cbn [app].
    change (MiniJS.parsePrimary (S g)
              ((MiniJS.TPunct "{", a, b) :: tse ++ (MiniJS.TPunct "}", c, d) :: rest))
      with (match MiniJS.parseProps g (tse ++ (MiniJS.TPunct "}", c, d) :: rest) with
            | Some (qs, r2) => Some (MiniJS.EObject qs, r2)
            | None => None
            end).
    rewrite_tokens (parse_properties ps IH Hread tse rest g c d He1 ltac:(lia)).
    reflexivity.
Qed.

(** *** The value of the literal of a JSON text *)

Lemma includes_In (l : list string) (k : string) :
  includes l k = true <-> In k l.
Proof.
  unfold includes. rewrite existsb_exists. split.
  - intros (x & Hin & Heq). apply String.eqb_eq in Heq. subst x. assumption.
  - intros Hin. exists k. split; [assumption|apply String.eqb_refl].
Qed.

Lemma distinct_NoDup (l : list string) : distinct l = true <-> NoDup l.
Proof.
  induction l as [|k l IH]; cbn [distinct].
  - split; [constructor|reflexivity].
  - rewrite andb_true_iff, negb_true_iff, IH. split.
    + intros (Hk & Hl). constructor; [|assumption].
      intros Hin. apply includes_In in Hin. congruence.
    + intros H. inversion H as [|? ? Hk Hl]; subst. split; [|assumption].
      apply not_true_is_false. intros Hin. apply Hk, includes_In, Hin.
Qed.

Lemma eval_json (fetch : HostFunction MiniJS.ctx) (v : jsval) : evaluatesAs fetch v.
Proof.
  induction v as [| |b|n|n|s|l IH|ps IH|s] using jsval_deep_ind;
    intros Hread c h; try discriminate Hread; try reflexivity.
  - cbn [readable] in Hread. cbn [litOf MiniJS.evalExpr].
    match goal with
    | |- match ?F (map litOf l) c h with _ => _ end = _ =>
        assert (HF : forall l', Forall (evaluatesAs fetch) l' ->
                       forallb readable l' = true ->
                       F (map litOf l') c h = (MiniJS.Ok l', c, h))
    end.
    { induction 1 as [|x r Hx Hr IHr]; intros Hrd; [reflexivity|].
      cbn [forallb] in Hrd. apply andb_true_iff in Hrd. destruct Hrd as (Hrx & Hrr).
      cbn [map]. rewrite (Hx Hrx c h), (IHr Hrr). reflexivity. }
    rewrite (HF l IH Hread). reflexivity.
  - cbn [readable] in Hread. apply andb_true_iff in Hread.
    destruct Hread as (Hread & Hkeys). apply distinct_NoDup in Hkeys.
    cbn [litOf MiniJS.evalExpr].
    match goal with
    | |- ?F (map ?g ps) [] c h = _ =>
        assert (HF : forall ps' acc,
                   Forall (fun p => evaluatesAs fetch (snd p)) ps' ->
                   forallb (fun p => readableKey (fst p) && readable (snd p)) ps' = true ->
                   NoDup (map fst ps') ->
                   (forall k, In k (map fst ps') -> ~ In k (map fst acc)) ->
                   F (map g ps') acc c h = (MiniJS.Ok (VObj (acc ++ ps')), c, h))
    end.
    { intros ps' acc H. revert acc.
      induction H as [|[k v] r Hx Hr IHr]; intros acc Hrd Hnd Hnew.
      - cbn [map]. rewrite app_nil_r. reflexivity.
      - cbn [forallb fst snd] in Hrd, Hx. apply andb_true_iff in Hrd.
        destruct Hrd as (Hrx & Hrr). apply andb_true_iff in Hrx.
        destruct Hrx as (_ & Hrv).
        cbn [map fst] in Hnd. inversion Hnd as [|? ? Hk Hnd']; subst.
        cbn [map fst snd]. rewrite (Hx Hrv c h).
        rewrite setProp_new by (apply Hnew; left; reflexivity).
        rewrite IHr; try assumption.
        + rewrite <- app_assoc. reflexivity.
        + intros k' Hin. rewrite map_app, in_app_iff. intros [Hg|[Hg|[]]].
          * revert Hg. apply Hnew. right. assumption.
          * simpl in Hg. subst k'. contradiction. }
    rewrite (HF ps [] IH Hread Hkeys); [reflexivity|]. intros k _ [].
Qed.

(** *** The restore code *)

Lemma parseExpr_S f ts :
  MiniJS.parseExpr (S f) ts =
  match MiniJS.parseAssign f ts with
  | Some (a, r) =>
      match MiniJS.isP "," r with
      | Some r' =>
          match MiniJS.parseExpr f r' with
          | Some (b, r2) => Some (MiniJS.ESeq a b, r2)
          | None => None
          end
      | None => Some (a, r)
      end
  | None => None
  end.
Proof. reflexivity. Qed.

Lemma isObjectAssign_intact (c : MiniJS.ctx) :
  MiniJS.objectIntact c = true ->
  MiniJS.isObjectAssign (MiniJS.EMember (MiniJS.EIdent "Object") "assign") c = true.
Proof.
  unfold MiniJS.objectIntact, MiniJS.isObjectAssign.
  destruct (lookupProp "Object" c) as [f|]; [|discriminate].
  intros H. apply sameFunction_native in H. subst f. reflexivity.
Qed.

Lemma parse_restore (v : jsval) (ts : list MiniJS.ptoken) (a b f : nat) :
  readable v = true -> erase ts = tokensOf v ->
  5 * length ts + 12 <= f ->
  MiniJS.parseExpr f (restoreTokens (ts ++ [(MiniJS.TPunct ")", a, b)]))
  = Some (restoreCall v, []).
Proof.
  intros Hread He Hf.
  do 8 (destruct f as [|f]; [lia|]).
  assert (Hglobal : MiniJS.parseAssign (S f)
                      ((MiniJS.TIdent "globalThis", 14, 24) :: (MiniJS.TPunct ",", 24, 25)
                       :: ts ++ [(MiniJS.TPunct ")", a, b)])
                    = Some (MiniJS.EIdent "globalThis",
                            (MiniJS.TPunct ",", 24, 25)
                            :: ts ++ [(MiniJS.TPunct ")", a, b)])).
  { do 3 (destruct f as [|f]; [lia|]). apply parseAssign_operand; reflexivity. }
  assert (Hvalue : MiniJS.parseAssign f (ts ++ [(MiniJS.TPunct ")", a, b)])
                   = Some (litOf v, [(MiniJS.TPunct ")", a, b)])).
  { apply (parseAssign_json v (parse_json v) Hread); [assumption|reflexivity|lia]. }
  assert (Hclose : MiniJS.isP ")" (ts ++ [(MiniJS.TPunct ")", a, b)]) = None).
  { apply (first_token v ts _ Hread He). }
  assert (Hlist : MiniJS.parseList (S (S f)) ")"
                    ((MiniJS.TIdent "globalThis", 14, 24) :: (MiniJS.TPunct ",", 24, 25)
                     :: ts ++ [(MiniJS.TPunct ")", a, b)])
                  = Some ([MiniJS.EIdent "globalThis"; litOf v], [])).
  { rewrite parseList_S. cbn [MiniJS.isP].
    rewrite_tokens Hglobal. cbn [MiniJS.isP].
    change (Ascii.eqb "," ",") with true. cbv iota.
    rewrite parseList_S. rewrite_tokens Hclose. rewrite_tokens Hvalue.
    reflexivity. }
  rewrite parseExpr_S, parseAssign_S, parseAdd_S, parseUnary_S.
  unfold restoreTokens.
  match goal with
  | |- context [MiniJS.isKeyword "delete" ?l] =>
      change (MiniJS.isKeyword "delete" l) with (@None (list MiniJS.ptoken))
  end.
  cbv iota.
  match goal with
  | |- context [MiniJS.parsePrimary ?g (?t :: ?l)] =>
      change (MiniJS.parsePrimary g (t :: l)) with (Some (MiniJS.EIdent "Object", l))
  end.
  cbv iota.
  match goal with
  | |- context [MiniJS.parsePostfix ?g ?e (?t1 :: ?t2 :: ?t3 :: ?l)] =>
      change (MiniJS.parsePostfix g e (t1 :: t2 :: t3 :: l))
        with (match MiniJS.parseList (S (S f)) ")" l with
              | Some (args, r2) =>
                  MiniJS.parsePostfix (S (S f))
                    (MiniJS.ECall (MiniJS.EMember (MiniJS.EIdent "Object") "assign")
                                  args) r2
              | None => None
              end)
  end.
  rewrite_tokens Hlist. reflexivity.
Qed.

Lemma readable_no_throw (v : jsval) : readable v = true -> stringifyThrows v = false.
Proof.
  induction v as [| |b|n|n|s|l IH|ps IH|s] using jsval_deep_ind;
    intros Hread; try discriminate Hread; try reflexivity.
  - cbn [readable] in Hread. cbn [stringifyThrows].
    induction IH as [|x r Hx Hr IHr]; [reflexivity|].
    cbn [forallb] in Hread. apply andb_true_iff in Hread. destruct Hread as (Hrx & Hrr).
    cbn [existsb]. rewrite (Hx Hrx), (IHr Hrr). reflexivity.
  - cbn [readable] in Hread. apply andb_true_iff in Hread.
    destruct Hread as (Hread & _). cbn [stringifyThrows].
    induction IH as [|x r Hx Hr IHr]; [reflexivity|].
    cbn [forallb] in Hread. apply andb_true_iff in Hread. destruct Hread as (Hrx & Hrr).
    apply andb_true_iff in Hrx. destruct Hrx as (_ & Hrx).
    cbn [existsb]. rewrite (Hx Hrx), (IHr Hrr). reflexivity.
Qed.

(** The restore code for readable variables, on a global object whose
    [Object] is the intrinsic: the variables are assigned onto the global
    object, and nothing else happens. *)
Lemma eval_restore (fetch : HostFunction MiniJS.ctx) (vars : list (string * jsval))
    (c : MiniJS.ctx) (h : HostState) :
  readable (VObj vars) = true -> MiniJS.objectIntact c = true ->
  MiniJS.evalCode fetch (restoreCode (textOf (VObj vars))) c h
  = (EvalValue (VObj (MiniJS.assignProps c vars)), MiniJS.assignProps c vars, h).
Proof.
  intros Hread Hobject. unfold MiniJS.evalCode.
  replace (String.eqb (restoreCode (textOf (VObj vars))) captureCode) with false
    by reflexivity.
  unfold MiniJS.parse, MiniJS.tokenize, restoreCode.
  rewrite (lex_prepend "Object.assign(globalThis, " MiniJS.LxIdle 0 _
             (restoreTokens []) MiniJS.LxIdle 26 eq_refl).
  destruct (lex_json (VObj vars) Hread 26 ")" eq_refl) as (ts & p & He & Hlex).
  rewrite Hlex.
  change (MiniJS.lex MiniJS.LxIdle p ")") with (Some [(MiniJS.TPunct ")", p, S p)]).
  cbn [prepend].
  change (restoreTokens [] ++ ts ++ [(MiniJS.TPunct ")", p, S p)])%list
    with (restoreTokens (ts ++ [(MiniJS.TPunct ")", p, S p)])).
  remember (8 * length (restoreTokens (ts ++ [(MiniJS.TPunct ")", p, S p)])) + 8)
    as fuel eqn:Hfuel.
  assert (Hbound : 5 * length ts + 13 <= fuel).
  { subst fuel. unfold restoreTokens. cbn [length]. rewrite List.length_app. lia. }
  clear Hfuel. destruct fuel as [|fuel]; [lia|].
  assert (Hstmt : MiniJS.parseStatement (S fuel)
                    (restoreTokens (ts ++ [(MiniJS.TPunct ")", p, S p)]))
                  = Some (MiniJS.SExpr (restoreCall (VObj vars)), [])).
  { change (MiniJS.parseStatement (S fuel)
              (restoreTokens (ts ++ [(MiniJS.TPunct ")", p, S p)])))
      with (match MiniJS.parseExpr (S fuel)
                    (restoreTokens (ts ++ [(MiniJS.TPunct ")", p, S p)])) with
            | Some (e, r2) => Some (MiniJS.SExpr e, r2)
            | None => None
            end).
    rewrite (parse_restore (VObj vars) ts p (S p) (S fuel) Hread He) by lia.
    reflexivity. }
  change (MiniJS.parseProgram (S fuel)
            (restoreTokens (ts ++ [(MiniJS.TPunct ")", p, S p)])))
    with (match MiniJS.parseStatement (S fuel)
                  (restoreTokens (ts ++ [(MiniJS.TPunct ")", p, S p)])) with
          | Some (s, r) =>
              match r with
              | [] =>
                  Some [(0, MiniJS.tokenEnd
                              (last (restoreTokens (ts ++ [(MiniJS.TPunct ")", p, S p)]))
                                    (MiniJS.TIdent "Object", 0, 6)), s)]
              | semi :: r' =>
                  match MiniJS.isP ";" r with
                  | Some _ =>
                      match MiniJS.parseProgram fuel r' with
                      | Some l => Some ((0, MiniJS.tokenEnd semi, s) :: l)
                      | None => None
                      end
                  | None => None
                  end
              end
          | None => None
          end).
  rewrite Hstmt. cbn [MiniJS.evalProgram]. unfold restoreCall.
  cbn [MiniJS.evalExpr]. rewrite (isObjectAssign_intact c Hobject).
  change (MiniJS.isGlobalThis (MiniJS.EIdent "globalThis")) with true. cbv iota.
  rewrite (eval_json fetch (VObj vars) Hread c h). reflexivity.
Qed.

(** *** Capture, restore, capture again *)

Lemma lookup_setProp (k k' : string) (v : jsval) (ps : list (string * jsval)) :
  lookupProp k' (MiniJS.setProp k v ps)
  = if String.eqb k' k then Some v else lookupProp k' ps.
Proof.
  induction ps as [|(k0, v0) ps IH]; cbn [MiniJS.setProp lookupProp].
  - reflexivity.
  - destruct (String.eqb_spec k k0) as [->|Hne]; cbn [lookupProp].
    + destruct (String.eqb k' k0); reflexivity.
    + rewrite IH. destruct (String.eqb_spec k' k0) as [->|Hne'].
      * destruct (String.eqb_spec k0 k) as [->|]; [contradiction|reflexivity].
      * reflexivity.
Qed.

Lemma keys_setProp (k : string) (v : jsval) (ps : list (string * jsval)) :
  map fst (MiniJS.setProp k v ps)
  = if includes (map fst ps) k then map fst ps else (map fst ps ++ [k])%list.
Proof.
  induction ps as [|(k0, v0) ps IH]; cbn [MiniJS.setProp map fst includes existsb].
  - reflexivity.
  - destruct (String.eqb_spec k k0) as [->|Hne]; cbn [map fst orb].
    + reflexivity.
    + rewrite IH. fold (includes (map fst ps) k).
      destruct (includes (map fst ps) k); reflexivity.
Qed.

Lemma setProp_NoDup (k : string) (v : jsval) (ps : list (string * jsval)) :
  NoDup (map fst ps) -> NoDup (map fst (MiniJS.setProp k v ps)).
Proof.
  intros Hnd. rewrite keys_setProp.
  destruct (includes (map fst ps) k) eqn:Hin; [assumption|].
  apply NoDup_app; [assumption|repeat constructor; intros []|].
  intros x Hx [<-|[]]. apply includes_In in Hx. congruence.
Qed.

Lemma assignProps_NoDup (source : list (string * jsval)) :
  forall target,
    NoDup (map fst target) -> NoDup (map fst (MiniJS.assignProps target source)).
Proof.
  unfold MiniJS.assignProps.
  induction source as [|(k, v) source IH]; intros target Hnd; [assumption|].
  cbn [fold_left fst snd]. apply IH, setProp_NoDup, Hnd.
Qed.

(** [Object.assign]: a name of the source answers as in the source, any
    other name as in the target. *)
Lemma lookup_assignProps (source : list (string * jsval)) :
  forall target k,
    NoDup (map fst source) ->
    lookupProp k (MiniJS.assignProps target source)
    = match lookupProp k source with
      | Some v => Some v
      | None => lookupProp k target
      end.
Proof.
  unfold MiniJS.assignProps.
  induction source as [|(k0, v0) source IH]; intros target k Hnd; [reflexivity|].
  cbn [map fst] in Hnd. inversion Hnd as [|? ? Hk Hnd']; subst.
  cbn [fold_left fst snd lookupProp]. rewrite (IH _ _ Hnd'), lookup_setProp.
  destruct (String.eqb_spec k k0) as [->|Hne]; [|reflexivity].
  replace (lookupProp k0 source) with (@None jsval); [reflexivity|].
  symmetry. apply lookupProp_None. exact Hk.
Qed.

(** [restoreState] on the concrete engine, for readable variables and a
    global object whose [Object] is the intrinsic. *)
Lemma restoreState_readable (now : nat -> Z) (state : VMState.t) (c : MiniJS.ctx)
    (h : HostState) (a : string) (s : list string) (i : nat) :
  readable (VObj (VMState.variables state)) = true ->
  MiniJS.objectIntact c = true ->
  restoreState MiniJS.engine now state (miniVM c h a s i)
  = (None,
     miniVM (MiniJS.assignProps c (VMState.variables state)) h (VMState.code state)
            (VMState.statements state) (VMState.currentStatementIndex state)).
Proof.
  intros Hread Hobject. unfold restoreState.
  unfold JSON_stringify.
  rewrite (readable_no_throw _ Hread), (jsonText_readable _ Hread).
  cbn [stringifiedText vm host miniVM].
  destruct (VMState.variables state) as [|p ps] eqn:Hvars; [reflexivity|].
  fold (miniVM c h (VMState.code state) (VMState.statements state)
               (VMState.currentStatementIndex state)).
  rewrite vmEval_mini, (eval_restore _ (p :: ps) c h Hread Hobject). reflexivity.
Qed.

Lemma captured_not_intrinsic (props : list (string * jsval)) (k : string) :
  includes intrinsicNames k = true ->
  lookupProp k (dumpObject (collectGlobals props)) = None.
Proof.
  intros Hk. destruct (lookupProp k (dumpObject (collectGlobals props))) as [j|] eqn:Hj;
    [|reflexivity].
  apply lookupProp_In, in_captured in Hj. destruct Hj as (v & _ & Hcap & _).
  unfold capturable in Hcap. cbn [fst snd] in Hcap. rewrite Hk in Hcap.
  rewrite andb_false_r in Hcap. discriminate Hcap.
Qed.

(** The variables of a snapshot on the concrete engine, with the
    intrinsics in place. *)
Lemma variables_intact (now : nat -> Z) (m : SequentialFetchVM MiniJS.engine) :
  NoDup (map fst (vm m)) ->
  MiniJS.objectIntact (vm m) = true -> MiniJS.stringifyIntact (vm m) = true ->
  VMState.variables (fst (getCurrentState MiniJS.engine now m))
  = dumpObject (collectGlobals (vm m)).
Proof.
  intros Hnd Hobject Hjson.
  rewrite getCurrentState_variables, (evalCode_capture _ _ _ Hnd Hobject Hjson).
  reflexivity.
Qed.

(** Assigning captured variables leaves the intrinsics in place. *)
Lemma assign_captured_intact (props : list (string * jsval)) (c : MiniJS.ctx) :
  NoDup (map fst (dumpObject (collectGlobals props))) ->
  MiniJS.objectIntact c = true -> MiniJS.stringifyIntact c = true ->
  MiniJS.objectIntact (MiniJS.assignProps c (dumpObject (collectGlobals props))) = true /\
  MiniJS.stringifyIntact (MiniJS.assignProps c (dumpObject (collectGlobals props))) = true.
Proof.
  intros Hnd Hobject Hjson.
  unfold MiniJS.objectIntact, MiniJS.stringifyIntact in *.
  rewrite !(lookup_assignProps _ _ _ Hnd).
  rewrite (captured_not_intrinsic props "Object" eq_refl).
  rewrite (captured_not_intrinsic props "JSON" eq_refl).
  split; assumption.
Qed.




(** C1. Scenario A on the concrete engine, at any time: whatever the host
    clock reads, [execute] of [x = 1; y = fetch("https://x/1"); y;] on a new
    instance returns a paused result whose request has the URL
    [https://x/1]; resuming its snapshot with a successful response whose
    data is 42 returns the completed result 42, on the same instance and,
    through [resumeExecution], on a new instance at any later time. *)
Theorem scenario_A (now : nat -> Z) (reads : nat) :
  exists state fetchRequest m1,
    execute MiniJS.engine now sourceA (initialize MiniJS.engine reads)
    = (Returned (Paused state fetchRequest), m1) /\
    FetchRequest.url fetchRequest = VStr "https://x/1" /\
    forall id statusText status timestamp error,
      let response := okResponse id statusText status timestamp error (VNum 42) in
      fst (resume MiniJS.engine now state response m1)
      = Returned (Completed (VNum 42)) /\
      forall (now' : nat -> Z) (reads' : nat),
        fst (resumeExecution MiniJS.engine now' state response reads')
        = Returned (Completed (VNum 42)).
Proof.
  eexists _, _, _. split; [apply execute_A|].
  split; [reflexivity|].
  intros id statusText status timestamp error response.
  pose proof (requestId_plain (now reads) 1) as Hrid.
  split.
  - apply resume_A;
      [ exact Hrid | reflexivity | apply restore_eval_paused; exact Hrid
        | vm_compute; reflexivity | vm_compute; reflexivity ].
  - intros now' reads'. rewrite resumeExecution_outcome.
    change (initialize MiniJS.engine reads')
      with (miniVM MiniJS.fresh (mkHost 0 reads') EmptyString [] 0).
    apply resume_A;
      [ exact Hrid | reflexivity | apply restore_eval_fresh; exact Hrid
        | vm_compute; reflexivity | vm_compute; reflexivity ].
Qed.

(** C2, at the input where the code departs from it.  The statement
    [var a = fetch("https://x/1"), b = 2;] declares [a] and [b]; its
    rewritten text declares nothing and has the value 2, so the detection
    looks at no variable: [execute] completes with 2 although the global [a]
    holds the marker of the fetch. *)
Theorem two_declarators_not_detected :
  extractVariableNames MiniJS.engine sourceTwoDeclarators = ["a"; "b"] /\
  extractVariableNames MiniJS.engine
    (transformStatement MiniJS.engine sourceTwoDeclarators) = [] /\
  fst (execute MiniJS.engine clock sourceTwoDeclarators machine0)
  = Returned (Completed (VNum 2)) /\
  lookupProp "a" (vm (snd (execute MiniJS.engine clock sourceTwoDeclarators machine0)))
  = Some (VStr (pauseMarker ++ requestIdOf (clock 0) 1)).
Proof. repeat split; vm_compute; reflexivity. Qed.

(** The detection does find a marker in a declared variable when the
    declaration survives the rewriting. *)
Example declared_variable_detected :
  exists state fetchRequest,
    fst (execute MiniJS.engine clock
           ("var $x = fetch(" ++ quoted "https://x/1" ++ ");") machine0)
    = Returned (Paused state fetchRequest) /\
    FetchRequest.url fetchRequest = VStr "https://x/1".
Proof. eexists _, _. split; vm_compute; reflexivity. Qed.


(** C6 as stated fails: after a second submission the statements that the
    driver runs are those of that submission, not the segmentation of the
    accumulated text. *)
Lemma second_submission_not_accumulated :
  statements (snd (execute MiniJS.engine clock "b = 2;" machineAfterFirst))
  <> parseCodeIntoStatements MiniJS.engine
       (allCode (snd (execute MiniJS.engine clock "b = 2;" machineAfterFirst))).
Proof. vm_compute. discriminate. Qed.

(** C10. The interceptor answers the marker whatever the evaluation of its
    store code does.  On [sourceQuoteUrl], a comma expression of two fetch
    calls whose second URL holds a double quote, the store code of the
    second call is not a program, the slot keeps the descriptor of the first
    call, the pause is triggered by the marker of the second call, and the
    request that is reported carries the id and the URL of the first: not
    the URL of the call that paused the run. *)
Theorem interceptor_marker_despite_failed_store :
  (forall (E : Engine) (now : nat -> Z) depth url c h,
      fst (fst (fetchFunc E now depth [url] c h))
      = EvalValue (VStr (pauseMarker
                         ++ requestIdOf (now (clockReads h)) (S (fetchCounter h))))) /\
  (let slot := VObj [("id", VStr (requestIdOf (clock 0) 1));
                     ("url", VStr "https://a"); ("options", VObj [])] in
   let c1 := MiniJS.setProp "__fetchPause" slot MiniJS.fresh in
   fetchFunc MiniJS.engine clock 8 [VStr quoteUrl] c1 (mkHost 1 1)
   = (EvalValue (VStr (pauseMarker ++ requestIdOf (clock 1) 2)), c1, mkHost 2 2)) /\
  exists state fetchRequest,
    fst (execute MiniJS.engine clock sourceQuoteUrl machine0)
    = Returned (Paused state fetchRequest) /\
    lookupProp "y" (VMState.variables state)
    = Some (VStr (pauseMarker ++ requestIdOf (clock 1) 2)) /\
    FetchRequest.id fetchRequest = VStr (requestIdOf (clock 0) 1) /\
    FetchRequest.url fetchRequest = VStr "https://a" /\
    FetchRequest.url fetchRequest <> VStr quoteUrl.
Proof.
  split; [|split].
  - intros E now depth url c h. destruct depth; simpl.
    + reflexivity.
    + destruct (evalCode E _ _ c _) as [[r c'] h']. reflexivity.
  - vm_compute. reflexivity.
  - eexists _, _. split; [vm_compute; reflexivity|].
    repeat split; try (vm_compute; reflexivity).
    vm_compute. discriminate.
Qed.

(** ** The theorems at concrete inputs *)


Lemma script_error_is_hard_failure_witness :
  reportsError MiniJS.engine clock (CallExecute sourceFailing) machine0
    missingError machineF2 /\
  perform MiniJS.engine clock (CallExecute sourceFailing) machine0
  = (Thrown (ScriptError (dump missingError)), machineF2).
Proof.
  assert (H : reportsError MiniJS.engine clock (CallExecute sourceFailing) machine0
                missingError machineF2).
  { apply (error_in_execute MiniJS.engine clock sourceFailing machine0 machineF1).
    - apply (stepsOver_step MiniJS.engine clock machineF0 "x = 1;" (VNum 1)
               (snd (vmEval MiniJS.engine clock
                       (transformStatement MiniJS.engine "x = 1;") machineF0))
               (snd (findPauseMarker MiniJS.engine clock (dump (VNum 1))
                       (transformStatement MiniJS.engine "x = 1;")
                       (snd (vmEval MiniJS.engine clock
                               (transformStatement MiniJS.engine "x = 1;")
                               machineF0))))).
      + vm_compute. reflexivity.
      + apply pair_of_fst. vm_compute. reflexivity.
      + apply pair_of_fst. vm_compute. reflexivity.
      + apply stepsOver_refl.
    - exists "missing;". split.
      + vm_compute. reflexivity.
      + apply pair_of_fst. vm_compute. reflexivity. }
  split; [exact H|].
  exact (proj1 (script_error_is_hard_failure MiniJS.engine clock _ _ _ _ H)).
Defined.

Lemma parser_failure_fails_soft_witness :
  acornParse MiniJS.engine sourceInvalid = None /\
  parseCodeIntoStatements MiniJS.engine sourceInvalid = [sourceInvalid].
Proof.
  assert (H : acornParse MiniJS.engine sourceInvalid = None)
    by (vm_compute; reflexivity).
  split; [exact H|].
  exact (proj1 (parser_failure_fails_soft MiniJS.engine clock sourceInvalid
                  machine0 H)).
Defined.



(** * Further properties of the library *)

(** ** The replacement of fetch calls in [resume] *)

Lemma allChars_app (p : ascii -> bool) (a b : string) :
  allChars p (a ++ b) = allChars p a && allChars p b.
Proof.
  induction a as [|c a IH]; simpl; [reflexivity|].
  rewrite IH, andb_assoc. reflexivity.
Qed.

Lemma dropChars_app (x rest : string) :
  dropChars (String.length x) (x ++ rest) = rest.
Proof. induction x; simpl; [destruct rest; reflexivity|assumption]. Qed.

Lemma stripPrefix_app (p rest : string) : stripPrefix p (p ++ rest) = Some rest.
Proof. induction p; simpl; [reflexivity|]. rewrite Ascii.eqb_refl. assumption. Qed.

Lemma countNonParen_app (a rest : string) :
  allChars notCloseParen a = true ->
  countNonParen (a ++ ")" ++ rest) = String.length a.
Proof.
  induction a as [|c a IH]; simpl; intros H; [reflexivity|].
  apply andb_true_iff in H. destruct H as (Hc & Ha).
  unfold notCloseParen in Hc. apply negb_true_iff in Hc. rewrite Hc.
  f_equal. apply IH. assumption.
Qed.

(** The characters of a match are dropped, and the scan goes on behind
    them. *)
Lemma replaceFetchCalls_skip (x : string) :
  forall rest,
    replaceFetchCalls (String.length x) (x ++ rest) = replaceFetchCalls 0 rest.
Proof.
  induction x as [|c x IH]; intros rest; simpl; [reflexivity|apply IH].
Qed.

Lemma matchFetchCall_call (a rest : string) :
  a <> EmptyString -> allChars notCloseParen a = true ->
  matchFetchCall ("fetch(" ++ a ++ ")" ++ rest) = Some (6 + String.length a + 1)%nat.
Proof.
  intros Hne Ha. unfold matchFetchCall.
  change ("fetch(" ++ a ++ ")" ++ rest) with ("fetch(" ++ (a ++ ")" ++ rest)).
  rewrite stripPrefix_app. cbv zeta.
  rewrite countNonParen_app by assumption.
  destruct a as [|c a]; [congruence|].
  cbn [String.length Nat.eqb].
  change (S (String.length a)) with (String.length (String c a)).
  rewrite dropChars_app. reflexivity.
Qed.

Lemma replaceFetchCalls_call (a rest : string) :
  a <> EmptyString -> allChars notCloseParen a = true ->
  replaceFetchCalls 0 ("fetch(" ++ a ++ ")" ++ rest)
  = "globalThis.__currentFetchData" ++ replaceFetchCalls 0 rest.
Proof.
  intros Hne Ha.
  pose proof (matchFetchCall_call a rest Hne Ha) as Hm.
  change ("fetch(" ++ a ++ ")" ++ rest)
    with (String "f" ("etch(" ++ a ++ ")" ++ rest)) in *.
  cbn [replaceFetchCalls]. rewrite Hm.
  f_equal.
  replace (6 + String.length a + 1 - 1)%nat
    with (String.length ("etch(" ++ a ++ ")")) by (rewrite !length_app; simpl; lia).
  replace ("etch(" ++ a ++ ")" ++ rest) with (("etch(" ++ a ++ ")") ++ rest)
    by (rewrite !append_assoc; reflexivity).
  apply replaceFetchCalls_skip.
Qed.

Lemma matchFetchCall_unclosed (s : string) :
  allChars notCloseParen s = true -> matchFetchCall s = None.
Proof.
  intros H. unfold matchFetchCall.
  destruct (stripPrefix "fetch(" s) as [r|] eqn:Hr; [|reflexivity].
  assert (Hr' : allChars notCloseParen r = true).
  { do 6 (destruct s as [|? s]; [discriminate|]; simpl in Hr;
          match type of Hr with
          | (if ?b then _ else _) = _ => destruct b; [|discriminate]
          end;
          simpl in H; apply andb_true_iff in H; destruct H as (_ & H)).
    simpl in Hr. injection Hr as <-. assumption. }
  clear Hr H. cbv zeta.
  assert (G : dropChars (countNonParen r) r = EmptyString).
  { induction r as [|c r IH]; [reflexivity|].
    simpl in Hr'. apply andb_true_iff in Hr'. destruct Hr' as (Hc & Hr').
    unfold notCloseParen in Hc. apply negb_true_iff in Hc.
    simpl. rewrite Hc. simpl. apply IH. assumption. }
  rewrite G. destruct (countNonParen r =? 0)%nat; reflexivity.
Qed.

Lemma stripPrefix_fetch_paren (s r : string) :
  stripPrefix "fetch(" s = Some r -> String.get 5 s = Some "("%char.
Proof.
  do 5 (destruct s as [|? s]; [discriminate|]; cbn [stripPrefix String.get];
        match goal with
        | |- (if ?b then _ else _) = _ -> _ => destruct b; [|discriminate]
        end).
  destruct s as [|c s]; [discriminate|]. cbn [stripPrefix String.get]. intros H.
  destruct (Ascii.eqb_spec "(" c) as [<-|]; [reflexivity|discriminate H].
Qed.

(** Before a call, a text without opening parenthesis holds no
    parenthesis at the place where a match would need it. *)
Lemma get_before_call (x r : string) :
  forall n, allChars notOpenParen x = true -> (n < String.length x + 5)%nat ->
            String.get n (x ++ "fetch(" ++ r) <> Some "("%char.
Proof.
  induction x as [|c x IH]; intros n Hx Hn.
  - cbn [String.length Nat.add] in Hn.
    do 5 (destruct n as [|n]; [discriminate|]). lia.
  - simpl in Hx. apply andb_true_iff in Hx. destruct Hx as (Hc & Hx).
    destruct n as [|n]; simpl.
    + intros [= ->]. discriminate Hc.
    + apply IH; [assumption|]. simpl in Hn. lia.
Qed.

Lemma replaceFetchCalls_prefix (x r : string) :
  allChars notOpenParen x = true ->
  replaceFetchCalls 0 (x ++ "fetch(" ++ r) = x ++ replaceFetchCalls 0 ("fetch(" ++ r).
Proof.
  induction x as [|c x IH]; intros Hx; [reflexivity|].
  assert (Hnone : matchFetchCall (String c x ++ "fetch(" ++ r) = None).
  { unfold matchFetchCall.
    destruct (stripPrefix "fetch(" (String c x ++ "fetch(" ++ r)) as [r'|] eqn:Hr;
      [|reflexivity].
    apply stripPrefix_fetch_paren in Hr.
    exfalso. revert Hr. apply get_before_call; [assumption|]. simpl. lia. }
  change (String c x ++ "fetch(" ++ r) with (String c (x ++ "fetch(" ++ r)) in *.
  cbn [replaceFetchCalls]. rewrite Hnone.
  simpl in Hx. apply andb_true_iff in Hx. destruct Hx as (_ & Hx).
  rewrite (IH Hx). reflexivity.
Qed.

(** X1. The replacement [/fetch\([^)]+\)/g] of [resume] takes a call up to
    its first closing parenthesis.  In a statement that starts with a text
    without opening parenthesis followed by a call, when the text between
    [fetch(] and the next [)] is not empty, the text before the call is
    kept, the call is replaced as a whole by
    [globalThis.__currentFetchData], and the scan goes on behind that
    parenthesis, whatever follows. *)
Theorem fetch_call_replaced (x a rest : string) :
  allChars notOpenParen x = true ->
  a <> EmptyString -> allChars notCloseParen a = true ->
  replaceFetchCalls 0 (x ++ "fetch(" ++ a ++ ")" ++ rest)
  = x ++ "globalThis.__currentFetchData" ++ replaceFetchCalls 0 rest.
Proof.
  intros Hx Hne Ha.
  rewrite (replaceFetchCalls_prefix x _ Hx).
  rewrite (replaceFetchCalls_call a rest Hne Ha). reflexivity.
Qed.

Lemma replaceFetchCalls_unclosed (s : string) :
  allChars notCloseParen s = true -> replaceFetchCalls 0 s = s.
Proof.
  induction s as [|c s IH]; intros H; [reflexivity|].
  cbn [replaceFetchCalls]. rewrite (matchFetchCall_unclosed _ H).
  simpl in H. apply andb_true_iff in H. destruct H as (_ & H).
  rewrite IH by assumption. reflexivity.
Qed.

(** X2. What the replacement of [resume] leaves alone: a call with an empty
    argument list, [fetch()], is not replaced (the pattern asks for one
    character at least between the parentheses), and a text without closing
    parenthesis is not changed at all. *)
Theorem fetch_call_not_replaced :
  (forall rest, replaceFetchCalls 0 ("fetch()" ++ rest)
                = "fetch()" ++ replaceFetchCalls 0 rest) /\
  (forall s, allChars notCloseParen s = true -> replaceFetchCalls 0 s = s).
Proof.
  split; [intros rest; reflexivity|exact replaceFetchCalls_unclosed].
Qed.

(** ** The rewriting of declarations *)

Lemma replaceDeclarations_dollar (name : string) :
  hasDollar name = true ->
  forall s prevWord, replaceDeclarations name 0 prevWord s = s.
Proof.
  intros Hd. induction s as [|c s IH]; intros pw; [reflexivity|].
  cbn [replaceDeclarations]. unfold matchDeclaration. rewrite Hd.
  rewrite IH. destruct pw; reflexivity.
Qed.

(** X3. A declared name that holds a dollar sign is never rewritten: in the
    pattern built from the name the dollar sign is the end-of-input anchor,
    so the pattern matches nowhere, and the statement keeps its declaration
    as written.  When every name holds one, the rewriting is the identity. *)
Theorem dollar_names_not_rewritten (variableNames : list string) (statement : string) :
  forallb hasDollar variableNames = true ->
  rewriteDeclarations variableNames statement = statement.
Proof.
  unfold rewriteDeclarations. revert statement.
  induction variableNames as [|name names IH]; intros statement H; [reflexivity|].
  simpl in H. apply andb_true_iff in H. destruct H as (Hn & Hs).
  cbn [fold_left]. unfold rewriteDeclaration at 2.
  rewrite (replaceDeclarations_dollar name Hn). apply IH. assumption.
Qed.

Lemma word_not_space (c : ascii) : isWordChar c = true -> isSpace c = false.
Proof.
  unfold isWordChar, isSpace. cbv zeta. intros H.
  apply not_true_is_false. intros H'.
  repeat rewrite ?orb_true_iff, ?andb_true_iff, ?Nat.leb_le, ?Nat.eqb_eq in H.
  repeat rewrite ?orb_true_iff, ?andb_true_iff, ?Nat.leb_le, ?Nat.eqb_eq in H'.
  lia.
Qed.

Lemma word_not_dollar (c : ascii) : isWordChar c = true -> Ascii.eqb c "$" = false.
Proof. intros H. apply Ascii.eqb_neq. intros ->. discriminate H. Qed.

Lemma word_not_open_paren (c : ascii) : isWordChar c = true -> notOpenParen c = true.
Proof.
  intros H. apply negb_true_iff, Ascii.eqb_neq. intros ->. discriminate H.
Qed.

Lemma words_no_dollar (name : string) :
  allChars isWordChar name = true -> hasDollar name = false.
Proof.
  induction name as [|c name IH]; simpl; intros H; [reflexivity|].
  apply andb_true_iff in H. destruct H as (Hc & Hn).
  rewrite (word_not_dollar c Hc), IH by assumption. reflexivity.
Qed.

Lemma words_no_open_paren (name : string) :
  allChars isWordChar name = true -> allChars notOpenParen name = true.
Proof.
  induction name as [|c name IH]; simpl; intros H; [reflexivity|].
  apply andb_true_iff in H. destruct H as (Hc & Hn).
  rewrite (word_not_open_paren c Hc), IH by assumption. reflexivity.
Qed.

Lemma countSpaces_app (sp rest : string) :
  allChars isSpace sp = true -> countSpaces rest = 0%nat ->
  countSpaces (sp ++ rest) = String.length sp.
Proof.
  induction sp as [|c sp IH]; simpl; intros H Hr; [assumption|].
  apply andb_true_iff in H. destruct H as (Hc & Hs).
  rewrite Hc, IH by assumption. reflexivity.
Qed.

Lemma countSpaces_word (name rest : string) :
  name <> EmptyString -> allChars isWordChar name = true ->
  countSpaces (name ++ rest) = 0%nat.
Proof.
  destruct name as [|c name]; [congruence|]. simpl. intros _ H.
  apply andb_true_iff in H. destruct H as (Hc & _).
  rewrite (word_not_space c Hc). reflexivity.
Qed.

Lemma declKeyword_app (kw rest : string) :
  In kw declarationKeywords ->
  declKeyword (kw ++ rest) = Some (String.length kw, rest).
Proof. intros [<-|[<-|[<-|[]]]]; reflexivity. Qed.

Lemma matchDeclaration_declaration (kw sp1 name sp2 rest : string) :
  In kw declarationKeywords ->
  sp1 <> EmptyString -> allChars isSpace sp1 = true ->
  name <> EmptyString -> allChars isWordChar name = true ->
  allChars isSpace sp2 = true ->
  matchDeclaration name (kw ++ sp1 ++ name ++ sp2 ++ "=" ++ rest)
  = Some (String.length kw + String.length sp1 + String.length name
          + String.length sp2 + 1)%nat.
Proof.
  intros Hkw Hne1 Hsp1 Hne Hname Hsp2. unfold matchDeclaration.
  rewrite (words_no_dollar name Hname), (declKeyword_app kw _ Hkw). cbv zeta.
  rewrite (countSpaces_app sp1) by (try apply countSpaces_word; assumption).
  destruct sp1 as [|c1 sp1]; [congruence|].
  cbn [String.length Nat.eqb].
  change (S (String.length sp1)) with (String.length (String c1 sp1)).
  rewrite dropChars_app, stripPrefix_app.
  rewrite (countSpaces_app sp2) by (try reflexivity; assumption).
  rewrite dropChars_app. reflexivity.
Qed.

Lemma replaceDeclarations_skip (name x : string) :
  forall prevWord c rest,
    replaceDeclarations name (S (String.length x)) prevWord (x ++ String c rest)
    = replaceDeclarations name 0 (isWordChar c) rest.
Proof.
  induction x as [|d x IH]; intros pw c rest; [reflexivity|].
  cbn [String.length append replaceDeclarations]. apply IH.
Qed.

Lemma rewriteDeclaration_declaration (kw sp1 name sp2 rest : string) :
  In kw declarationKeywords ->
  sp1 <> EmptyString -> allChars isSpace sp1 = true ->
  name <> EmptyString -> allChars isWordChar name = true ->
  allChars isSpace sp2 = true ->
  rewriteDeclaration (kw ++ sp1 ++ name ++ sp2 ++ "=" ++ rest) name
  = "globalThis." ++ name ++ " =" ++ replaceDeclarations name 0 false rest.
Proof.
  intros Hkw Hne1 Hsp1 Hne Hname Hsp2.
  pose proof (matchDeclaration_declaration kw sp1 name sp2 rest
                Hkw Hne1 Hsp1 Hne Hname Hsp2) as Hm.
  unfold rewriteDeclaration.
  assert (G : forall k0 kw', kw = String k0 kw' ->
              replaceDeclarations name 0 false (kw ++ sp1 ++ name ++ sp2 ++ "=" ++ rest)
              = ("globalThis." ++ name ++ " =")
                  ++ replaceDeclarations name 0 false rest).
  { intros k0 kw' ->. cbn [append replaceDeclarations].
    cbn [append] in Hm. rewrite Hm.
    replace (String.length (String k0 kw') + String.length sp1 + String.length name
             + String.length sp2 + 1 - 1)%nat
      with (S (String.length (kw' ++ sp1 ++ name ++ sp2)))
      by (rewrite !length_app; simpl; lia).
    replace (kw' ++ sp1 ++ name ++ sp2 ++ String "=" rest)
      with ((kw' ++ sp1 ++ name ++ sp2) ++ String "=" rest)
      by (rewrite !append_assoc; reflexivity).
    rewrite replaceDeclarations_skip. reflexivity. }
  destruct kw as [|k0 kw'].
  - destruct Hkw as [H|[H|[H|[]]]]; discriminate H.
  - rewrite (G k0 kw' eq_refl). rewrite !append_assoc. reflexivity.
Qed.

(** X4. What [executeNextStatement] evaluates for a declaration.  For a
    statement that is a keyword [const], [let] or [var], white space, a name
    of word characters, optional white space, [=] and an initialiser, and
    that declares this one name, the text up to and including the [=]
    becomes [globalThis.NAME =]; the initialiser is scanned on for further
    declarations of the name. *)
Theorem declaration_rewritten (E : Engine) (kw sp1 name sp2 rest : string) :
  In kw declarationKeywords ->
  sp1 <> EmptyString -> allChars isSpace sp1 = true ->
  name <> EmptyString -> allChars isWordChar name = true ->
  allChars isSpace sp2 = true ->
  extractVariableNames E (kw ++ sp1 ++ name ++ sp2 ++ "=" ++ rest) = [name] ->
  transformStatement E (kw ++ sp1 ++ name ++ sp2 ++ "=" ++ rest)
  = "globalThis." ++ name ++ " =" ++ replaceDeclarations name 0 false rest.
Proof.
  intros Hkw Hne1 Hsp1 Hne Hname Hsp2 Hnames.
  unfold transformStatement. rewrite Hnames.
  cbn [rewriteDeclarations fold_left].
  apply rewriteDeclaration_declaration; assumption.
Qed.

Lemma matchDeclaration_no_keyword (name s : string) :
  declKeyword s = None -> matchDeclaration name s = None.
Proof.
  intros H. unfold matchDeclaration. rewrite H.
  destruct (hasDollar name); reflexivity.
Qed.

Lemma replaceDeclarations_no_keyword (name s : string) :
  noDeclarationKeyword s = true ->
  forall prevWord, replaceDeclarations name 0 prevWord s = s.
Proof.
  induction s as [|c s IH]; intros H pw; [reflexivity|].
  cbn [noDeclarationKeyword] in H.
  destruct (declKeyword (String c s)) eqn:Hk; [discriminate|].
  cbn [replaceDeclarations].
  rewrite (matchDeclaration_no_keyword name _ Hk), (IH H).
  destruct pw; reflexivity.
Qed.

(** X5. What [resume] evaluates for a paused declaration: for the statement
    [KEYWORD NAME = fetch(ARGS);], with a name of word characters and
    arguments without closing parenthesis, the text evaluated in place of
    the statement is [globalThis.NAME = globalThis.__currentFetchData;]. *)
Theorem resume_injects_into_declaration (E : Engine) (kw name a : string) :
  In kw declarationKeywords ->
  name <> EmptyString -> allChars isWordChar name = true ->
  a <> EmptyString -> allChars notCloseParen a = true ->
  extractVariableNames E (kw ++ " " ++ name ++ " = fetch(" ++ a ++ ");") = [name] ->
  transformForResume E (kw ++ " " ++ name ++ " = fetch(" ++ a ++ ");")
  = "globalThis." ++ name ++ " = globalThis.__currentFetchData;".
Proof.
  intros Hkw Hne Hname Ha Hparen Hnames.
  unfold transformForResume. rewrite Hnames.
  cbn [rewriteDeclarations fold_left].
  replace (kw ++ " " ++ name ++ " = fetch(" ++ a ++ ");")
    with ((kw ++ " " ++ name ++ " = ") ++ "fetch(" ++ a ++ ")" ++ ";")
    by (rewrite !append_assoc; reflexivity).
  rewrite replaceFetchCalls_prefix.
  - rewrite (replaceFetchCalls_call a ";" Ha Hparen).
    replace ((kw ++ " " ++ name ++ " = ")
             ++ "globalThis.__currentFetchData" ++ replaceFetchCalls 0 ";")
      with (kw ++ " " ++ name ++ " " ++ "="
            ++ " globalThis.__currentFetchData;")
      by (rewrite !append_assoc; reflexivity).
    rewrite (rewriteDeclaration_declaration kw " " name " ")
      by (try assumption; try reflexivity; discriminate).
    rewrite replaceDeclarations_no_keyword by reflexivity.
    rewrite ?append_assoc. reflexivity.
  - rewrite !allChars_app, (words_no_open_paren name Hname).
    destruct Hkw as [<-|[<-|[<-|[]]]]; reflexivity.
Qed.

(** ** Request ids and pause markers *)

Lemma to_int_not_nil (z : Z) :
  Z.to_int z <> Decimal.Pos Decimal.Nil /\ Z.to_int z <> Decimal.Neg Decimal.Nil.
Proof.
  destruct z as [|p|p]; simpl; split; try discriminate;
    intros [= H]; exact (DecimalPos.Unsigned.to_uint_nonnil p H).
Qed.

(** The decimal text of a number determines the number. *)
Lemma showZ_inj (a b : Z) : showZ a = showZ b -> a = b.
Proof.
  unfold showZ. intros H.
  apply (f_equal NilZero.int_of_string) in H.
  destruct (to_int_not_nil a) as (Ha1 & Ha2).
  destruct (to_int_not_nil b) as (Hb1 & Hb2).
  rewrite !NilZero.isi in H by assumption.
  injection H as H. apply (f_equal Z.of_int) in H.
  rewrite !DecimalZ.of_to in H. exact H.
Qed.

Lemma uint_no_underscore (d : Decimal.uint) :
  allChars notUnderscore (NilEmpty.string_of_uint d) = true.
Proof. induction d; simpl; try assumption; reflexivity. Qed.

Lemma showZ_no_underscore (z : Z) : allChars notUnderscore (showZ z) = true.
Proof.
  unfold showZ, NilZero.string_of_int.
  destruct (Z.to_int z) as [d|d]; unfold NilZero.string_of_uint.
  - destruct d; try reflexivity; apply uint_no_underscore.
  - destruct d; try reflexivity;
      match goal with
      | |- allChars _ (String _ ?t) = true =>
          change (allChars notUnderscore t = true); apply uint_no_underscore
      end.
Qed.

Lemma split_at_underscore (a : string) :
  forall a' b b',
    allChars notUnderscore a = true -> allChars notUnderscore a' = true ->
    a ++ "_" ++ b = a' ++ "_" ++ b' -> a = a' /\ b = b'.
Proof.
  induction a as [|c a IH]; intros [|c' a'] b b' Ha Ha' H; simpl in *.
  - injection H as ->. split; reflexivity.
  - injection H as <- _. discriminate Ha'.
  - injection H as -> _. discriminate Ha.
  - injection H as -> H.
    apply andb_true_iff in Ha, Ha'. destruct Ha as (_ & Ha), Ha' as (_ & Ha').
    destruct (IH a' b b' Ha Ha' H) as (-> & ->). split; reflexivity.
Qed.

Lemma append_inj_l (p a b : string) : p ++ a = p ++ b -> a = b.
Proof. induction p; simpl; intros H; [assumption|]. injection H as H. auto. Qed.

Lemma requestIdOf_inj (t t' : Z) (n n' : nat) :
  requestIdOf t n = requestIdOf t' n' -> t = t' /\ n = n'.
Proof.
  unfold requestIdOf, showNat. intros H.
  apply (append_inj_l "fetch_") in H.
  apply split_at_underscore in H; try apply showZ_no_underscore.
  destruct H as (Ht & Hn).
  apply showZ_inj in Ht, Hn. split; [assumption|lia].
Qed.

(** What a call of the interceptor with a URL alone answers. *)
Lemma fetchFunc_marker (E : Engine) (now : nat -> Z) depth url c h :
  fst (fst (fetchFunc E now depth [url] c h))
  = EvalValue (VStr (pauseMarker
                     ++ requestIdOf (now (clockReads h)) (S (fetchCounter h)))).
Proof.
  destruct depth; simpl; [reflexivity|].
  destruct (evalCode E _ _ c _) as [[r c'] h']. reflexivity.
Qed.

(** X6. A request id determines the clock reading and the counter value it
    was built from; so two calls of the interceptor that answer the same
    marker were made at the same counter value and the same clock reading,
    and calls at different counter values never share an id. *)
Theorem request_ids_tell_calls_apart (E : Engine) (now : nat -> Z) :
  (forall t t' n n', requestIdOf t n = requestIdOf t' n' <-> t = t' /\ n = n') /\
  (forall depth depth' url url' c c' h h',
      fst (fst (fetchFunc E now depth [url] c h))
      = fst (fst (fetchFunc E now depth' [url'] c' h')) ->
      fetchCounter h = fetchCounter h' /\
      now (clockReads h) = now (clockReads h')).
Proof.
  split.
  - intros t t' n n'. split; [apply requestIdOf_inj|].
    intros (-> & ->). reflexivity.
  - intros depth depth' url url' c c' h h' H.
    rewrite !fetchFunc_marker in H.
    apply (f_equal (fun r => match r with
                             | EvalValue (VStr s) => s
                             | _ => EmptyString
                             end)) in H.
    apply append_inj_l, requestIdOf_inj in H.
    destruct H as (Ht & Hn). split; [lia|assumption].
Qed.

(** X7. The interceptor and the pause detection agree on the marker: what
    a call of the interceptor answers is recognised by the test of
    [executeNextStatement], and stripping the prefix from it gives back the
    request id of that call. *)
Theorem marker_decodes_to_request_id (E : Engine) (now : nat -> Z) depth url c h :
  exists marker,
    fst (fst (fetchFunc E now depth [url] c h)) = EvalValue (VStr marker) /\
    isPauseMarker (dump (VStr marker)) = Some marker /\
    fetchIdOf marker = requestIdOf (now (clockReads h)) (S (fetchCounter h)).
Proof.
  eexists. split; [apply fetchFunc_marker|]. split; reflexivity.
Qed.

(** ** Edges of the driver *)

Section DriverEdges.
Variable E : Engine.
Variable now : nat -> Z.

Local Abbreviation VM := (SequentialFetchVM E).

(** X8. A source in which the parser finds no statement: [execute] records
    the submission and completes at once with [undefined]; nothing is
    evaluated, the interpreter and the host state stay as they were. *)
Theorem execute_empty_program (code : string) (m : VM) :
  acornParse E code = Some [] ->
  execute E now code m
  = (Returned (Completed VUndefined),
     mkVM (vm m) (host m) (allCode m ++ newline ++ code) [] 0).
Proof.
  intros H. unfold execute, parseCodeIntoStatements. rewrite H. reflexivity.
Qed.

Lemma restoreState_error state (m m0 : VM) e :
  restoreState E now state m = (Some e, m0) -> e = HostTypeError "JSON.stringify".
Proof.
  unfold restoreState.
  destruct (VMState.variables state); [discriminate|].
  destruct (stringifiedText _); [discriminate|].
  intros [= <- _]. reflexivity.
Qed.

(** X9. A snapshot whose cursor is not inside its statement list cannot be
    resumed: [resume] fails, and not with a script error, since no statement
    is there to be replayed.  This is the fate of a snapshot that carries no
    statements. *)
Theorem resume_cursor_out_of_range state fetchResponse (m : VM) :
  (length (VMState.statements state) <= VMState.currentStatementIndex state)%nat ->
  exists e, fst (resume E now state fetchResponse m) = Thrown e /\
            forall errorMsg, e <> ScriptError errorMsg.
Proof.
  intros Hout. unfold resume, replayStatement.
  destruct (restoreState E now state m) as [[e|] m0] eqn:Hrestore.
  - exists e. split; [reflexivity|].
    rewrite (restoreState_error _ _ _ _ Hrestore). discriminate.
  - destruct (restoreState_script E now _ _ _ _ Hrestore) as (_ & Hs & Hi).
    destruct (stringifiedText _) as [dataText|].
    + destruct (vmEval E now (injectCode dataText) m0) as [[v|x] m1] eqn:Hinject.
      * destruct (vmEval_sameScript E now _ _ _ _ Hinject) as (_ & Hs1 & Hi1).
        assert (Hnone : nth_error (statements m1) (currentStatementIndex m1) = None).
        { apply nth_error_None. rewrite Hs1, Hi1, Hs, Hi. exact Hout. }
        rewrite Hnone. eexists. split; [reflexivity|discriminate].
      * eexists. split; [reflexivity|discriminate].
    + eexists. split; [reflexivity|discriminate].
Qed.

(** What a pause does with the host clock and the interpreter: one
    reading for the request, the evaluation of the capture program, two
    readings for the snapshot. *)
Lemma pauseExecution_clock (m : VM) state fetchRequest m' :
  pauseExecution E now m = (Returned (Paused state fetchRequest), m') ->
  exists k k1 m2 r m3,
    FetchRequest.timestamp fetchRequest = now k /\
    clockReads (host m2) = S k /\
    vmEval E now captureCode m2 = (r, m3) /\
    clockReads (host m3) = k1 /\
    VMState.id state = "state_" ++ showZ (now k1) /\
    VMState.timestamp state = now (S k1) /\
    clockReads (host m') = S (S k1) /\
    VMState.variables state = match r with
                              | EvalValue value => dumpProps value
                              | EvalError _ => []
                              end.
Proof.
  unfold pauseExecution.
  destruct (vmEval E now "globalThis.__fetchPause" m) as [[v|e] m1]; [|discriminate].
  destruct (getProp "id" (dump v)); [|discriminate].
  destruct (getProp "url" (dump v)); [|discriminate].
  destruct (getProp "options" (dump v)); [|discriminate].
  unfold getCurrentState.
  destruct (vmEval E now captureCode (withContext E m1 (vm m1) (tick (host m1))))
    as [r m3] eqn:Hcap.
  intros [= <- <- <-].
  exists (clockReads (host m1)), (clockReads (host m3)),
    (withContext E m1 (vm m1) (tick (host m1))), r, m3.
  repeat split; try reflexivity. exact Hcap.
Qed.

(** A paused result comes out of the pause branch of the driver. *)
Lemma perform_paused (call : Call) (m : VM) state fetchRequest m' :
  perform E now call m = (Returned (Paused state fetchRequest), m') ->
  exists m2, pauseExecution E now m2 = (Returned (Paused state fetchRequest), m').
Proof.
  assert (G : forall m0, executeNextStatement E now m0
                         = (Returned (Paused state fetchRequest), m') ->
              exists m2, pauseExecution E now m2
                         = (Returned (Paused state fetchRequest), m')).
  { intros m0 H. unfold executeNextStatement in H.
    destruct (runStatements_paused E now _ _ _ _ _ H) as (_ & _ & _ & m2 & _ & _ & Hp).
    exists m2. exact Hp. }
  destruct call as [code|st r]; cbn [perform].
  - unfold execute. apply G.
  - unfold resume.
    destruct (replayStatement E now st r m) as [[e|value] m4]; [discriminate|].
    destruct (currentStatementIndex m4 <? length (statements m4))%nat;
      [apply G|discriminate].
Qed.


(** Whatever the interpreter hands back, serializing the variables read
    off its dump does not throw. *)
Lemma dumpProps_no_throw (value : jsval) :
  stringifyThrows (VObj (dumpProps value)) = false.
Proof.
  unfold dumpProps, dump.
  destruct value as [| |b|n|n|s|l|ps|s]; try reflexivity.
  - destruct (stringifyThrows (VArr l)); reflexivity.
  - destruct (stringifyThrows (VObj ps)) eqn:Hthrows; [reflexivity|].
    destruct (jsonValue (VObj ps)) as [j|] eqn:Hj; [|reflexivity].
    destruct (jsonValue_stable _ j Hthrows Hj) as (Hs & _).
    destruct j; try reflexivity. exact Hs.
Qed.


Lemma runStatements_completed fuel :
  forall (m : VM) result m',
    (length (statements m) - currentStatementIndex m <= S fuel)%nat ->
    (currentStatementIndex m <= length (statements m))%nat ->
    runStatements E now fuel m = (Returned (Completed result), m') ->
    currentStatementIndex m' = length (statements m').
Proof.
  induction fuel as [|fuel IH]; intros m result m' Hf Hle;
    rewrite runStatements_eq;
    (destruct (nth_error (statements m) (currentStatementIndex m)) as [original|] eqn:Hnth;
     [| intros [= _ <-]; apply nth_error_None in Hnth; lia]);
    cbv zeta;
    (destruct (vmEval E now _ m) as [[v|e] m1] eqn:Hev; [|discriminate]);
    destruct (vmEval_sameScript E now _ _ _ _ Hev) as (_ & Hs1 & Hi1);
    (destruct (findPauseMarker E now _ _ m1) as [[marker|] m2] eqn:Hfind;
     [intros Hp; exfalso; exact (pauseExecution_not_completed E now _ _ _ Hp)|]);
    destruct (findPauseMarker_sameScript E now _ _ _ _ _ Hfind) as (_ & Hs2 & Hi2);
    assert (Hlt : (currentStatementIndex m < length (statements m))%nat)
      by (apply nth_error_Some; congruence);
    assert (Hs : statements m2 = statements m) by congruence;
    assert (Hi : currentStatementIndex m2 = currentStatementIndex m) by congruence;
    clear Hs1 Hi1 Hs2 Hi2;
    cbn [advance statements currentStatementIndex];
    destruct (length (statements m2) <=? S (currentStatementIndex m2))%nat eqn:Hend.
  - intros [= _ <-]. unfold advance. cbn [statements currentStatementIndex].
    apply Nat.leb_le in Hend. rewrite Hs, Hi in *. lia.
  - apply Nat.leb_gt in Hend. rewrite Hs, Hi in *. lia.
  - intros [= _ <-]. unfold advance. cbn [statements currentStatementIndex].
    apply Nat.leb_le in Hend. rewrite Hs, Hi in *. lia.
  - apply Nat.leb_gt in Hend. intros Hrun.
    apply (IH _ _ _) in Hrun; [assumption| |];
      unfold advance; cbn [statements currentStatementIndex];
      rewrite Hs, Hi in *; lia.
Qed.

Lemma replayStatement_in_range state fetchResponse (m : VM) value m4 :
  replayStatement E now state fetchResponse m = (inr value, m4) ->
  (currentStatementIndex m4 <= length (statements m4))%nat.
Proof.
  unfold replayStatement.
  destruct (restoreState E now state m) as [[e|] m0]; [discriminate|].
  destruct (stringifiedText _) as [dataText|]; [|discriminate].
  destruct (vmEval E now (injectCode dataText) m0) as [[v|x] m1]; [|discriminate].
  destruct (nth_error (statements m1) (currentStatementIndex m1)) as [cur|] eqn:Hnth;
    [|discriminate].
  destruct (vmEval E now (transformForResume E cur) m1) as [[v2|x] m2] eqn:Hev;
    [|discriminate].
  intros [= _ <-].
  destruct (vmEval E now clearCode (advance E m2)) as [r m3] eqn:Hclear.
  destruct (vmEval_sameScript E now _ _ _ _ Hclear) as (_ & Hs3 & Hi3).
  destruct (vmEval_sameScript E now _ _ _ _ Hev) as (_ & Hs2 & Hi2).
  cbn [snd]. rewrite Hs3, Hi3. cbn [advance statements currentStatementIndex].
  rewrite Hs2, Hi2.
  assert (currentStatementIndex m1 < length (statements m1))%nat
    by (apply nth_error_Some; congruence).
  lia.
Qed.

(** X12. When [execute] or [resume] returns a completed result, the cursor
    of the instance stands exactly at the end of its statement list: every
    statement has been run, none is left. *)
Theorem completed_cursor_at_end (call : Call) (m : VM) result m' :
  perform E now call m = (Returned (Completed result), m') ->
  currentStatementIndex m' = length (statements m').
Proof.
  destruct call as [code|st r]; cbn [perform].
  - unfold execute, executeNextStatement. cbn [statements].
    apply runStatements_completed; cbn [statements currentStatementIndex]; lia.
  - unfold resume.
    destruct (replayStatement E now st r m) as [[e|value] m4] eqn:Hreplay;
      [discriminate|].
    pose proof (replayStatement_in_range _ _ _ _ _ Hreplay) as Hle.
    destruct (currentStatementIndex m4 <? length (statements m4))%nat eqn:Hlt.
    + unfold executeNextStatement. apply runStatements_completed; lia.
    + apply Nat.ltb_ge in Hlt. intros [= _ <-]. lia.
Qed.

Lemma pauseExecution_not_script_error (m : VM) e m' :
  pauseExecution E now m <> (Thrown (ScriptError e), m').
Proof.
  unfold pauseExecution.
  destruct (vmEval E now "globalThis.__fetchPause" m) as [[v|x] m1]; [|discriminate].
  destruct (getProp "id" (dump v)); [|discriminate].
  destruct (getProp "url" (dump v)); [|discriminate].
  destruct (getProp "options" (dump v)); [|discriminate].
  destruct (getCurrentState E now _). discriminate.
Qed.

(** A script error of the driver loop comes from the evaluation of the
    statement under the cursor of some machine of the run, and the loop
    hands back the machine that this evaluation left. *)
Lemma runStatements_script_error fuel :
  forall (m : VM) e m',
    runStatements E now fuel m = (Thrown (ScriptError e), m') ->
    exists original x m0,
      e = dump x /\
      nth_error (statements m0) (currentStatementIndex m0) = Some original /\
      vmEval E now (transformStatement E original) m0 = (EvalError x, m').
Proof.
  induction fuel as [|fuel IH]; intros m e m';
    rewrite runStatements_eq;
    (destruct (nth_error (statements m) (currentStatementIndex m)) as [original|] eqn:Hnth;
     [|discriminate]);
    cbv zeta;
    destruct (vmEval E now _ m) as [[v|x] m1] eqn:Hev;
    try (intros [= <- <-]; exists original, x, m; repeat split; assumption);
    (destruct (findPauseMarker E now _ _ m1) as [[marker|] m2] eqn:Hfind;
     [intros Hp; exfalso; exact (pauseExecution_not_script_error _ _ _ Hp)|]);
    destruct (length (statements (advance E m2)) <=? currentStatementIndex (advance E m2))%nat;
    try discriminate.
  apply IH.
Qed.

(** X20. After a script error the cursor stays on the statement that
    failed.  When [execute] or [resume] fails with the error of a
    statement, the instance is the one that the failing evaluation left:
    the error is the dump of what the interpreter reported for the statement
    under the cursor, evaluated as [executeNextStatement] or as the replay of
    [resume] writes it, in a machine with the same statements and the same
    cursor.  The statement has not been counted as run, and the cursor has
    not been moved anywhere else. *)
Theorem script_error_keeps_cursor (call : Call) (m : VM) e m' :
  perform E now call m = (Thrown (ScriptError e), m') ->
  exists original x m0,
    e = dump x /\
    nth_error (statements m') (currentStatementIndex m') = Some original /\
    statements m0 = statements m' /\
    currentStatementIndex m0 = currentStatementIndex m' /\
    (vmEval E now (transformStatement E original) m0 = (EvalError x, m') \/
     vmEval E now (transformForResume E original) m0 = (EvalError x, m')).
Proof.
  assert (Hloop : forall m1,
             executeNextStatement E now m1 = (Thrown (ScriptError e), m') ->
             exists original x m0,
               e = dump x /\
               nth_error (statements m') (currentStatementIndex m') = Some original /\
               statements m0 = statements m' /\
               currentStatementIndex m0 = currentStatementIndex m' /\
               (vmEval E now (transformStatement E original) m0 = (EvalError x, m') \/
                vmEval E now (transformForResume E original) m0 = (EvalError x, m'))).
  { intros m1 Hrun. unfold executeNextStatement in Hrun.
    destruct (runStatements_script_error _ _ _ _ Hrun)
      as (original & x & m0 & He & Hnth & Hev).
    destruct (vmEval_sameScript E now _ _ _ _ Hev) as (_ & Hs & Hi).
    exists original, x, m0. rewrite Hs, Hi. repeat split; try assumption; try congruence.
    left. assumption. }
  destruct call as [code|st r]; cbn [perform].
  - unfold execute. apply Hloop.
  - unfold resume.
    destruct (replayStatement E now st r m) as [[x|value] m4] eqn:Hreplay.
    + intros [= -> <-]. revert Hreplay. unfold replayStatement.
      destruct (restoreState E now st m) as [[x|] m0] eqn:Hrestore.
      { intros [= -> _]. apply restoreState_error in Hrestore. discriminate. }
      destruct (stringifiedText _) as [dataText|]; [|discriminate].
      destruct (vmEval E now (injectCode dataText) m0) as [[v|x] m1]; [|discriminate].
      destruct (nth_error (statements m1) (currentStatementIndex m1)) as [cur|] eqn:Hnth;
        [|discriminate].
      destruct (vmEval E now (transformForResume E cur) m1) as [[v2|x] m2] eqn:Hev;
        [discriminate|].
      intros [= <- <-].
      destruct (vmEval_sameScript E now _ _ _ _ Hev) as (_ & Hs2 & Hi2).
      exists cur, x, m1. rewrite Hs2, Hi2.
      repeat split; try assumption; try congruence.
      right. assumption.
    + destruct (currentStatementIndex m4 <? length (statements m4))%nat;
        [|discriminate].
      apply Hloop.
Qed.
(** X13. [resume] reads nothing of the response but its data: the id, the
    success flag, the status, the status text, the error and the timestamp
    have no influence on the outcome or on the instance.  A response that
    reports a failure is resumed like a successful one with the same data,
    and the id is not compared with the id of the request. *)
Theorem resume_reads_only_data state fetchResponse (m : VM) :
  resume E now state fetchResponse m
  = resume E now state
      (FetchResponse.mk EmptyString false 0 EmptyString
                        (FetchResponse.data fetchResponse) None 0) m.
Proof. apply resume_data. reflexivity. Qed.

End DriverEdges.

(** ** The single-evaluation VM *)

Section FetchVMFacts.
Variable E : Engine.
Variable now : nat -> Z.

Lemma fetchvm_vmEval_code code (m : FetchVMLib.FetchVM E) :
  FetchVMLib.allCode (snd (FetchVMLib.vmEval E now code m)) = FetchVMLib.allCode m.
Proof.
  unfold FetchVMLib.vmEval.
  destruct (evalCode E _ code _ _) as [[r c] h]. reflexivity.
Qed.

Lemma fetchvm_restoreState_code state (m : FetchVMLib.FetchVM E) :
  FetchVMLib.allCode (snd (FetchVMLib.restoreState E now state m))
  = FetchVMLib.code state.
Proof.
  unfold FetchVMLib.restoreState.
  assert (H : FetchVMLib.allCode
                match FetchVMLib.code state with
                | EmptyString => FetchVMLib.mkVM (FetchVMLib.vm m) (FetchVMLib.host m)
                                   (FetchVMLib.code state)
                | String _ _ =>
                    snd (FetchVMLib.vmEval E now (FetchVMLib.code state)
                           (FetchVMLib.mkVM (FetchVMLib.vm m) (FetchVMLib.host m)
                              (FetchVMLib.code state)))
                end = FetchVMLib.code state).
  { destruct (FetchVMLib.code state) eqn:Hc; [reflexivity|].
    rewrite fetchvm_vmEval_code. reflexivity. }
  destruct (FetchVMLib.variables state); [exact H|].
  destruct (stringifiedText _); [|exact H].
  cbn [snd]. rewrite fetchvm_vmEval_code. exact H.
Qed.

(** X14. [FetchVM.resume] never pauses and never runs a statement of its
    own: either it fails, and then not with the error of an evaluated
    script, or it completes with the data of the response, handed back as it
    was given.  Either way the accumulated text of the instance is the text
    of the snapshot. *)
Theorem fetchvm_resume_answers_data state fetchResponse (m : FetchVMLib.FetchVM E) :
  (fst (FetchVMLib.resume E now state fetchResponse m)
   = FetchVMLib.Returned (FetchVMLib.Completed (FetchResponse.data fetchResponse))
   \/ exists e, fst (FetchVMLib.resume E now state fetchResponse m)
                = FetchVMLib.Thrown e /\
                forall errorMsg, e <> FetchVMLib.EvalFailure errorMsg) /\
  FetchVMLib.allCode (snd (FetchVMLib.resume E now state fetchResponse m))
  = FetchVMLib.code state.
Proof.
  pose proof (fetchvm_restoreState_code state m) as Hcode.
  unfold FetchVMLib.resume.
  destruct (FetchVMLib.restoreState E now state m) as [[e|] m0] eqn:Hrestore;
    cbn [snd] in Hcode.
  - split; [|exact Hcode]. right. exists e. split; [reflexivity|].
    unfold FetchVMLib.restoreState in Hrestore.
    destruct (FetchVMLib.variables state); [discriminate|].
    destruct (stringifiedText _); [discriminate|].
    injection Hrestore as <- _. discriminate.
  - destruct (stringifiedText _) as [text|].
    + pose proof (fetchvm_vmEval_code (FetchVMLib.injectCode text) m0) as Hinj.
      destruct (FetchVMLib.vmEval E now (FetchVMLib.injectCode text) m0)
        as [[v|x] m1]; cbn [snd fst] in *.
      * split; [left; reflexivity|congruence].
      * split; [|congruence]. right. eexists. split; [reflexivity|discriminate].
    + split; [|exact Hcode]. right. eexists. split; [reflexivity|discriminate].
Qed.

(** X15. [FetchVM.execute] evaluates a submission as one text and looks at
    its final value only: when it returns a paused result, the value of the
    whole text was a pause marker, and the text of the snapshot, like the
    accumulated text of the instance, is everything submitted so far with
    this submission at its end. *)
Theorem fetchvm_execute_pauses_on_final_value code (m : FetchVMLib.FetchVM E)
    state fetchRequest :
  fst (FetchVMLib.execute E now code m)
  = FetchVMLib.Returned (FetchVMLib.Paused state fetchRequest) ->
  (exists v marker,
      fst (FetchVMLib.vmEval E now code (FetchVMLib.submitted E code m)) = EvalValue v /\
      isPauseMarker (dump v) = Some marker) /\
  FetchVMLib.code state = FetchVMLib.allCode m ++ newline ++ code /\
  FetchVMLib.allCode (snd (FetchVMLib.execute E now code m))
  = FetchVMLib.allCode m ++ newline ++ code.
Proof.
  unfold FetchVMLib.execute.
  pose proof (fetchvm_vmEval_code code (FetchVMLib.submitted E code m)) as H1.
  destruct (FetchVMLib.vmEval E now code (FetchVMLib.submitted E code m))
    as [[v|x] m1]; [|discriminate].
  cbn [snd] in H1. cbv zeta.
  destruct (isPauseMarker (dump v)) as [marker|] eqn:Hmark; [|discriminate].
  pose proof (fetchvm_vmEval_code "globalThis.__fetchPause" m1) as H2.
  destruct (FetchVMLib.vmEval E now "globalThis.__fetchPause" m1) as [[d|x] m2];
    [|discriminate].
  cbn [snd] in H2.
  destruct (getProp "id" (dump d)); [|discriminate].
  destruct (getProp "url" (dump d)); [|discriminate].
  destruct (getProp "options" (dump d)); [|discriminate].
  unfold FetchVMLib.getCurrentState.
  match goal with
  | |- context [FetchVMLib.vmEval E now captureCode ?m0] =>
      pose proof (fetchvm_vmEval_code captureCode m0) as H3;
      destruct (FetchVMLib.vmEval E now captureCode m0) as [r m3]
  end.
  cbn [fst snd FetchVMLib.allCode FetchVMLib.vm FetchVMLib.host] in *.
  intros [= <- _]. cbn [FetchVMLib.code].
  split; [exists v, marker; split; [reflexivity|assumption]|].
  rewrite H3, H2, H1. split; reflexivity.
Qed.

End FetchVMFacts.

(** ** One fetch call, for every URL *)

Lemma substring_all (s : string) : String.substring 0 (String.length s) s = s.
Proof. induction s; simpl; congruence. Qed.

(** The parser on a text with plain holes, through the tokens of its
    segments. *)
Lemma acornParse_flatten (l : list segment) (ts : list MiniJS.ptoken) :
  holesPlain l ->
  lexSegments MiniJS.LxIdle 0 l = Some ts ->
  MiniJS.acornParse (flatten l) =
  match MiniJS.parseProgram (8 * length ts + 8) ts with
  | Some prog => Some (map MiniJS.toNode prog)
  | None => None
  end.
Proof.
  intros Hl Hts. unfold MiniJS.acornParse, MiniJS.parse, MiniJS.tokenize.
  rewrite (lexSegments_sound l _ _ ts Hl Hts). reflexivity.
Qed.

(** Parses [flatten l] on the tokens of the segments [l]. *)
Ltac parse_segments l :=
  let ts := eval vm_compute in (lexSegments MiniJS.LxIdle 0 l) in
  match ts with
  | Some ?ts' =>
      rewrite (acornParse_flatten l ts');
      [vm_compute; reflexivity | simpl; tauto | vm_compute; reflexivity]
  end.

Lemma sourceFetch_segments url : sourceFetch url = flatten (fetchSegments url).
Proof.
  unfold sourceFetch, quoted, fetchSegments. cbn [flatten].
  rewrite !append_assoc. rewrite append_empty. reflexivity.
Qed.

Lemma sourceFetch_length url :
  String.length (sourceFetch url) = (10 + String.length url)%nat.
Proof. unfold sourceFetch, quoted. rewrite !length_app. simpl. lia. Qed.

Lemma acornParse_sourceFetch url :
  plain url = true ->
  MiniJS.acornParse (sourceFetch url)
  = Some [mkNode 0 (String.length (sourceFetch url)) OtherNode].
Proof.
  intros H. rewrite sourceFetch_length, sourceFetch_segments.
  cbn [Nat.add]. parse_segments (fetchSegments url).
Qed.

Lemma statements_sourceFetch url :
  plain url = true ->
  parseCodeIntoStatements MiniJS.engine (sourceFetch url) = [sourceFetch url].
Proof.
  intros H. unfold parseCodeIntoStatements.
  change (acornParse MiniJS.engine) with MiniJS.acornParse.
  rewrite (acornParse_sourceFetch url H).
  cbn [map node_start node_end]. unfold slice.
  rewrite Nat.sub_0_r, substring_all. reflexivity.
Qed.

Lemma names_sourceFetch url :
  plain url = true -> extractVariableNames MiniJS.engine (sourceFetch url) = [].
Proof.
  intros H. unfold extractVariableNames.
  change (acornParse MiniJS.engine) with MiniJS.acornParse.
  rewrite (acornParse_sourceFetch url H). reflexivity.
Qed.

(** The statement hands its URL to the interceptor and has the value that
    the interceptor answers. *)
Lemma eval_sourceFetch (fetch : HostFunction MiniJS.ctx) url h v c' h' :
  plain url = true ->
  fetch [VStr url] MiniJS.fresh h = (EvalValue v, c', h') ->
  MiniJS.evalCode fetch (sourceFetch url) MiniJS.fresh h = (EvalValue v, c', h').
Proof.
  intros Hurl H. rewrite sourceFetch_segments.
  let ts := eval vm_compute in (lexSegments MiniJS.LxIdle 0 (fetchSegments url)) in
  match ts with
  | Some ?ts' => rewrite (evalCode_flatten _ ts')
  end; [ | simpl; tauto | vm_compute; reflexivity | reflexivity].
  match goal with
  | |- ?lhs = _ =>
      assert (G : forall r, fetch [VStr url] MiniJS.fresh h = r ->
                  lhs = match r with
                        | (EvalValue v, c', h') => (EvalValue v, c', h')
                        | (EvalError e, c', h') => (EvalError e, c', h')
                        end)
  end.
  { intros r <-. vm_compute.
    match goal with
    | |- context [fetch ?a ?b ?c] => destruct (fetch a b c) as [[[x|x] y] z]
    end; reflexivity. }
  rewrite (G _ H). reflexivity.
Qed.

Lemma quoted_no_close_paren url :
  allChars notCloseParen url = true -> allChars notCloseParen (quoted url) = true.
Proof.
  intros H. unfold quoted. rewrite !allChars_app, H. reflexivity.
Qed.

Lemma plain_no_close_paren_app a b :
  plain a = true -> plain b = true -> plain (a ++ ")" ++ b) = true.
Proof.
  intros Ha Hb. apply plain_app; [assumption|].
  apply (plain_app ")"); [reflexivity|assumption].
Qed.

(** The text that [resume] evaluates for the statement, when the URL holds
    no closing parenthesis. *)
Lemma transformForResume_sourceFetch url :
  plain url = true -> allChars notCloseParen url = true ->
  transformForResume MiniJS.engine (sourceFetch url)
  = "globalThis.__currentFetchData;".
Proof.
  intros Hurl Hparen. unfold transformForResume.
  rewrite (names_sourceFetch url Hurl). cbn [rewriteDeclarations fold_left].
  unfold sourceFetch.
  change ("fetch(" ++ quoted url ++ ");") with ("fetch(" ++ quoted url ++ ")" ++ ";").
  rewrite replaceFetchCalls_call;
    [reflexivity | unfold quoted, dquote; discriminate
     | apply quoted_no_close_paren; assumption].
Qed.

Lemma get_allChars (p : ascii -> bool) (s : string) :
  forall n c, allChars p s = true -> String.get n s = Some c -> p c = true.
Proof.
  induction s as [|d s IH]; intros n c Hs Hget; [discriminate|].
  simpl in Hs. apply andb_true_iff in Hs. destruct Hs as (Hd & Hs).
  destruct n as [|n]; simpl in Hget.
  - injection Hget as <-. assumption.
  - exact (IH n c Hs Hget).
Qed.

Lemma replaceFetchCalls_no_open (s : string) :
  allChars notOpenParen s = true -> replaceFetchCalls 0 s = s.
Proof.
  induction s as [|c s IH]; intros H; [reflexivity|].
  assert (Hnone : matchFetchCall (String c s) = None).
  { unfold matchFetchCall.
    destruct (stripPrefix "fetch(" (String c s)) as [r|] eqn:Hr; [|reflexivity].
    apply stripPrefix_fetch_paren in Hr.
    apply (get_allChars _ _ _ _ H) in Hr. discriminate Hr. }
  cbn [replaceFetchCalls]. rewrite Hnone.
  simpl in H. apply andb_true_iff in H. destruct H as (_ & H).
  rewrite (IH H). reflexivity.
Qed.

(** The text that [resume] evaluates when the URL holds a closing
    parenthesis: the call is cut at that parenthesis, and what followed it
    in the URL is left behind the replacement. *)
Lemma transformForResume_cut a b :
  plain a = true -> plain b = true ->
  allChars notCloseParen a = true -> allChars notOpenParen b = true ->
  transformForResume MiniJS.engine (sourceFetch (a ++ ")" ++ b))
  = "globalThis.__currentFetchData" ++ b ++ dquote ++ ");".
Proof.
  intros Ha Hb Hclose Hopen. unfold transformForResume.
  rewrite (names_sourceFetch _ (plain_no_close_paren_app a b Ha Hb)).
  cbn [rewriteDeclarations fold_left].
  replace (sourceFetch (a ++ ")" ++ b))
    with ("fetch(" ++ (dquote ++ a) ++ ")" ++ (b ++ dquote ++ ");"))
    by (unfold sourceFetch, quoted; rewrite !append_assoc; reflexivity).
  rewrite replaceFetchCalls_call;
    [ | unfold dquote; discriminate
      | rewrite allChars_app, Hclose; reflexivity ].
  rewrite replaceFetchCalls_no_open; [reflexivity|].
  rewrite !allChars_app, Hopen. reflexivity.
Qed.

(** A plain character leaves the lexer outside double-quoted literals. *)
Lemma lexStep_open (st : MiniJS.lexState) (pos : nat) (c : ascii) :
  plainChar c = true -> openState st ->
  match MiniJS.lexStep st pos c with
  | Some (_, st') => openState st'
  | None => True
  end.
Proof.
  intros Hc Hst.
  destruct (plainChar_facts c Hc) as (Hq & Hb & Hn & Hr).
  assert (Hstart : match MiniJS.startToken c pos with
                   | Some (_, st') => openState st'
                   | None => True
                   end).
  { unfold MiniJS.startToken. rewrite Hq. cbn [orb].
    destruct (isSpace c); [exact I|].
    destruct (Ascii.eqb_spec c "'") as [->|]; [reflexivity|].
    destruct (MiniJS.isIdentStart c); [exact I|].
    destruct (MiniJS.isDigit c); [exact I|].
    destruct (MiniJS.isPunct c); exact I. }
  destruct st as [|start acc|start acc|q start acc|q start acc];
    cbn [MiniJS.lexStep openState] in *.
  - exact Hstart.
  - destruct (MiniJS.isIdentPart c); [exact I|].
    destruct (MiniJS.startToken c pos) as [[ts st']|]; [exact Hstart|exact I].
  - destruct (MiniJS.isDigit c); [exact I|].
    destruct (Ascii.eqb c "n"); [exact I|].
    destruct (MiniJS.startToken c pos) as [[ts st']|]; [exact Hstart|exact I].
  - subst q. destruct (Ascii.eqb c "'"); [exact I|].
    rewrite Hb, Hn, Hr. reflexivity.
  - contradiction.
Qed.

(** Outside a double-quoted literal, a plain text followed by a double
    quote, a closing parenthesis and a semicolon is not a sequence of
    tokens: the literal that the double quote opens is never closed. *)
Lemma lex_unterminated (b : string) :
  forall st pos,
    plain b = true -> openState st ->
    MiniJS.lex st pos (b ++ dquote ++ ");") = None.
Proof.
  induction b as [|c b IH]; intros st pos Hb Hst.
  - destruct st as [|start acc|start acc|q start acc|q start acc];
      cbn [openState] in Hst; try contradiction; try subst q; reflexivity.
  - simpl in Hb. apply andb_true_iff in Hb. destruct Hb as (Hc & Hb).
    pose proof (lexStep_open st pos c Hc Hst) as Hstep.
    cbn [append MiniJS.lex].
    destruct (MiniJS.lexStep st pos c) as [[ts st']|]; [|reflexivity].
    rewrite (IH st' (S pos) Hb Hstep). reflexivity.
Qed.

Lemma eval_cut (fetch : HostFunction MiniJS.ctx) b c h :
  plain b = true ->
  MiniJS.evalCode fetch ("globalThis.__currentFetchData" ++ b ++ dquote ++ ");") c h
  = (EvalError (MiniJS.exception "SyntaxError" "unexpected token"), c, h).
Proof.
  intros Hb. unfold MiniJS.evalCode, MiniJS.parse, MiniJS.tokenize.
  rewrite lex_app.
  replace (MiniJS.lexRun MiniJS.LxIdle 0 "globalThis.__currentFetchData")
    with (Some ([(MiniJS.TIdent "globalThis", 0, 10);
                 (MiniJS.TPunct ".", 10, 11)],
                MiniJS.LxWord 11 "__currentFetchData", 29))%nat
    by (vm_compute; reflexivity).
  rewrite (lex_unterminated b (MiniJS.LxWord 11 "__currentFetchData") 29 Hb I).
  reflexivity.
Qed.

Lemma injectCode_segments d :
  plain d = true ->
  stringifiedText (JSON_stringify (VStr d)) = Some (quoted d) /\
  injectCode (quoted d) = flatten (injectSegments d).
Proof.
  intros Hd. split.
  - unfold JSON_stringify. cbn [stringifyThrows jsonText stringifiedText].
    unfold quoteString. rewrite (escapeString_plain d Hd). reflexivity.
  - unfold injectCode, quoted, injectSegments. cbn [flatten].
    rewrite !append_assoc. reflexivity.
Qed.

(** The inject code of [resume] for a plain string: it binds the string. *)
Lemma eval_inject (fetch : HostFunction MiniJS.ctx) d c h :
  plain d = true ->
  MiniJS.evalCode fetch (injectCode (quoted d)) c h
  = (EvalValue (VStr d), MiniJS.setProp "__currentFetchData" (VStr d) c, h).
Proof.
  intros Hd. rewrite (proj2 (injectCode_segments d Hd)).
  eval_segments (injectSegments d).
Qed.

Section MiniCalls.
Variable now : nat -> Z.

Local Abbreviation E := MiniJS.engine.
Local Abbreviation F := (fetchFunc MiniJS.engine now 8).

(** [execute] of one fetch call on a new instance, at any time. *)
Lemma execute_sourceFetch (reads : nat) (url : string) :
  plain url = true ->
  let rid := requestIdOf (now reads) 1 in
  execute E now (sourceFetch url) (initialize E reads)
  = (Returned
       (Paused (VMState.mk ("state_" ++ showZ (now (S (S reads))))
                           (newline ++ sourceFetch url) freshVars
                           (now (S (S (S reads)))) 0 [sourceFetch url])
               (FetchRequest.mk (VStr rid) (VStr url) (VObj []) (now (S reads)))),
     miniVM (pausedContext rid url) (mkHost 1 (S (S (S (S reads)))))
            (newline ++ sourceFetch url) [sourceFetch url] 0).
Proof.
  intros Hurl rid.
  unfold execute, executeNextStatement, initialize.
  cbn [statements vm host allCode].
  rewrite (statements_sourceFetch url Hurl).
  cbn [length append].
  fold (miniVM MiniJS.fresh (mkHost 0 reads) (newline ++ sourceFetch url)
               [sourceFetch url] 0).
  rewrite (run_pause now 1 _ _ _ _ 0 (sourceFetch url) (sourceFetch url)
             (VStr (pauseMarker ++ rid)) (pausedContext rid url) (mkHost 1 (S reads))
             (pauseMarker ++ rid));
    [ | reflexivity
      | unfold transformStatement; rewrite (names_sourceFetch url Hurl); reflexivity
      | apply (eval_sourceFetch _ url _ _ _ _ Hurl);
        apply (fetch_call now 7 url MiniJS.fresh (mkHost 0 reads) Hurl)
      | reflexivity ].
  rewrite (pause_outcome now (pausedContext rid url) _ _ _ _ (slotOf rid url)
             (pausedContext rid url) (mkHost 1 (S reads))
             (VStr rid) (VStr url) (VObj [])
             (VObj (collectGlobals (pausedContext rid url))));
    [ | vm_compute; reflexivity ..].
  cbn [clockReads fetchCounter].
  replace (dumpProps (VObj (collectGlobals (pausedContext rid url))))
    with freshVars by (vm_compute; reflexivity).
  reflexivity.
Qed.

(** [restoreState] of a snapshot with the variables of a new interpreter:
    the restore code is evaluated and its result is not looked at. *)
Lemma restore_freshVars id code timestamp index stmts c h a s i :
  restoreState E now (VMState.mk id code freshVars timestamp index stmts)
               (miniVM c h a s i)
  = (None,
     miniVM (snd (fst (MiniJS.evalCode F freshRestoreCode c h)))
            (snd (MiniJS.evalCode F freshRestoreCode c h)) code stmts index).
Proof.
  unfold restoreState.
  cbn [VMState.variables VMState.code VMState.statements
       VMState.currentStatementIndex freshVars].
  change (stringifiedText (JSON_stringify (VObj freshVars)))
    with (Some ("{" ++ Scenarios.quoted "Reflect" ++ ":{}}")).
  cbv iota. cbn [vm host miniVM].
  fold (miniVM c h code stmts index). fold freshRestoreCode.
  rewrite vmEval_mini. reflexivity.
Qed.

(** The replay of [resume] after the restore, up to the evaluation of the
    statement under the cursor. *)
Lemma replay_steps state response (m : SequentialFetchVM E) c0 h0 dataText
      v1 c1 h1 current :
  restoreState E now state m
  = (None, miniVM c0 h0 (VMState.code state) (VMState.statements state)
                  (VMState.currentStatementIndex state)) ->
  stringifiedText (JSON_stringify (FetchResponse.data response)) = Some dataText ->
  MiniJS.evalCode F (injectCode dataText) c0 h0 = (EvalValue v1, c1, h1) ->
  nth_error (VMState.statements state) (VMState.currentStatementIndex state)
  = Some current ->
  replayStatement E now state response m
  = match MiniJS.evalCode F (transformForResume E current) c1 h1 with
    | (EvalError e, c2, h2) =>
        (inl (ScriptError (dump e)),
         miniVM c2 h2 (VMState.code state) (VMState.statements state)
                (VMState.currentStatementIndex state))
    | (EvalValue v, c2, h2) =>
        (inr (dump v),
         snd (vmEval E now clearCode
                (miniVM c2 h2 (VMState.code state) (VMState.statements state)
                        (S (VMState.currentStatementIndex state)))))
    end.
Proof.
  intros Hrestore Hdata Hinject Hnth.
  unfold replayStatement. rewrite Hrestore, Hdata.
  rewrite vmEval_mini, Hinject. cbn [fst snd].
  rewrite statements_mini, cursor_mini, Hnth.
  rewrite vmEval_mini.
  destruct (MiniJS.evalCode F (transformForResume E current) c1 h1) as [[[v|e] c2] h2];
    cbn [fst snd]; [|reflexivity].
  rewrite advance_mini. reflexivity.
Qed.

(** [resume] of the snapshot of one fetch call, on an instance whose global
    object [c] the restore code leaves as it is, for data that the inject
    code binds as it is. *)
Lemma resume_sourceFetch url data dataText id timestamp response c h a s i :
  plain url = true -> allChars notCloseParen url = true ->
  FetchResponse.data response = data ->
  stringifiedText (JSON_stringify data) = Some dataText ->
  dump data = data ->
  snd (fst (MiniJS.evalCode F freshRestoreCode c h)) = c ->
  snd (MiniJS.evalCode F freshRestoreCode c h) = h ->
  MiniJS.evalCode F (injectCode dataText) c h
  = (EvalValue data, MiniJS.setProp "__currentFetchData" data c, h) ->
  MiniJS.evalCode F "globalThis.__currentFetchData;"
    (MiniJS.setProp "__currentFetchData" data c) h
  = (EvalValue data, MiniJS.setProp "__currentFetchData" data c, h) ->
  fst (resume E now
         (VMState.mk id (newline ++ sourceFetch url) freshVars timestamp 0
                     [sourceFetch url])
         response (miniVM c h a s i))
  = Returned (Completed data).
Proof.
  intros Hurl Hparen Hdata Htext Hdump Hc Hh Hinject Hreplay. unfold resume.
  rewrite (replay_steps _ response _ c h dataText data
             (MiniJS.setProp "__currentFetchData" data c) h (sourceFetch url));
    [ | rewrite restore_freshVars, Hc, Hh; reflexivity
      | rewrite Hdata; exact Htext
      | exact Hinject
      | reflexivity ].
  rewrite (transformForResume_sourceFetch url Hurl Hparen), Hreplay.
  cbn [VMState.code VMState.statements VMState.currentStatementIndex].
  rewrite vmEval_mini.
  destruct (MiniJS.evalCode F clearCode _ h) as [[r c3] h3]. cbn [fst snd].
  rewrite statements_mini, cursor_mini, Hdump. reflexivity.
Qed.

(** The same for the data of a response that is absent, [null], a boolean
    or a plain string, on a new instance and on the instance that paused. *)
Lemma resume_simple url data id timestamp response rid h a s i c :
  c = MiniJS.fresh \/ c = pausedContext rid url ->
  plain url = true -> allChars notCloseParen url = true ->
  simpleData data = true ->
  FetchResponse.data response = data ->
  fst (resume E now
         (VMState.mk id (newline ++ sourceFetch url) freshVars timestamp 0
                     [sourceFetch url])
         response (miniVM c h a s i))
  = Returned (Completed data).
Proof.
  intros Hc Hurl Hparen Hsimple Hdata.
  assert (Hrc : snd (fst (MiniJS.evalCode F freshRestoreCode c h)) = c)
    by (destruct Hc as [->| ->]; vm_compute; reflexivity).
  assert (Hrh : snd (MiniJS.evalCode F freshRestoreCode c h) = h)
    by (destruct Hc as [->| ->]; vm_compute; reflexivity).
  destruct data as [| |[|]| | |d| | |]; try discriminate Hsimple.
  - apply (resume_sourceFetch url VUndefined "undefined"); try assumption;
      try reflexivity; destruct Hc as [->| ->]; vm_compute; reflexivity.
  - apply (resume_sourceFetch url VNull "null"); try assumption;
      try reflexivity; destruct Hc as [->| ->]; vm_compute; reflexivity.
  - apply (resume_sourceFetch url (VBool true) "true"); try assumption;
      try reflexivity; destruct Hc as [->| ->]; vm_compute; reflexivity.
  - apply (resume_sourceFetch url (VBool false) "false"); try assumption;
      try reflexivity; destruct Hc as [->| ->]; vm_compute; reflexivity.
  - cbn [simpleData] in Hsimple.
    apply (resume_sourceFetch url (VStr d) (quoted d)); try assumption.
    + exact (proj1 (injectCode_segments d Hsimple)).
    + reflexivity.
    + apply eval_inject. exact Hsimple.
    + destruct Hc as [->| ->]; vm_compute; reflexivity.
Qed.

(** [resume], on any instance, of the snapshot of a fetch call whose URL
    holds a closing parenthesis. *)
Lemma resume_cut a b d id timestamp response (m : SequentialFetchVM E) :
  plain a = true -> plain b = true ->
  allChars notCloseParen a = true -> allChars notOpenParen b = true ->
  plain d = true ->
  FetchResponse.data response = VStr d ->
  fst (resume E now
         (VMState.mk id (newline ++ sourceFetch (a ++ ")" ++ b)) freshVars timestamp 0
                     [sourceFetch (a ++ ")" ++ b)])
         response m)
  = Thrown (ScriptError (MiniJS.exception "SyntaxError" "unexpected token")).
Proof.
  intros Ha Hb Hclose Hopen Hd Hdata. destruct m as [c h al s i].
  change (@mkVM MiniJS.engine c h al s i) with (miniVM c h al s i).
  unfold resume.
  rewrite (replay_steps _ response _
             (snd (fst (MiniJS.evalCode F freshRestoreCode c h)))
             (snd (MiniJS.evalCode F freshRestoreCode c h))
             (quoted d) (VStr d)
             (MiniJS.setProp "__currentFetchData" (VStr d)
                (snd (fst (MiniJS.evalCode F freshRestoreCode c h))))
             (snd (MiniJS.evalCode F freshRestoreCode c h))
             (sourceFetch (a ++ ")" ++ b)));
    [ | apply restore_freshVars
      | rewrite Hdata; exact (proj1 (injectCode_segments d Hd))
      | apply eval_inject; exact Hd
      | reflexivity ].
  rewrite (transformForResume_cut a b Ha Hb Hclose Hopen), (eval_cut _ b _ _ Hb).
  reflexivity.
Qed.

Lemma pause_throws c h a s i v c' h' :
  MiniJS.evalCode F "globalThis.__fetchPause" c h = (EvalValue v, c', h') ->
  getProp "id" (dump v) = None ->
  pauseExecution E now (miniVM c h a s i)
  = (Thrown (HostTypeError "fetchDetails"), miniVM c' h' a s i).
Proof.
  intros Heval Hid. unfold pauseExecution.
  rewrite vmEval_mini, Heval. cbn [fst snd]. rewrite Hid. reflexivity.
Qed.

End MiniCalls.

(** X16. One fetch call on a new instance, for every URL without control
    character, double quote or backslash, at any time: [execute] of
    [fetch("URL");] pauses, and the request it reports is the request of
    that call: its id is the id of the first call at the clock reading of
    the call, its URL is the URL as written, its options are empty.  The
    snapshot holds the one variable that every capture of a new interpreter
    holds, [Reflect] as an empty object, and nothing of the script; it
    holds the statement as submitted, and the cursor on it. *)
Theorem fetch_pause_reports_call (now : nat -> Z) (reads : nat) (url : string) :
  plain url = true ->
  exists state fetchRequest m1,
    execute MiniJS.engine now (sourceFetch url) (initialize MiniJS.engine reads)
    = (Returned (Paused state fetchRequest), m1) /\
    FetchRequest.id fetchRequest = VStr (requestIdOf (now reads) 1) /\
    FetchRequest.url fetchRequest = VStr url /\
    FetchRequest.options fetchRequest = VObj [] /\
    VMState.variables state = [("Reflect", VObj [])] /\
    VMState.statements state = [sourceFetch url] /\
    VMState.currentStatementIndex state = 0%nat /\
    fetchCounter (host m1) = 1%nat.
Proof.
  intros Hurl. eexists _, _, _.
  split; [apply (execute_sourceFetch now reads url Hurl)|].
  repeat split.
Qed.

(** X17. Pause and resume of one fetch call: for every URL without control
    character, double quote, backslash or closing parenthesis, resuming the
    snapshot of [fetch("URL");] completes with the data of the response, on
    the instance that paused and, through [resumeExecution], on a new
    instance at any time.  The data is a string without control character,
    double quote or backslash, a boolean, [null], or absent; with absent data
    the result is [undefined]. *)
Theorem fetch_resume_completes (now : nat -> Z) (reads : nat) (url : string)
    (data : jsval) :
  plain url = true -> allChars notCloseParen url = true ->
  simpleData data = true ->
  exists state fetchRequest m1,
    execute MiniJS.engine now (sourceFetch url) (initialize MiniJS.engine reads)
    = (Returned (Paused state fetchRequest), m1) /\
    forall response,
      FetchResponse.data response = data ->
      fst (resume MiniJS.engine now state response m1)
      = Returned (Completed data) /\
      forall (now' : nat -> Z) (reads' : nat),
        fst (resumeExecution MiniJS.engine now' state response reads')
        = Returned (Completed data).
Proof.
  intros Hurl Hparen Hsimple. eexists _, _, _.
  split; [apply (execute_sourceFetch now reads url Hurl)|].
  intros response Hdata. split.
  - apply (resume_simple now url data _ _ _ (requestIdOf (now reads) 1));
      try assumption. right. reflexivity.
  - intros now' reads'. rewrite resumeExecution_outcome.
    change (initialize MiniJS.engine reads')
      with (miniVM MiniJS.fresh (mkHost 0 reads') EmptyString [] 0).
    apply (resume_simple now' url data _ _ _ EmptyString); try assumption.
    left. reflexivity.
Qed.

Lemma tailChar_plain (b : string) :
  allChars tailChar b = true ->
  plain b = true /\ allChars notOpenParen b = true.
Proof.
  induction b as [|c b IH]; [split; reflexivity|].
  cbn [allChars plain]. intros H.
  apply andb_true_iff in H. destruct H as (Hc & Hb).
  destruct (IH Hb) as (Hp & Ho). rewrite Hp, Ho, !andb_true_r.
  unfold tailChar in Hc. unfold plainChar, notOpenParen.
  repeat (apply andb_true_iff in Hc; destruct Hc as (Hc & ?)).
  repeat match goal with
         | H : negb _ = true |- _ => apply negb_true_iff in H
         end.
  split.
  - rewrite Hc. cbn [andb].
    repeat match goal with
           | H : (_ =? _)%nat = false |- _ => rewrite H; clear H
           end.
    reflexivity.
  - apply negb_true_iff, Ascii.eqb_neq. intros ->. discriminate.
Qed.

(** X18. A URL with a closing parenthesis can be paused on but not resumed.
    For a URL [A)B], with [A] free of control characters, double quotes,
    backslashes and closing parentheses and [B] made of printable ASCII
    characters other than the double quote, the backslash, the opening
    parenthesis, the slash and the less-than sign, [execute] of
    [fetch("A)B");] pauses and reports that URL; but the replacement of
    [resume] ends the call at the parenthesis inside the URL, the text it
    leaves ends with a double-quoted literal that is never closed, and
    [resume] of the snapshot fails with a syntax error on every instance. *)
Theorem url_with_closing_paren_not_resumable (now : nat -> Z) (reads : nat)
    (a b d : string) :
  plain a = true -> allChars notCloseParen a = true ->
  allChars tailChar b = true ->
  plain d = true ->
  exists state fetchRequest m1,
    execute MiniJS.engine now (sourceFetch (a ++ ")" ++ b))
            (initialize MiniJS.engine reads)
    = (Returned (Paused state fetchRequest), m1) /\
    FetchRequest.url fetchRequest = VStr (a ++ ")" ++ b) /\
    forall response (now' : nat -> Z) (m : SequentialFetchVM MiniJS.engine),
      FetchResponse.data response = VStr d ->
      exists e,
        fst (resume MiniJS.engine now' state response m) = Thrown (ScriptError e) /\
        getProp "name" e = Some (VStr "SyntaxError").
Proof.
  intros Ha Hclose Htail Hd.
  destruct (tailChar_plain b Htail) as (Hb & Hopen).
  eexists _, _, _.
  split; [apply (execute_sourceFetch now reads _ (plain_no_close_paren_app a b Ha Hb))|].
  split; [reflexivity|].
  intros response now' m Hdata.
  exists (MiniJS.exception "SyntaxError" "unexpected token").
  split; [apply (resume_cut now' a b d); assumption|reflexivity].
Qed.

Lemma sourceMarker_segments s : sourceMarker s = flatten (markerSegments s).
Proof.
  unfold sourceMarker, quoted, markerSegments. cbn [flatten].
  rewrite !append_assoc. rewrite append_empty. reflexivity.
Qed.

Lemma sourceMarker_length s :
  String.length (sourceMarker s) = (18 + String.length s)%nat.
Proof. unfold sourceMarker, quoted. rewrite !length_app. simpl. lia. Qed.

Lemma acornParse_sourceMarker s :
  plain s = true ->
  MiniJS.acornParse (sourceMarker s)
  = Some [mkNode 0 (String.length (sourceMarker s)) OtherNode].
Proof.
  intros H. rewrite sourceMarker_length, sourceMarker_segments.
  cbn [Nat.add]. parse_segments (markerSegments s).
Qed.

Lemma eval_sourceMarker (fetch : HostFunction MiniJS.ctx) s c h :
  plain s = true ->
  MiniJS.evalCode fetch (sourceMarker s) c h
  = (EvalValue (VStr (pauseMarker ++ s)), c, h).
Proof.
  intros Hs. rewrite sourceMarker_segments. eval_segments (markerSegments s).
Qed.

(** X19. A forged marker.  A script whose statement is a string literal
    that starts with the prefix of the pause markers is taken for a pause,
    although the interceptor was not called: no descriptor of a request is
    there to be read, and [execute] on a new instance fails with a type
    error instead of completing with the string.  No clock reading is
    taken and the cursor stays on the statement. *)
Theorem forged_marker_rejected (now : nat -> Z) (reads : nat) (s : string) :
  plain s = true ->
  execute MiniJS.engine now (sourceMarker s) (initialize MiniJS.engine reads)
  = (Thrown (HostTypeError "fetchDetails"),
     miniVM MiniJS.fresh (mkHost 0 reads) (newline ++ sourceMarker s)
            [sourceMarker s] 0).
Proof.
  intros Hs.
  assert (Hnodes := acornParse_sourceMarker s Hs).
  unfold execute, executeNextStatement, initialize, parseCodeIntoStatements.
  cbn [statements vm host allCode].
  change (acornParse MiniJS.engine) with MiniJS.acornParse.
  rewrite Hnodes. cbn [map node_start node_end]. unfold slice.
  rewrite Nat.sub_0_r, substring_all.
  cbn [length append].
  fold (miniVM MiniJS.fresh (mkHost 0 reads) (newline ++ sourceMarker s)
               [sourceMarker s] 0).
  rewrite (run_pause now 1 _ _ _ _ 0 (sourceMarker s) (sourceMarker s)
             (VStr (pauseMarker ++ s)) MiniJS.fresh (mkHost 0 reads)
             (pauseMarker ++ s));
    [ | reflexivity
      | unfold transformStatement, extractVariableNames;
        change (acornParse MiniJS.engine) with MiniJS.acornParse;
        rewrite Hnodes; reflexivity
      | apply eval_sourceMarker; exact Hs
      | destruct s; reflexivity ].
  apply (pause_throws now _ _ _ _ _ VUndefined); [vm_compute; reflexivity|reflexivity].
Qed.

Lemma sourceLog_segments url : sourceLog url = flatten (logSegments url).
Proof.
  unfold sourceLog, quoted, logSegments. cbn [flatten].
  rewrite !append_assoc. rewrite append_empty. reflexivity.
Qed.

Lemma sourceLog_length url :
  String.length (sourceLog url) = (23 + String.length url)%nat.
Proof. unfold sourceLog, quoted. rewrite !length_app. simpl. lia. Qed.

Lemma acornParse_sourceLog url :
  plain url = true ->
  MiniJS.acornParse (sourceLog url)
  = Some [mkNode 0 (String.length (sourceLog url)) OtherNode].
Proof.
  intros H. rewrite sourceLog_length, sourceLog_segments.
  cbn [Nat.add]. parse_segments (logSegments url).
Qed.

(** The call of [console.log] hands its argument to the interceptor and
    has the value [undefined]. *)
Lemma eval_sourceLog (fetch : HostFunction MiniJS.ctx) url h v c' h' :
  plain url = true ->
  fetch [VStr url] MiniJS.fresh h = (EvalValue v, c', h') ->
  MiniJS.evalCode fetch (sourceLog url) MiniJS.fresh h = (EvalValue VUndefined, c', h').
Proof.
  intros Hurl H. rewrite sourceLog_segments.
  let ts := eval vm_compute in (lexSegments MiniJS.LxIdle 0 (logSegments url)) in
  match ts with
  | Some ?ts' => rewrite (evalCode_flatten _ ts')
  end; [ | simpl; tauto | vm_compute; reflexivity | reflexivity].
  match goal with
  | |- ?lhs = _ =>
      assert (G : forall r, fetch [VStr url] MiniJS.fresh h = r ->
                  lhs = match r with
                        | (EvalValue v, c', h') => (EvalValue VUndefined, c', h')
                        | (EvalError e, c', h') => (EvalError e, c', h')
                        end)
  end.
  { intros r <-. vm_compute.
    match goal with
    | |- context [fetch ?a ?b ?c] => destruct (fetch a b c) as [[[x|x] y] z]
    end; reflexivity. }
  rewrite (G _ H). reflexivity.
Qed.

(** X21. A fetch call whose marker is not the value of its statement goes
    unnoticed.  For every URL without control character, double quote or
    backslash, [execute] of [console.log(fetch("URL"));] on a new instance
    completes with [undefined]: the interceptor was called once, its
    descriptor sits in the reserved slot and the counter stands at one, but
    [console.log] answers [undefined], the statement declares nothing, and
    the run does not pause. *)
Theorem logged_fetch_not_detected (now : nat -> Z) (reads : nat) (url : string) :
  plain url = true ->
  execute MiniJS.engine now (sourceLog url) (initialize MiniJS.engine reads)
  = (Returned (Completed VUndefined),
     miniVM (pausedContext (requestIdOf (now reads) 1) url) (mkHost 1 (S reads))
            (newline ++ sourceLog url) [sourceLog url] 1).
Proof.
  intros Hurl.
  assert (Hnodes := acornParse_sourceLog url Hurl).
  unfold execute, executeNextStatement, initialize, parseCodeIntoStatements.
  cbn [statements vm host allCode].
  change (acornParse MiniJS.engine) with MiniJS.acornParse.
  rewrite Hnodes. cbn [map node_start node_end]. unfold slice.
  rewrite Nat.sub_0_r, substring_all.
  cbn [length append].
  fold (miniVM MiniJS.fresh (mkHost 0 reads) (newline ++ sourceLog url)
               [sourceLog url] 0).
  assert (Hnames : extractVariableNames MiniJS.engine (sourceLog url) = []).
  { unfold extractVariableNames.
    change (acornParse MiniJS.engine) with MiniJS.acornParse.
    rewrite Hnodes. reflexivity. }
  rewrite (run_last now 1 _ _ _ _ 0 (sourceLog url) (sourceLog url) VUndefined
             (pausedContext (requestIdOf (now reads) 1) url) (mkHost 1 (S reads)));
    [ reflexivity
    | reflexivity
    | unfold transformStatement; rewrite Hnames; reflexivity
    | exact Hnames
    | apply (eval_sourceLog _ url _ (VStr (pauseMarker ++ requestIdOf (now reads) 1))
               _ _ Hurl);
      apply (fetch_call now 7 url MiniJS.fresh (mkHost 0 reads) Hurl)
    | reflexivity
    | cbn; lia ].
Qed.

(** X22. A session over one fetch call, as the test drivers run it with new
    interpreters: [executeCode], then [resumeExecution] with each response
    as long as the run is paused.  For every URL without control character,
    double quote, backslash or closing parenthesis the session reports
    exactly one request, with that URL, whatever responses follow the first
    one, whose data is a plain string, a boolean, [null] or absent. *)
Theorem session_reports_one_request (now : nat -> Z) (url : string)
    (responses : list FetchResponse.t) :
  plain url = true -> allChars notCloseParen url = true ->
  match responses with
  | [] => True
  | r :: _ => simpleData (FetchResponse.data r) = true
  end ->
  requestUrls MiniJS.engine now (sourceFetch url) responses = [VStr url].
Proof.
  intros Hurl Hparen Hdata.
  unfold requestUrls, executeCode.
  rewrite (execute_sourceFetch now 0 url Hurl).
  destruct responses as [|r rest]; [reflexivity|].
  cbn [requestUrlsFrom FetchRequest.url host clockReads miniVM].
  pose proof (resumeExecution_outcome MiniJS.engine now
                (VMState.mk ("state_" ++ showZ (now 2)) (newline ++ sourceFetch url)
                            freshVars (now 3) 0 [sourceFetch url]) r 4) as Hout.
  change (initialize MiniJS.engine 4)
    with (miniVM MiniJS.fresh (mkHost 0 4) EmptyString [] 0) in Hout.
  rewrite (resume_simple now url (FetchResponse.data r) _ _ r EmptyString
             (mkHost 0 4) EmptyString [] 0 MiniJS.fresh
             (or_introl eq_refl) Hurl Hparen Hdata eq_refl) in Hout.
  destruct (resumeExecution MiniJS.engine now _ r 4) as [o reads'].
  cbn [fst] in Hout. subst o. destruct rest; reflexivity.
Qed.

(** ** Scripts of fetch calls with literal URLs *)

(** *** Scripts of fetch calls with literal URLs *)

Lemma lexRun_sourceFetch (url : string) (pos : nat) :
  plain url = true ->
  MiniJS.lexRun MiniJS.LxIdle pos (sourceFetch url)
  = Some (fetchTokens url pos, MiniJS.LxIdle, S (S (S (7 + pos + String.length url)))).
Proof.
  intros Hurl. unfold sourceFetch, Scenarios.quoted.
  change ("fetch(" ++ (dquote ++ url ++ dquote) ++ ");")
    with (("fetch(" ++ dquote) ++ (url ++ dquote) ++ ");").
  rewrite lexRun_app.
  change (MiniJS.lexRun MiniJS.LxIdle pos ("fetch(" ++ dquote))
    with (Some ([(MiniJS.TIdent "fetch", pos, 5 + pos);
                 (MiniJS.TPunct "(", 5 + pos, 6 + pos)],
                MiniJS.LxString (ascii_of_nat 34) (6 + pos) EmptyString, 7 + pos)).
  rewrite append_assoc, lexRun_app, (lexRun_plain url _ _ _ Hurl).
  cbn [append].
  change (MiniJS.lexRun (MiniJS.LxString (ascii_of_nat 34) (6 + pos) url)
            (7 + pos + String.length url) (dquote ++ ");"))
    with (Some ([(MiniJS.TStr url, 6 + pos, S (7 + pos + String.length url));
                 (MiniJS.TPunct ")", S (7 + pos + String.length url),
                  S (S (7 + pos + String.length url)));
                 (MiniJS.TPunct ";", S (S (7 + pos + String.length url)),
                  S (S (S (7 + pos + String.length url))))],
                MiniJS.LxIdle, S (S (S (7 + pos + String.length url))))).
  reflexivity.
Qed.

Lemma lexRun_sourceFetches (urls : list string) :
  forall pos,
    forallb plain urls = true ->
    exists pos',
      MiniJS.lexRun MiniJS.LxIdle pos (sourceFetches urls)
      = Some (fetchesTokens urls pos, MiniJS.LxIdle, pos').
Proof.
  induction urls as [|url urls IH]; intros pos Hurls.
  - exists pos. reflexivity.
  - cbn [forallb] in Hurls. apply andb_true_iff in Hurls. destruct Hurls as (Hurl & Hurls).
    destruct (IH (S (S (S (7 + pos + String.length url)))) Hurls) as (pos' & Hrest).
    exists pos'. cbn [sourceFetches fetchesTokens].
    rewrite lexRun_app, (lexRun_sourceFetch url pos Hurl), Hrest. reflexivity.
Qed.

Lemma tokenize_sourceFetches (urls : list string) :
  forallb plain urls = true ->
  MiniJS.tokenize (sourceFetches urls) = Some (fetchesTokens urls 0).
Proof.
  intros Hurls. unfold MiniJS.tokenize.
  destruct (lexRun_sourceFetches urls 0 Hurls) as (pos' & Hlex).
  rewrite <- (append_empty (sourceFetches urls)), lex_app, Hlex.
  cbn [MiniJS.lex MiniJS.lexEnd]. rewrite app_nil_r. reflexivity.
Qed.

Lemma parseProgram_fetch (url : string) (pos : nat) (rest : list MiniJS.ptoken)
    (f : nat) :
  11 <= f ->
  MiniJS.parseProgram (S f) (fetchTokens url pos ++ rest)
  = match MiniJS.parseProgram f rest with
    | Some l =>
        Some ((pos, S (S (S (7 + pos + String.length url))),
               MiniJS.SExpr (fetchCall url)) :: l)
    | None => None
    end.
Proof.
  intros Hf. do 11 (destruct f as [|f]; [lia|]). reflexivity.
Qed.

Lemma parseProgram_fetches (urls : list string) :
  forall pos f,
    length urls + 12 <= f ->
    MiniJS.parseProgram f (fetchesTokens urls pos) = Some (fetchesProgram urls pos).
Proof.
  induction urls as [|url urls IH]; intros pos f Hf.
  - destruct f; [simpl in Hf; lia|]. reflexivity.
  - cbn [length] in Hf. destruct f as [|f]; [lia|].
    cbn [fetchesTokens fetchesProgram].
    rewrite parseProgram_fetch by lia. rewrite IH by lia. reflexivity.
Qed.

Lemma length_fetchesTokens (urls : list string) :
  forall pos, length (fetchesTokens urls pos) = 5 * length urls.
Proof.
  induction urls as [|url urls IH]; intros pos; [reflexivity|].
  cbn [fetchesTokens]. rewrite List.length_app, IH.
  change (length (fetchTokens url pos)) with 5. cbn [length]. lia.
Qed.

Lemma parse_sourceFetches (urls : list string) :
  forallb plain urls = true ->
  MiniJS.parse (sourceFetches urls) = Some (fetchesProgram urls 0).
Proof.
  intros Hurls. unfold MiniJS.parse. rewrite (tokenize_sourceFetches urls Hurls).
  destruct urls as [|url urls]; [reflexivity|].
  apply parseProgram_fetches. rewrite length_fetchesTokens. cbn [length]. lia.
Qed.

Lemma substring_skip (a b : string) (n : nat) :
  String.substring (String.length a) n (a ++ b) = String.substring 0 n b.
Proof. induction a as [|c a IH]; [reflexivity|]. exact IH. Qed.

Lemma substring_prefix (b c : string) :
  String.substring 0 (String.length b) (b ++ c) = b.
Proof.
  induction b as [|x b IH]; simpl; [destruct c; reflexivity|]. rewrite IH. reflexivity.
Qed.

Lemma slices_sourceFetches (urls : list string) :
  forall pre,
    map (fun n => slice (node_start n) (node_end n) (pre ++ sourceFetches urls))
        (map MiniJS.toNode (fetchesProgram urls (String.length pre)))
    = map sourceFetch urls.
Proof.
  induction urls as [|url urls IH]; intros pre; [reflexivity|].
  cbn [fetchesProgram map MiniJS.toNode node_start node_end sourceFetches].
  f_equal.
  - unfold slice.
    replace (S (S (S (7 + String.length pre + String.length url))) - String.length pre)
      with (String.length (sourceFetch url)) by (rewrite sourceFetch_length; lia).
    rewrite substring_skip. apply substring_prefix.
  - replace (S (S (S (7 + String.length pre + String.length url))))
      with (String.length (pre ++ sourceFetch url))
      by (rewrite length_app, sourceFetch_length; lia).
    rewrite <- (IH (pre ++ sourceFetch url)), append_assoc. reflexivity.
Qed.

(** The statements of such a script are its fetch calls. *)
Lemma statements_sourceFetches (urls : list string) :
  forallb plain urls = true ->
  parseCodeIntoStatements MiniJS.engine (sourceFetches urls) = map sourceFetch urls.
Proof.
  intros Hurls. unfold parseCodeIntoStatements.
  change (acornParse MiniJS.engine) with MiniJS.acornParse.
  unfold MiniJS.acornParse. rewrite (parse_sourceFetches urls Hurls).
  exact (slices_sourceFetches urls EmptyString).
Qed.

Section FetchSessions.
Variable now : nat -> Z.

Local Abbreviation E := MiniJS.engine.
Local Abbreviation F := (fetchFunc MiniJS.engine now 8).

(** The driver on a new instance whose cursor is on a fetch call: it
    pauses there. *)
Lemma run_fetch (fuel reads : nat) (a : string) (s : list string) (i : nat)
    (url : string) :
  plain url = true ->
  nth_error s i = Some (sourceFetch url) ->
  let rid := requestIdOf (now reads) 1 in
  runStatements E now fuel (miniVM MiniJS.fresh (mkHost 0 reads) a s i)
  = (Returned
       (Paused (VMState.mk ("state_" ++ showZ (now (S (S reads)))) a freshVars
                           (now (S (S (S reads)))) i s)
               (FetchRequest.mk (VStr rid) (VStr url) (VObj []) (now (S reads)))),
     miniVM (pausedContext rid url) (mkHost 1 (S (S (S (S reads))))) a s i).
Proof.
  intros Hurl Hnth rid.
  rewrite (run_pause now fuel _ _ _ _ i (sourceFetch url) (sourceFetch url)
             (VStr (pauseMarker ++ rid)) (pausedContext rid url) (mkHost 1 (S reads))
             (pauseMarker ++ rid));
    [ | exact Hnth
      | unfold transformStatement; rewrite (names_sourceFetch url Hurl); reflexivity
      | apply (eval_sourceFetch _ url _ _ _ _ Hurl);
        apply (fetch_call now 7 url MiniJS.fresh (mkHost 0 reads) Hurl)
      | reflexivity ].
  rewrite (pause_outcome now (pausedContext rid url) _ _ _ _ (slotOf rid url)
             (pausedContext rid url) (mkHost 1 (S reads))
             (VStr rid) (VStr url) (VObj [])
             (VObj (collectGlobals (pausedContext rid url))));
    [ | vm_compute; reflexivity ..].
  cbn [clockReads fetchCounter].
  replace (dumpProps (VObj (collectGlobals (pausedContext rid url))))
    with freshVars by (vm_compute; reflexivity).
  reflexivity.
Qed.

(** The replay of [resume] on a new instance, for a snapshot whose cursor
    is on a fetch call: the data of the response is the value of the
    statement, and the instance is left as new, one statement further. *)
Lemma replay_fetch (url : string) (data : jsval) (response : FetchResponse.t)
    (id a : string) (timestamp : Z) (s : list string) (i reads : nat) :
  plain url = true -> allChars notCloseParen url = true ->
  simpleData data = true ->
  FetchResponse.data response = data ->
  nth_error s i = Some (sourceFetch url) ->
  replayStatement E now (VMState.mk id a freshVars timestamp i s) response
                  (miniVM MiniJS.fresh (mkHost 0 reads) EmptyString [] 0)
  = (inr data, miniVM MiniJS.fresh (mkHost 0 reads) a s (S i)).
Proof.
  intros Hurl Hparen Hsimple Hdata Hnth.
  assert (Hsteps : forall dataText,
             stringifiedText (JSON_stringify data) = Some dataText ->
             dump data = data ->
             MiniJS.evalCode F (injectCode dataText) MiniJS.fresh (mkHost 0 reads)
             = (EvalValue data, MiniJS.setProp "__currentFetchData" data MiniJS.fresh,
                mkHost 0 reads) ->
             MiniJS.evalCode F "globalThis.__currentFetchData;"
               (MiniJS.setProp "__currentFetchData" data MiniJS.fresh) (mkHost 0 reads)
             = (EvalValue data, MiniJS.setProp "__currentFetchData" data MiniJS.fresh,
                mkHost 0 reads) ->
             MiniJS.evalCode F clearCode
               (MiniJS.setProp "__currentFetchData" data MiniJS.fresh) (mkHost 0 reads)
             = (EvalValue (VBool true), MiniJS.fresh, mkHost 0 reads) ->
             replayStatement E now (VMState.mk id a freshVars timestamp i s) response
                             (miniVM MiniJS.fresh (mkHost 0 reads) EmptyString [] 0)
             = (inr data, miniVM MiniJS.fresh (mkHost 0 reads) a s (S i))).
  { intros dataText Htext Hdump Hinject Hreplay Hclear.
    rewrite (replay_steps now _ response _ MiniJS.fresh (mkHost 0 reads) dataText data
               (MiniJS.setProp "__currentFetchData" data MiniJS.fresh) (mkHost 0 reads)
               (sourceFetch url));
      [ | rewrite restore_freshVars; reflexivity
        | rewrite Hdata; exact Htext
        | exact Hinject
        | exact Hnth ].
    rewrite (transformForResume_sourceFetch url Hurl Hparen), Hreplay.
    cbn [VMState.code VMState.statements VMState.currentStatementIndex].
    rewrite vmEval_mini, Hclear, Hdump. reflexivity. }
  destruct data as [| |[|]| | |d| | |]; try discriminate Hsimple.
  - apply (Hsteps "undefined"); vm_compute; reflexivity.
  - apply (Hsteps "null"); vm_compute; reflexivity.
  - apply (Hsteps "true"); vm_compute; reflexivity.
  - apply (Hsteps "false"); vm_compute; reflexivity.
  - cbn [simpleData] in Hsimple. apply (Hsteps (Scenarios.quoted d)).
    + exact (proj1 (injectCode_segments d Hsimple)).
    + reflexivity.
    + apply eval_inject. exact Hsimple.
    + vm_compute; reflexivity.
    + vm_compute; reflexivity.
Qed.
End FetchSessions.

Lemma skipn_nth_error {A : Type} (l : list A) :
  forall i x, nth_error l i = Some x -> skipn i l = x :: skipn (S i) l.
Proof.
  induction l as [|y l IH]; intros [|i] x H; try discriminate H.
  - injection H as ->. reflexivity.
  - exact (IH i x H).
Qed.

Section FetchSessionRuns.
Variable now : nat -> Z.

Local Abbreviation E := MiniJS.engine.

(** A session that is paused on the fetch call number [i] of such a script
    reports, for each response it is given, the URL of the next call. *)
Lemma requestUrlsFrom_fetches (urls : list string) :
  forallb plain urls = true ->
  forallb (allChars notCloseParen) urls = true ->
  forall responses,
    forallb (fun r => simpleData (FetchResponse.data r)) responses = true ->
    forall i url id a timestamp fetchRequest reads,
      nth_error urls i = Some url ->
      FetchRequest.url fetchRequest = VStr url ->
      requestUrlsFrom E now responses
        (Returned (Paused (VMState.mk id a freshVars timestamp i (map sourceFetch urls))
                          fetchRequest)) reads
      = map VStr (firstn (S (length responses)) (skipn i urls)).
Proof.
  intros Hplain Hparen responses.
  induction responses as [|r rest IH]; intros Hdata i url id a timestamp fetchRequest reads
    Hnth Hurl.
  - cbn [requestUrlsFrom length]. rewrite Hurl, (skipn_nth_error urls i url Hnth).
    reflexivity.
  - cbn [forallb] in Hdata. apply andb_true_iff in Hdata as [Hr Hrest].
    assert (Hp : plain url = true).
    { apply (proj1 (forallb_forall _ _) Hplain). exact (nth_error_In _ _ Hnth). }
    assert (Hc : allChars notCloseParen url = true).
    { apply (proj1 (forallb_forall _ _) Hparen). exact (nth_error_In _ _ Hnth). }
    cbn [requestUrlsFrom length]. rewrite Hurl, (skipn_nth_error urls i url Hnth).
    cbn [firstn map]. f_equal.
    unfold resumeExecution, resume.
    change (initialize E reads) with (miniVM MiniJS.fresh (mkHost 0 reads) EmptyString [] 0).
    rewrite (replay_fetch now url (FetchResponse.data r) r id a timestamp
               (map sourceFetch urls) i reads Hp Hc Hr eq_refl
               (map_nth_error sourceFetch i urls Hnth)).
    cbn [currentStatementIndex statements miniVM]. rewrite length_map.
    destruct (S i <? length urls)%nat eqn:Hlt.
    + apply Nat.ltb_lt in Hlt.
      destruct (nth_error urls (S i)) as [url'|] eqn:Hnext;
        [| apply nth_error_None in Hnext; lia].
      assert (Hp' : plain url' = true).
      { apply (proj1 (forallb_forall _ _) Hplain). exact (nth_error_In _ _ Hnext). }
      unfold executeNextStatement.
      rewrite (run_fetch now _ reads a (map sourceFetch urls) (S i) url' Hp'
                 (map_nth_error sourceFetch (S i) urls Hnext)).
      cbn [host clockReads miniVM].
      apply (IH Hrest (S i) url' _ a _ _ _ Hnext). reflexivity.
    + apply Nat.ltb_ge in Hlt.
      rewrite (skipn_all2 urls Hlt).
      destruct rest; reflexivity.
Qed.

(** The session over a script of fetch calls reports the URLs of the
    calls, in the order of the text, one more than it is given responses. *)
Lemma requestUrls_fetches (urls : list string) (responses : list FetchResponse.t) :
  forallb plain urls = true ->
  forallb (allChars notCloseParen) urls = true ->
  forallb (fun r => simpleData (FetchResponse.data r)) responses = true ->
  requestUrls E now (sourceFetches urls) responses
  = map VStr (firstn (S (length responses)) urls).
Proof.
  intros Hplain Hparen Hdata.
  unfold requestUrls, executeCode, execute, executeNextStatement.
  rewrite (statements_sourceFetches urls Hplain).
  cbn [statements].
  change (initialize E 0) with (miniVM MiniJS.fresh (mkHost 0 0) EmptyString [] 0).
  cbn [vm host allCode miniVM].
  destruct urls as [|url urls'] eqn:Hurls; [destruct responses; reflexivity|].
  rewrite <- Hurls in *.
  assert (Hnth : nth_error urls 0 = Some url) by (rewrite Hurls; reflexivity).
  assert (Hp : plain url = true).
  { apply (proj1 (forallb_forall _ _) Hplain). exact (nth_error_In _ _ Hnth). }
  change (@mkVM E MiniJS.fresh (mkHost 0 0) (EmptyString ++ newline ++ sourceFetches urls)
            (map sourceFetch urls) 0)
    with (miniVM MiniJS.fresh (mkHost 0 0) (EmptyString ++ newline ++ sourceFetches urls)
            (map sourceFetch urls) 0).
  rewrite (run_fetch now _ 0 _ (map sourceFetch urls) 0 url Hp
             (map_nth_error sourceFetch 0 urls Hnth)).
  cbn [host clockReads miniVM].
  apply (requestUrlsFrom_fetches urls Hplain Hparen responses Hdata 0 url _ _ _ _ _
           Hnth).
  reflexivity.
Qed.
End FetchSessionRuns.

Lemma forallb_over_map {A B : Type} (f : B -> bool) (g : A -> B) (l : list A) :
  forallb f (map g l) = forallb (fun x => f (g x)) l.
Proof. induction l as [|x l IH]; [reflexivity|]. simpl. rewrite IH. reflexivity. Qed.



(** ** The further properties at concrete inputs *)

Lemma fetch_call_replaced_witness :
  replaceFetchCalls 0 "y = fetch(1) + fetch()"
  = "y = globalThis.__currentFetchData + fetch()".
Proof.
  exact (fetch_call_replaced "y = " "1" " + fetch()" eq_refl
           ltac:(discriminate) eq_refl).
Defined.

Lemma dollar_names_not_rewritten_witness :
  forallb hasDollar ["$x"; "a$"] = true /\
  rewriteDeclarations ["$x"; "a$"] "var $x = 1, a$ = 2;" = "var $x = 1, a$ = 2;".
Proof.
  split; [reflexivity|].
  exact (dollar_names_not_rewritten ["$x"; "a$"] "var $x = 1, a$ = 2;" eq_refl).
Defined.

Lemma declaration_rewritten_witness :
  extractVariableNames MiniJS.engine "const  post= fetch(1);" = ["post"] /\
  transformStatement MiniJS.engine "const  post= fetch(1);"
  = "globalThis.post = fetch(1);".
Proof.
  assert (H : extractVariableNames MiniJS.engine "const  post= fetch(1);" = ["post"])
    by (vm_compute; reflexivity).
  split; [exact H|].
  exact (declaration_rewritten MiniJS.engine "const" "  " "post" EmptyString
           " fetch(1);"
           (or_introl eq_refl) ltac:(discriminate) eq_refl
           ltac:(discriminate) eq_refl eq_refl H).
Defined.

Lemma resume_injects_into_declaration_witness :
  extractVariableNames MiniJS.engine "const post = fetch(1);" = ["post"] /\
  transformForResume MiniJS.engine "const post = fetch(1);"
  = "globalThis.post = globalThis.__currentFetchData;".
Proof.
  assert (H : extractVariableNames MiniJS.engine "const post = fetch(1);" = ["post"])
    by (vm_compute; reflexivity).
  split; [exact H|].
  exact (resume_injects_into_declaration MiniJS.engine "const" "post" "1"
           (or_introl eq_refl) ltac:(discriminate) eq_refl
           ltac:(discriminate) eq_refl H).
Defined.

Lemma execute_empty_program_witness :
  acornParse MiniJS.engine EmptyString = Some [] /\
  fst (execute MiniJS.engine clock EmptyString machine0)
  = Returned (Completed VUndefined).
Proof.
  assert (H : acornParse MiniJS.engine EmptyString = Some []) by reflexivity.
  split; [exact H|].
  rewrite (execute_empty_program MiniJS.engine clock EmptyString machine0 H).
  reflexivity.
Defined.

Lemma resume_cursor_out_of_range_witness :
  exists e,
    fst (resume MiniJS.engine clock emptySnapshot
           (okResponse "r" "OK" 200 0 None VNull) machine0) = Thrown e /\
    forall errorMsg, e <> ScriptError errorMsg.
Proof.
  apply (resume_cursor_out_of_range MiniJS.engine clock emptySnapshot).
  apply Nat.le_refl.
Defined.



Lemma completed_cursor_at_end_witness :
  currentStatementIndex machineAfterFirst = length (statements machineAfterFirst).
Proof.
  apply (completed_cursor_at_end MiniJS.engine clock (CallExecute "a = 1;") machine0
           (VNum 1)).
  apply (pair_of_fst (execute MiniJS.engine clock "a = 1;" machine0)).
  vm_compute. reflexivity.
Defined.

Lemma fetchvm_execute_pauses_on_final_value_witness :
  FetchVMLib.code fetchvmSnapshot = newline ++ sourceFetch "https://x/1".
Proof.
  assert (H : fst (FetchVMLib.execute MiniJS.engine clock (sourceFetch "https://x/1")
                     (FetchVMLib.initialize MiniJS.engine 0))
              = FetchVMLib.Returned (FetchVMLib.Paused fetchvmSnapshot fetchvmRequest))
    by (vm_compute; reflexivity).
  exact (proj1 (proj2 (fetchvm_execute_pauses_on_final_value MiniJS.engine clock
                         _ _ _ _ H))).
Defined.

Lemma fetch_pause_reports_call_witness :
  exists state fetchRequest m1,
    execute MiniJS.engine clock (sourceFetch "https://x/a?b=1")
            (initialize MiniJS.engine 0)
    = (Returned (Paused state fetchRequest), m1) /\
    FetchRequest.id fetchRequest = VStr (requestIdOf (clock 0) 1) /\
    FetchRequest.url fetchRequest = VStr "https://x/a?b=1" /\
    FetchRequest.options fetchRequest = VObj [] /\
    VMState.variables state = [("Reflect", VObj [])] /\
    VMState.statements state = [sourceFetch "https://x/a?b=1"] /\
    VMState.currentStatementIndex state = 0%nat /\
    fetchCounter (host m1) = 1%nat.
Proof.
  exact (fetch_pause_reports_call clock 0 "https://x/a?b=1" eq_refl).
Defined.

Lemma fetch_resume_completes_witness :
  exists state fetchRequest m1,
    execute MiniJS.engine clock (sourceFetch "https://x/1")
            (initialize MiniJS.engine 0)
    = (Returned (Paused state fetchRequest), m1) /\
    forall response,
      FetchResponse.data response = VStr "ok" ->
      fst (resume MiniJS.engine clock state response m1)
      = Returned (Completed (VStr "ok")) /\
      forall (now' : nat -> Z) (reads' : nat),
        fst (resumeExecution MiniJS.engine now' state response reads')
        = Returned (Completed (VStr "ok")).
Proof.
  exact (fetch_resume_completes clock 0 "https://x/1" (VStr "ok")
           eq_refl eq_refl eq_refl).
Defined.

Lemma url_with_closing_paren_not_resumable_witness :
  exists state fetchRequest m1,
    execute MiniJS.engine clock (sourceFetch "https://x/a(1)")
            (initialize MiniJS.engine 0)
    = (Returned (Paused state fetchRequest), m1) /\
    FetchRequest.url fetchRequest = VStr "https://x/a(1)" /\
    forall response (now' : nat -> Z) (m : SequentialFetchVM MiniJS.engine),
      FetchResponse.data response = VStr "ok" ->
      exists e,
        fst (resume MiniJS.engine now' state response m) = Thrown (ScriptError e) /\
        getProp "name" e = Some (VStr "SyntaxError").
Proof.
  exact (url_with_closing_paren_not_resumable clock 0 "https://x/a(1" EmptyString "ok"
           eq_refl eq_refl eq_refl eq_refl).
Defined.

Lemma forged_marker_rejected_witness :
  fst (execute MiniJS.engine clock (sourceMarker "x") machine0)
  = Thrown (HostTypeError "fetchDetails").
Proof.
  change machine0 with (initialize MiniJS.engine 0).
  rewrite (forged_marker_rejected clock 0 "x" eq_refl). reflexivity.
Defined.

Lemma script_error_keeps_cursor_witness :
  exists original x m0,
    dump missingError = dump x /\
    nth_error (statements machineF2) (currentStatementIndex machineF2) = Some original /\
    statements m0 = statements machineF2 /\
    currentStatementIndex m0 = currentStatementIndex machineF2 /\
    (vmEval MiniJS.engine clock (transformStatement MiniJS.engine original) m0
     = (EvalError x, machineF2) \/
     vmEval MiniJS.engine clock (transformForResume MiniJS.engine original) m0
     = (EvalError x, machineF2)).
Proof.
  apply (script_error_keeps_cursor MiniJS.engine clock (CallExecute sourceFailing)
           machine0 (dump missingError)).
  apply (pair_of_fst (execute MiniJS.engine clock sourceFailing machine0)).
  vm_compute. reflexivity.
Defined.

Lemma logged_fetch_not_detected_witness :
  fst (execute MiniJS.engine clock (sourceLog "https://x/1") machine0)
  = Returned (Completed VUndefined) /\
  fetchCounter (host (snd (execute MiniJS.engine clock (sourceLog "https://x/1")
                             machine0))) = 1%nat.
Proof.
  change machine0 with (initialize MiniJS.engine 0).
  rewrite (logged_fetch_not_detected clock 0 "https://x/1" eq_refl).
  split; reflexivity.
Defined.

Lemma session_reports_one_request_witness :
  requestUrls MiniJS.engine clock (sourceFetch "https://x/1")
    [okResponse "r1" "OK" 200 0 None (VStr "ok");
     okResponse "r2" "OK" 200 0 None (VNum 1)]
  = [VStr "https://x/1"].
Proof.
  exact (session_reports_one_request clock "https://x/1"
           [okResponse "r1" "OK" 200 0 None (VStr "ok");
            okResponse "r2" "OK" 200 0 None (VNum 1)]
           eq_refl eq_refl eq_refl).
Defined.
